(** * Ateema budget allocation and price resolution

    A shallow embedding of the pricing helpers of [ateema/pricing.py], of the
    pool budgets of [ateema/budget.py], of the greedy allocator of
    [legacy/Dazhou/upgrader.py], and of the catalog partition, the Summit
    Booth filter and the duration keys of [ateema/catalog.py],
    [ateema/summit_rules.py] and [ateema/io_loader.py], with the properties
    the specification states about them and further ones read off the code.

    Conventions of the embedding.
    - A Python [float] is an exact rational ([Q]): prices, multipliers and
      budgets are compared as numbers ([Qle_bool], [Qeq_bool]), and rounding
      error is left out. Properties of amounts are therefore stated as
      orders and bounds, with half a cent of slack where an exact equality
      or a comparison that lands on the boundary would depend on the
      rounding of a float sum or product.
    - A computation that may raise a Python exception returns [option]:
      [None] is "an exception was raised", [Some v] is "returned [v]". The
      allocator, which has a [while] loop, takes the number of passes it may
      make and returns an [outcome].
    - A Python [str] is the [string] of its bytes. The case, blank and digit
      tests act on the ASCII range, as Python's do on text whose other
      characters are neither cased letters, blanks nor digits.
    - A [dict] that is only looked up is a [gmap]; a [dict] that is iterated
      is the list of its items in insertion order. *)

From Stdlib Require Import QArith Qround Qminmax Lqa ZArith String Ascii List Lia.
From Stdlib Require Import Sorting.Sorted Sorting.Permutation.
From stdpp Require Import base option list strings gmap.

Local Open Scope string_scope.
Local Open Scope list_scope.
Local Open Scope Q_scope.
Local Set Warnings "-register-all".

(** ** Python text primitives *)

Module PyStr.

(** [str.isspace] on ASCII: TAB..CR, FS..US and the blank. *)
Definition is_space (c : ascii) : bool :=
  let n := nat_of_ascii c in
  ((9 <=? n) && (n <=? 13) || (28 <=? n) && (n <=? 32))%nat.

(** [str.isdigit] on ASCII. *)
Definition is_digit (c : ascii) : bool :=
  let n := nat_of_ascii c in ((48 <=? n) && (n <=? 57))%nat.

Fixpoint lstrip (s : string) : string :=
  match s with
  | EmptyString => EmptyString
  | String c s' => if is_space c then lstrip s' else s
  end.

Fixpoint rstrip (s : string) : string :=
  match s with
  | EmptyString => EmptyString
  | String c s' =>
      match rstrip s' with
      | EmptyString => if is_space c then EmptyString else String c EmptyString
      | r => String c r
      end
  end.

(** [s.strip()] *)
Definition strip (s : string) : string := lstrip (rstrip s).

Definition lower_char (c : ascii) : ascii :=
  let n := nat_of_ascii c in
  if ((65 <=? n) && (n <=? 90))%nat then ascii_of_nat (n + 32) else c.

Definition upper_char (c : ascii) : ascii :=
  let n := nat_of_ascii c in
  if ((97 <=? n) && (n <=? 122))%nat then ascii_of_nat (n - 32) else c.

Fixpoint map_chars (f : ascii -> ascii) (s : string) : string :=
  match s with
  | EmptyString => EmptyString
  | String c s' => String (f c) (map_chars f s')
  end.

(** [s.lower()] and [s.upper()] *)
Definition lower : string -> string := map_chars lower_char.
Definition upper : string -> string := map_chars upper_char.

(** [s.startswith(p)] *)
Definition startswith (s p : string) : bool := String.prefix p s.

(** [sub in s] *)
Fixpoint contains (sub s : string) : bool :=
  String.prefix sub s
  || match s with
     | EmptyString => false
     | String _ s' => contains sub s'
     end.

(** The text starts, respectively ends, with a character that [strip]
    keeps. *)
Definition starts_solid (s : string) : bool :=
  match s with
  | EmptyString => false
  | String c _ => negb (is_space c)
  end.

Fixpoint ends_solid (s : string) : bool :=
  match s with
  | EmptyString => false
  | String c EmptyString => negb (is_space c)
  | String _ s' => ends_solid s'
  end.

End PyStr.

(** ** Python values found in the catalog JSON *)

(** The values met where the code expects a price, sorted by how
    [isinstance] and [float()] treat them. *)
Inductive pyval :=
| PyNone                                   (* None, or a key that is absent under .get *)
| PyNum (q : Q)                            (* an int or a float (bool included) *)
| PyObj (as_float : option Q)              (* any other non-dict object; [as_float] is what
                                              float() makes of it, [None] when it raises *)
| PyDict (items : list (string * pyval)).  (* a dict, as its items in insertion order *)

(** [float(v)] *)
Definition py_float (v : pyval) : option Q :=
  match v with
  | PyNone => None
  | PyNum q => Some q
  | PyObj f => f
  | PyDict _ => None
  end.

Definition Qltb (a b : Q) : bool := negb (Qle_bool b a).

(** [max(a, b)] of Python: the first argument unless the second is larger. *)
Definition py_max (a b : Q) : Q := if Qltb a b then b else a.

(** [round(x, 2)]: the nearest multiple of 1/100, ties to the even one. *)
Definition py_round2 (x : Q) : Q :=
  let y := x * 100 in
  let f := Qfloor y in
  let r := y - inject_Z f in
  let n := if Qltb r (1 # 2) then f
           else if Qltb (1 # 2) r then (f + 1)%Z
           else if Z.even f then f else (f + 1)%Z in
  inject_Z n / 100.

(** [datetime.date] *)
Record date := Date { year : Z; month : Z; day : Z }.

(** [a < b] on dates. *)
Definition date_ltb (a b : date) : bool :=
  (year a <? year b)%Z
  || (year a =? year b)%Z
     && ((month a <? month b)%Z
         || (month a =? month b)%Z && (day a <? day b)%Z).

(** ** pricing.py *)

Definition _mmdd (d : date) : Z := (month d * 100 + day d)%Z.

Definition EXACT_WINDOWS : list (string * (Z * Z)) :=
  [ ("4/15-6/14", (415, 614)%Z);
    ("6/15-8/31", (615, 831)%Z);
    ("9/1-9/30", (901, 930)%Z) ].

Definition NAMED_WINDOWS : list (string * (Z * Z)) :=
  [ ("Before Valentine's Day", (101, 213)%Z);
    ("After Valentine's Day", (214, 414)%Z);
    ("Before Halloween", (1001, 1031)%Z);
    ("Before Christmas", (1101, 1224)%Z) ].

(** The per-product metadata dict; only ["seasonal_price_windows"] is read
    here: window label -> (option name -> price). A missing key reads as the
    empty table, which the code treats alike. *)
Record MetaRecord := Meta {
  seasonal_price_windows : gmap string (gmap string pyval)
}.

Definition empty_meta : MetaRecord := Meta ∅.

(** One [for label, (start, end) in WINDOWS.items()] loop: the price table of
    the first window that is listed in [seasonal_map] and contains [mmdd];
    [None] when the loop runs to its end. *)
Fixpoint first_window (windows : list (string * (Z * Z)))
    (seasonal_map : gmap string (gmap string pyval)) (mmdd : Z)
    : option (gmap string pyval) :=
  match windows with
  | [] => None
  | (label, (start, stop)) :: rest =>
      match seasonal_map !! label with
      | Some prices =>
          if ((start <=? mmdd) && (mmdd <=? stop))%Z then Some prices
          else first_window rest seasonal_map mmdd
      | None => first_window rest seasonal_map mmdd
      end
  end.

(** [float(seasonal_map[label].get(option_name, None))] *)
Definition window_price (prices : gmap string pyval) (option_name : string)
    : option Q :=
  py_float (default PyNone (prices !! option_name)).

(** [Some None] is "returned None", [Some (Some q)] is "returned q" and
    [None] is "raised". *)
Definition booth_season_for_date (meta : MetaRecord) (option_name : string)
    (chosen_date : date) : option (option Q) :=
  let seasonal_map := seasonal_price_windows meta in
  if bool_decide (seasonal_map = ∅) then Some None
  else
    let mmdd := _mmdd chosen_date in
    match first_window EXACT_WINDOWS seasonal_map mmdd with
    | Some prices => q ← window_price prices option_name; Some (Some q)
    | None =>
        match first_window NAMED_WINDOWS seasonal_map mmdd with
        | Some prices => q ← window_price prices option_name; Some (Some q)
        | None => Some None
        end
    end.

(** An entry of [ProductRecord.price_options]: the keys of the option dict
    that the pricing code reads. *)
Record PriceOption := Option_ {
  opt_name : option string;      (* "name" *)
  price_usd : pyval;             (* "price_usd" *)
  price_usd_by_plan : pyval;     (* "price_usd_by_plan" *)
  pricing : pyval                (* "pricing" *)
}.

(** [[(str(k), float(v)) for k, v in d.items()]] *)
Definition float_items (kvs : list (string * pyval)) : option (list (string * Q)) :=
  mapM (fun kv => x ← py_float kv.2; Some (kv.1, x)) kvs.

(** [num = "".join(ch for ch in lbl if ch.isdigit() or ch == ".")] *)
Fixpoint digits_and_dots (lbl : string) : string :=
  match lbl with
  | EmptyString => EmptyString
  | String c s =>
      if PyStr.is_digit c || Ascii.eqb c "." then String c (digits_and_dots s)
      else digits_and_dots s
  end.

Fixpoint count_dots (s : string) : nat :=
  match s with
  | EmptyString => 0
  | String c s' => (if Ascii.eqb c "." then 1 else 0) + count_dots s'
  end.

(** The integer written by the digits of [s], dots skipped, and how many
    digits there are. *)
Fixpoint digits_value (acc : Z) (s : string) : Z :=
  match s with
  | EmptyString => acc
  | String c s' =>
      if PyStr.is_digit c
      then digits_value (acc * 10 + (Z.of_nat (nat_of_ascii c) - 48))%Z s'
      else digits_value acc s'
  end.

Fixpoint count_digits (s : string) : nat :=
  match s with
  | EmptyString => 0
  | String c s' => (if PyStr.is_digit c then 1 else 0) + count_digits s'
  end.

(** The digits after the first dot. *)
Fixpoint after_dot (s : string) : string :=
  match s with
  | EmptyString => EmptyString
  | String c s' => if Ascii.eqb c "." then s' else after_dot s'
  end.

(** [float(num)] for a text made of digits and dots only: it parses exactly
    when there is at least one digit and at most one dot. [None] is the
    [ValueError]. *)
Definition float_of_num (num : string) : option Q :=
  if ((1 <=? count_digits num) && (count_dots num <=? 1))%nat
  then Some (digits_value 0 num # Pos.of_nat (10 ^ count_digits (after_dot num)))
  else None.

(** The sort key [(x, price)]; [None] in the first component is
    [float("inf")]. *)
Definition _key (lbl : string) (price : Q) : option Q * Q :=
  (float_of_num (digits_and_dots lbl), price).

(** [a < b] on the key tuples: the first component that differs decides. *)
Definition key_ltb (a b : option Q * Q) : bool :=
  match a.1, b.1 with
  | Some x, Some y => if Qeq_bool x y then Qltb a.2 b.2 else Qltb x y
  | Some _, None => true
  | None, Some _ => false
  | None, None => Qltb a.2 b.2
  end.

Section Sorted.
Context {A K : Type} (key : A -> K) (ltb : K -> K -> bool).

(** Puts [x], which stood before every element of [l], in front of the
    first element that is not smaller. *)
Fixpoint insert_stable (x : A) (l : list A) : list A :=
  match l with
  | [] => [x]
  | y :: l' => if ltb (key y) (key x) then y :: insert_stable x l' else x :: l
  end.

(** [sorted(l, key=key)]: the stable sort. *)
Definition sorted (l : list A) : list A := foldr insert_stable [] l.

(** [a] may stand before [b]. *)
Definition ascending (a b : A) : Prop := ltb (key b) (key a) = false.
End Sorted.

(** The [if]/[elif] chain of [price_points]: the items of the first pricing
    shape the option has. *)
Definition price_items (opt : PriceOption) : option (list (string * Q)) :=
  match price_usd opt with
  | PyDict kvs => float_items kvs
  | _ =>
      match price_usd_by_plan opt with
      | PyDict kvs => float_items kvs
      | _ =>
          match price_usd opt with
          | PyNum q => Some [("base", q)]
          | _ =>
              match pricing opt with
              | PyDict kvs => float_items kvs
              | _ => Some []
              end
          end
      end
  end.

Definition price_points (opt : PriceOption) : option (list (string * Q)) :=
  items ← price_items opt;
  Some (sorted (fun t => _key t.1 t.2) key_ltb items).

Record ProductRecord := Product {
  name : string;
  price_options : list PriceOption;
  category : option string;
  duration_quarter_map : option (gmap string pyval)
}.

(** [not product.duration_quarter_map]: the map is None or empty. *)
Definition no_durations (product : ProductRecord) : bool :=
  match duration_quarter_map product with
  | None => true
  | Some m => bool_decide (m = ∅)
  end.

(** [duration]: [float(product.duration_quarter_map.get(lbl, 1))], or 1.0
    when that raises. *)
Definition duration_multiplier (product : ProductRecord) (tier_label : string) : Q :=
  let lbl := PyStr.upper tier_label in
  let dur_raw := default (PyNum 1) (default ∅ (duration_quarter_map product) !! lbl) in
  default 1 (py_float dur_raw).

Definition effective_line_price (product : option ProductRecord)
    (tier_label : string) (base_price : Q) : Q :=
  match product with
  | None => base_price
  | Some p =>
      if no_durations p then base_price
      else base_price * py_max (duration_multiplier p tier_label) 1
  end.

Definition advertiser_overrides (product_name option_name : string)
    (base_price : Q) (tier : string) (is_advertiser : bool)
    : option Q * option string :=
  if negb is_advertiser then (None, None)
  else
    let name := PyStr.strip product_name in
    let opt := PyStr.strip option_name in
    if String.eqb name "Email Blast" && PyStr.contains "Blast Email - concierge" opt
    then
      if is_advertiser
      then (Some 450.0, Some "Existing advertiser contract rate")
      else (None, None)
    else if String.eqb name "Ambassador Program"
    then
      if negb is_advertiser then (None, None)
      else if PyStr.startswith opt "Standard Ambassador Program"
      then (Some 2950, Some "Existing advertiser – with any campaign rate")
      else if PyStr.startswith opt "Ambassador - Concierge Intro"
      then (Some 2750.0, Some "Existing advertiser – with any campaign rate")
      else (None, None)
    else (None, None).

Definition get_effective_unit_price (product_name option_name : string)
    (base_price : Q) (meta : MetaRecord) (chosen_date : option date)
    (is_advertiser : bool) : option Q :=
  eff ←
    match chosen_date with
    | Some d =>
        seasonal ← booth_season_for_date meta option_name d;
        Some (default base_price seasonal)
    | None => Some base_price
    end;
  match (advertiser_overrides product_name option_name eff "" is_advertiser).1 with
  | Some adv_price => Some adv_price
  | None => Some eff
  end.

Definition EARLY_BIRD_TEXT : string := "Early Bird Rate - Ends August 1".
Definition RETAIL_PRICE : Q := 2595.0.
Definition EARLY_BIRD_PRICE : Q := 2395.0.

(** The body of the "Hotel Meetup 2026 Early Bird" branch of
    [apply_discounts]. *)
Definition hotel_meetup_branch (final_price : Q) (tier : string)
    (billing_date : date) : Q * option string :=
  if PyStr.contains EARLY_BIRD_TEXT tier
  then
    let deadline := Date (year billing_date) 8 1 in
    if date_ltb billing_date deadline
    then (EARLY_BIRD_PRICE, Some EARLY_BIRD_TEXT)
    else (RETAIL_PRICE, None)
  else (final_price, None).

(** The closed per-product rules of [apply_discounts], after the advertiser
    override did not fire. *)
Definition product_rules (name opt : string) (base_price final_price : Q)
    (has_other_products prepay_full_year : bool) : Q * option string :=
  if String.eqb name "Email Blast" && PyStr.contains "Blast Email - concierge" opt
  then
    if has_other_products
    then (450.0, Some "Contract bundle price (with other products)")
    else (750.0, None)
  else if String.eqb name "Email Blast" && PyStr.contains "Planner Eblast" opt
  then (final_price, None)
  else if String.eqb name "Chicago Does Reels"
  then
    if has_other_products
    then (895.0, Some "With other purchase discount")
    else (995.0, None)
  else if String.eqb name "Ambassador Program"
  then
    if PyStr.startswith opt "Standard Ambassador Program"
    then if has_other_products then (2950.0, Some "With Any Campaign rate") else (3200.0, None)
    else if PyStr.startswith opt "Ambassador - Concierge Intro"
    then if has_other_products then (2750.0, Some "With Any Campaign rate") else (3000.0, None)
    else (final_price, None)
  else if String.eqb name "Chicago Does Interactive Map"
  then
    if prepay_full_year
    then (py_round2 (base_price * 0.9), Some "Prepay entire year – 10% off")
    else (final_price, None)
  else (final_price, None).

(** Everything of [apply_discounts] below the early-bird branch: the
    advertiser override, then the per-product rules. *)
Definition override_then_rules (name opt : string) (base_price final_price : Q)
    (tier : string) (has_other_products prepay_full_year is_advertiser : bool)
    : Q * option string :=
  let '(adv_price, adv_label) :=
    advertiser_overrides name opt final_price tier is_advertiser in
  match adv_price with
  | Some p => (p, adv_label)
  | None => product_rules name opt base_price final_price
              has_other_products prepay_full_year
  end.

(** The spec's [resolve_discount]. *)
Definition apply_discounts (product_name option_name : string) (base_price : Q)
    (tier : string) (has_other_products prepay_full_year is_advertiser : bool)
    (billing_date : option date) : Q * option string :=
  let name := PyStr.strip product_name in
  let opt := PyStr.strip option_name in
  let final_price := base_price in
  match billing_date with
  | Some d =>
      if String.eqb name "Hotel Meetup" && PyStr.contains "Hotel Meetup 2026" opt
      then hotel_meetup_branch final_price tier d
      else override_then_rules name opt base_price final_price tier
             has_other_products prepay_full_year is_advertiser
  | None =>
      override_then_rules name opt base_price final_price tier
        has_other_products prepay_full_year is_advertiser
  end.

(** ** models.py and budget.py *)

(** A pick: [(option_name, tier_label, price)]. *)
Definition Pick : Type := string * string * Q.

Record Selection := Sel {
  picks : list (string * Pick);   (* product -> pick, in insertion order *)
  subtotal : Q
}.

Record PoolInfo := Pool {
  label : string;
  budget : Q
}.

Definition compute_pools (total_budget tourist_pct industry_pct : Q)
    : PoolInfo * PoolInfo :=
  let t_budget := py_round2 (total_budget * (tourist_pct / 100)) in
  let i_budget := py_round2 (total_budget * (industry_pct / 100)) in
  (Pool "tourist" t_budget, Pool "industry" i_budget).

(** ** Iterated dicts and loops that may raise *)

Section Dict.
Context {V : Type}.

(** [d[k]]; [None] is the [KeyError]. *)
Fixpoint dict_get (d : list (string * V)) (k : string) : option V :=
  match d with
  | [] => None
  | (k', v) :: d' => if String.eqb k' k then Some v else dict_get d' k
  end.

(** [d[k] = v]: an existing key keeps its place, a new one goes last. *)
Fixpoint dict_set (d : list (string * V)) (k : string) (v : V)
    : list (string * V) :=
  match d with
  | [] => [(k, v)]
  | (k', v') :: d' =>
      if String.eqb k' k then (k', v) :: d' else (k', v') :: dict_set d' k v
  end.

(** How many items a key has. *)
Definition count_key (k : string) (d : list (string * V)) : nat :=
  length (List.filter (fun e : string * V => String.eqb e.1 k) d).
End Dict.

(** [for x in l: st = body(st, x)], stopping at the first exception. *)
Fixpoint for_each {S X : Type} (body : S -> X -> option S) (st : S) (l : list X)
    : option S :=
  match l with
  | [] => Some st
  | x :: l' => st' ← body st x; for_each body st' l'
  end.

(** What a call of a function with a [while] loop comes to. *)
Inductive outcome (A : Type) :=
| Finished (a : A)
| Raised
| OutOfFuel.
Arguments Finished {A} a.
Arguments Raised {A}.
Arguments OutOfFuel {A}.

(** ** upgrader.py *)

(** An [(opt_name, lbl, eff_base, line)] tuple of the scan. *)
Definition Candidate : Type := string * string * Q * Q.

Definition line (c : Candidate) : Q := c.2.
Definition pick_of (c : Candidate) : Pick := c.1.

Definition is_summit_booth (pname : string) : bool :=
  PyStr.contains "summit" (PyStr.lower pname)
  && PyStr.contains "booth" (PyStr.lower pname).

(** Whether the scan leaves the option out ([continue]). *)
Definition skipped (pname opt_name : string) (is_advertiser : bool) : bool :=
  if is_summit_booth pname
  then
    let low := PyStr.lower opt_name in
    let has_non := PyStr.contains "non-advertiser" low
                   || PyStr.contains "non advertiser" low in
    let has_adv := PyStr.contains "advertiser" low && negb has_non in
    if is_advertiser then has_non else has_adv
  else false.

Section Allocator.
Variable products : list (string * ProductRecord).
Variable meta : gmap string MetaRecord.
Variable chosen_date : option date.
Variable is_advertiser : bool.

(** The inner loops over one option: every price point with its effective
    unit price and line price, in the order met. *)
Definition option_lines (pname : string) (product : ProductRecord)
    (opt : PriceOption) : option (list Candidate) :=
  let opt_name := default pname (opt_name opt) in
  if skipped pname opt_name is_advertiser then Some []
  else
    pts ← price_points opt;
    mapM (fun p : string * Q =>
            eff_base ← get_effective_unit_price pname opt_name p.2
                         (default empty_meta (meta !! pname))
                         chosen_date is_advertiser;
            Some (opt_name, p.1, eff_base,
                  effective_line_price (Some product) p.1 eff_base))
         pts.

(** The scan [for opt in product.price_options: ...], which both phases
    run. *)
Definition product_lines (pname : string) (product : ProductRecord)
    : option (list Candidate) :=
  per_option ← mapM (option_lines pname product) (price_options product);
  Some (concat per_option).

(** [if best is None or line < best_line: best = ...] *)
Definition better (best : option Candidate) (c : Candidate) : option Candidate :=
  match best with
  | None => Some c
  | Some b => if Qltb (line c) (line b) then Some c else best
  end.

(** Phase A for one product. *)
Definition baseline_step (st : list (string * Pick) * Q)
    (entry : string * ProductRecord) : option (list (string * Pick) * Q) :=
  let '(picks, subtotal) := st in
  let '(pname, product) := entry in
  cands ← product_lines pname product;
  match fold_left better cands None with
  | Some (opt_name, lbl, eff_base, _) =>
      Some (dict_set picks pname (opt_name, lbl, eff_base),
            subtotal + effective_line_price (Some product) lbl eff_base)
  | None => Some st
  end.

(** Phase A: the baseline picks and their subtotal. *)
Definition baseline_picks : option (list (string * Pick) * Q) :=
  for_each baseline_step ([], 0) products.

(** The scan of the product that [products[pname]] is. *)
Definition lines_of (pname : string) : option (list Candidate) :=
  product ← dict_get products pname; product_lines pname product.

(** The line price of a pick of [pname]. *)
Definition cur_line_of (pname : string) (pick : Pick) : Q :=
  effective_line_price (dict_get products pname) pick.1.2 pick.2.

(** How many candidates of its product are dearer than a pick: the upgrades
    it still has. *)
Definition headroom (e : string * Pick) : nat :=
  match lines_of e.1 with
  | Some cands =>
      length (List.filter (fun c => Qltb (cur_line_of e.1 e.2) (line c)) cands)
  | None => 0
  end.

Definition headroom_sum (picks : list (string * Pick)) : nat :=
  list_sum (map headroom picks).

(** Passes that are enough for the upgrade loop to come to its end. *)
Definition sufficient_fuel (picks : list (string * Pick)) : nat :=
  S (headroom_sum picks).

(** The sum of the line prices of the picks. *)
Definition line_sum (picks : list (string * Pick)) : Q :=
  fold_right (fun e acc => cur_line_of e.1 e.2 + acc) 0 picks.

(** No dearer candidate of the product of a pick fits into [budget] when the
    subtotal is [s]. *)
Definition stuck (budget s : Q) (e : string * Pick) : Prop :=
  forall cands u,
    lines_of e.1 = Some cands -> List.In u cands ->
    cur_line_of e.1 e.2 < line u ->
    budget < s - cur_line_of e.1 e.2 + line u.

(** A pick [e'] that came from the pick [e] by upgrades: the same product, a
    line price that is not lower and, unless it is the same pick, a candidate
    of the product. *)
Definition upgraded (e e' : string * Pick) : Prop :=
  e'.1 = e.1
  /\ cur_line_of e.1 e.2 <= cur_line_of e.1 e'.2
  /\ (e'.2 = e.2
      \/ exists cands u,
          lines_of e.1 = Some cands /\ List.In u cands /\ e'.2 = pick_of u).

(** The number of candidates that the scans of all the products give. *)
Definition candidate_count : nat :=
  list_sum (map (fun e : string * ProductRecord =>
                   length (default [] (product_lines e.1 e.2))) products).

(** The product has a price point that the scan keeps. *)
Definition has_lines (entry : string * ProductRecord) : bool :=
  match product_lines entry.1 entry.2 with
  | Some (_ :: _) => true
  | _ => false
  end.

Section Upgrade.
Variable budget : Q.

(** The body of [for pname, (cur_opt, cur_lbl, cur_base) in
    list(picks.items())]. *)
Definition upgrade_step (st : list (string * Pick) * Q * bool)
    (entry : string * Pick) : option (list (string * Pick) * Q * bool) :=
  let '(picks, subtotal, improved) := st in
  let '(pname, (cur_opt, cur_lbl, cur_base)) := entry in
  product ← dict_get products pname;
  let cur_line := effective_line_price (Some product) cur_lbl cur_base in
  cands ← product_lines pname product;
  let upgrades :=
    sorted line Qltb (List.filter (fun c => Qltb cur_line (line c)) cands) in
  match find (fun u => Qle_bool (subtotal - cur_line + line u) budget) upgrades with
  | Some (opt_name, lbl, eff_base, new_line) =>
      Some (dict_set picks pname (opt_name, lbl, eff_base),
            subtotal - cur_line + new_line, true)
  | None => Some st
  end.

(** One pass of the [while improved] loop over a snapshot of the picks. *)
Definition upgrade_pass (picks : list (string * Pick)) (subtotal : Q)
    : option (list (string * Pick) * Q * bool) :=
  for_each upgrade_step (picks, subtotal, false) picks.

(** Phase B. *)
Fixpoint upgrade_loop (fuel : nat) (picks : list (string * Pick)) (subtotal : Q)
    : outcome (list (string * Pick) * Q) :=
  match fuel with
  | O => OutOfFuel
  | S fuel' =>
      match upgrade_pass picks subtotal with
      | None => Raised
      | Some (picks', subtotal', improved) =>
          if improved then upgrade_loop fuel' picks' subtotal'
          else Finished (picks', subtotal')
      end
  end.

Definition greedy_fill_to_cap (fuel : nat) : outcome Selection :=
  match baseline_picks with
  | None => Raised
  | Some (picks0, subtotal0) =>
      match upgrade_loop fuel picks0 subtotal0 with
      | Finished (picks, subtotal) => Finished (Sel picks (py_round2 subtotal))
      | Raised => Raised
      | OutOfFuel => OutOfFuel
      end
  end.
End Upgrade.
End Allocator.

Definition run_fill_to_cap (fuel : nat) (total_budget tourist_pct industry_pct : Q)
    (t_set i_set : list (string * ProductRecord)) (meta : gmap string MetaRecord)
    (chosen_date : option date) (is_advertiser : bool)
    : outcome (Selection * Selection * Q) :=
  let t_budget := total_budget * (tourist_pct / 100) in
  let i_budget := total_budget * (industry_pct / 100) in
  match greedy_fill_to_cap t_set meta chosen_date is_advertiser t_budget fuel with
  | Finished t_sel =>
      match greedy_fill_to_cap i_set meta chosen_date is_advertiser i_budget fuel with
      | Finished i_sel =>
          let grand_total := py_round2 (subtotal t_sel + subtotal i_sel) in
          Finished (t_sel, i_sel, grand_total)
      | Raised => Raised
      | OutOfFuel => OutOfFuel
      end
  | Raised => Raised
  | OutOfFuel => OutOfFuel
  end.

(** ** pricing.py: the helpers without season and override *)

(** The loops of [baseline_pick]: every price point of every option with its
    line price, in the order met; the option name defaults to
    [product.name]. *)
Definition plain_lines (product : ProductRecord) : option (list Candidate) :=
  per_option ←
    mapM (fun opt =>
            let opt_name := default (name product) (opt_name opt) in
            pts ← price_points opt;
            Some (map (fun p : string * Q =>
                         (opt_name, p.1, p.2,
                          effective_line_price (Some product) p.1 p.2))
                      pts))
         (price_options product);
  Some (concat per_option).

(** [Some None] is "returned None". *)
Definition baseline_pick (product : ProductRecord) : option (option Pick) :=
  cands ← plain_lines product;
  Some (pick_of <$> fold_left better cands None).

(** [for x in rest: if x > best: best = x], over [float(v)] of the values. *)
Fixpoint max_from (best : Q) (kvs : list (string * pyval)) : option Q :=
  match kvs with
  | [] => Some best
  | kv :: rest =>
      x ← py_float kv.2;
      max_from (if Qltb best x then x else best) rest
  end.

(** [max(float(v) for v in d.values())]; the empty dict is a
    [ValueError]. *)
Definition max_of_values (kvs : list (string * pyval)) : option Q :=
  match kvs with
  | [] => None
  | kv :: rest => x ← py_float kv.2; max_from x rest
  end.

(** [Some None] is "returned None". *)
Definition first_known_price (opt : PriceOption) : option (option Q) :=
  match price_usd opt with
  | PyDict kvs => m ← max_of_values kvs; Some (Some m)
  | _ =>
      match price_usd_by_plan opt with
      | PyDict kvs => m ← max_of_values kvs; Some (Some m)
      | _ =>
          match price_usd opt with
          | PyNum q => Some (Some q)
          | _ =>
              match pricing opt with
              | PyDict kvs => m ← max_of_values kvs; Some (Some m)
              | _ => Some None
              end
          end
      end
  end.

(** ** catalog.py *)

Definition normalize_category (raw : option string) : option string :=
  match raw with
  | None => None
  | Some EmptyString => None
  | Some raw =>
      let r := PyStr.lower (PyStr.strip raw) in
      if PyStr.contains "tourist" r then Some "tourist"
      else if PyStr.contains "industry" r then Some "industry"
      else Some r
  end.

(** The body of the loop of [partition_by_category]; [categories] is the
    ["category"] entry of the meta dict of each product, absent when the
    product has no meta or no category. *)
Definition partition_step (categories : gmap string string)
    (st : list (string * ProductRecord) * list (string * ProductRecord))
    (entry : string * ProductRecord)
    : list (string * ProductRecord) * list (string * ProductRecord) :=
  let cat := normalize_category (categories !! entry.1) in
  if bool_decide (cat = Some "tourist")
  then (dict_set st.1 entry.1 entry.2, st.2)
  else if bool_decide (cat = Some "industry")
  then (st.1, dict_set st.2 entry.1 entry.2)
  else st.

Definition partition_by_category (catalog : list (string * ProductRecord))
    (categories : gmap string string)
    : list (string * ProductRecord) * list (string * ProductRecord) :=
  fold_left (partition_step categories) catalog ([], []).

(** ** summit_rules.py *)

(** [all(k.lower() in t for k in keywords if k)] *)
Definition _contains_all (text : string) (keywords : list string) : bool :=
  let t := PyStr.lower text in
  forallb (fun k => PyStr.contains (PyStr.lower k) t)
    (List.filter (fun k => negb (String.eqb k "")) keywords).

(** [any(k.lower() in t for k in keywords if k)] *)
Definition _contains_any (text : string) (keywords : list string) : bool :=
  let t := PyStr.lower text in
  existsb (fun k => PyStr.contains (PyStr.lower k) t)
    (List.filter (fun k => negb (String.eqb k "")) keywords).

Definition is_label (label key : string) : bool :=
  PyStr.contains (PyStr.lower key) (PyStr.lower label).

(** [out = deepcopy(rec); out.price_options = opts] *)
Definition with_options (rec : ProductRecord) (opts : list PriceOption)
    : ProductRecord :=
  Product (name rec) opts (category rec) (duration_quarter_map rec).

(** [o.get("name", "")] *)
Definition name_or_empty (o : PriceOption) : string := default "" (opt_name o).

(** The flag is tested with [is True] and [is False]: [None] is neither. *)
Definition filter_summit_booth (rec : ProductRecord) (profile_text : string)
    (is_advertiser : option bool) : ProductRecord :=
  let name_l := PyStr.lower (name rec) in
  if negb (PyStr.contains "summit" name_l) || negb (PyStr.contains "booth" name_l)
  then rec
  else
    let opts := price_options rec in
    if _contains_all profile_text ["cvb"; "illinois"]
    then with_options rec
           (List.filter (fun o => is_label (name_or_empty o) "Illinois CVB") opts)
    else if _contains_any profile_text
              ["dmo"; "out-of-state"; "out of state"; "outside illinois"]
    then with_options rec
           (List.filter (fun o => is_label (name_or_empty o) "DMO (out of Illinois)") opts)
    else
      let key :=
        match is_advertiser with
        | Some true => "Basic Booth — advertiser rate"
        | Some false => "Basic Booth — non-advertiser rate"
        | None => "Basic Booth — advertiser rate"
        end in
      let exact :=
        List.filter (fun o => match opt_name o with
                              | Some n => String.eqb n key
                              | None => false
                              end) opts in
      match exact with
      | [] =>
          with_options rec
            (List.filter (fun o => PyStr.contains "basic booth"
                                     (PyStr.lower (name_or_empty o))) opts)
      | _ => with_options rec exact
      end.

Definition apply_summit_rules (catalog : list (string * ProductRecord))
    (profile_text : string) (is_advertiser : bool)
    : list (string * ProductRecord) :=
  fold_left
    (fun new (entry : string * ProductRecord) =>
       if is_summit_booth entry.1
       then dict_set new entry.1
              (filter_summit_booth entry.2 profile_text (Some is_advertiser))
       else dict_set new entry.1 entry.2)
    catalog [].

(** ** io_loader.py *)

(** [out[str(k).upper()] = v] over the items; [None] and the empty dict
    give the empty dict. *)
Definition _norm_duration_keys (dqm : option (list (string * pyval)))
    : gmap string pyval :=
  fold_left (fun out (kv : string * pyval) => <[PyStr.upper kv.1 := kv.2]> out)
    (default [] dqm) ∅.

(** ** Names the discount rules test *)

(** The product names that [apply_discounts] compares [name] with. *)
Definition rule_products : list string :=
  [ "Hotel Meetup"; "Email Blast"; "Chicago Does Reels"; "Ambassador Program";
    "Chicago Does Interactive Map" ].

(** ** The claim about the sort key, in the spec's words *)

(** Following the spec's words, "the leading numeric token in the label": the
    digits and dots the label starts with. *)
Fixpoint leading_token (lbl : string) : string :=
  match lbl with
  | EmptyString => EmptyString
  | String c s =>
      if PyStr.is_digit c || Ascii.eqb c "." then String c (leading_token s)
      else EmptyString
  end.

(** Following the spec's words: the key that sorts by the leading numeric
    token, labels without one last, ties by price. *)
Definition leading_token_key (lbl : string) (price : Q) : option Q * Q :=
  (float_of_num (leading_token lbl), price).

(** ** Shapes of a value *)

(** [isinstance(v, dict)] and [isinstance(v, (int, float))] *)
Definition is_dict (v : pyval) : bool :=
  match v with PyDict _ => true | _ => false end.

Definition is_number (v : pyval) : bool :=
  match v with PyNum _ => true | _ => false end.

(** ** Fixtures *)

(** A seasonal table with one window, which lists one option. *)
Definition one_window_meta : MetaRecord :=
  Meta {[ "4/15-6/14" := {[ "Basic Booth" := PyNum 1000 ]} ]}.

(** An option with two tiers, the first of which names a duration. *)
Definition two_tier_option : PriceOption :=
  Option_ (Some "Print Ad")
    (PyDict [("2X (6 months)", PyNum 100); ("3X", PyNum 50)]) PyNone PyNone.

(** A small catalog: a tiered product with durations, a product with a flat
    price and a plan map, and a product without options. *)
Definition demo_tiered : ProductRecord :=
  Product "A"
    [Option_ (Some "A std")
       (PyDict [("1X", PyNum 100); ("4X", PyNum 80); ("12X", PyNum 60)])
       PyNone PyNone]
    None (Some (<["4X" := PyNum 4]> (<["12X" := PyNum 12]> ∅))).

Definition demo_plans : ProductRecord :=
  Product "B"
    [Option_ (Some "B one") (PyNum 250) PyNone PyNone;
     Option_ (Some "B two") PyNone
       (PyDict [("gold", PyNum 900); ("silver", PyNum 400)]) PyNone]
    None None.

Definition demo_bare : ProductRecord := Product "C" [] None None.

Definition demo_products : list (string * ProductRecord) :=
  [("A", demo_tiered); ("B", demo_plans); ("C", demo_bare)].

Definition demo_baseline : list (string * Pick) :=
  [("A", ("A std", "1X", 100)); ("B", ("B one", "base", 250))].

(** A product with two tiers that differ by less than a cent. *)
Definition cents_product : ProductRecord :=
  Product "P"
    [Option_ None (PyDict [("a", PyNum 100); ("b", PyNum 100.006)]) PyNone PyNone]
    None None.

(** A record with three rates, filtered for a convention bureau. *)
Definition demo_booth : ProductRecord :=
  Product "Summit — Booth"
    [Option_ (Some "Basic Booth — advertiser rate") (PyNum 1500) PyNone PyNone;
     Option_ (Some "Illinois CVB rate") (PyNum 1200) PyNone PyNone;
     Option_ (Some "DMO (out of Illinois)") (PyNum 2500) PyNone PyNone]
    None None.

(** The demo catalog after the upgrades that 1000 allows. *)
Definition demo_final : list (string * Pick) :=
  [("A", ("A std", "4X", 80)); ("B", ("B two", "silver", 400))].

(** An industry pool of one product. *)
Definition demo_industry : list (string * ProductRecord) := [("B", demo_plans)].

(** A Summit Booth whose catalog entry lists the advertiser rate only. *)
Definition booth_advertiser_only : ProductRecord :=
  Product "Summit Booth"
    [Option_ (Some "Basic Booth — advertiser rate") (PyNum 1500) PyNone PyNone]
    None None.

Definition booth_catalog : list (string * ProductRecord) :=
  [("Summit Booth", booth_advertiser_only)].

(** ** Proof tactics *)

(** Evaluates the comparisons of two literal names. *)
Ltac eval_name_tests :=
  repeat match goal with
         | |- context [String.eqb ?a ?b] =>
             let r := eval vm_compute in (String.eqb a b) in
             change (String.eqb a b) with r
         end;
  cbn [andb orb negb].

(** * Properties *)

(** ** Text facts used by the discount rules *)

Module PyStrFacts.
Import PyStr.

Lemma prefix_contains sub s : String.prefix sub s = true -> contains sub s = true.
Proof. intros H. destruct s; cbn [contains]; rewrite H; reflexivity. Qed.

Lemma prefix_rstrip sub :
  ends_solid sub = true ->
  forall s, String.prefix sub s = true -> String.prefix sub (rstrip s) = true.
Proof.
  induction sub as [|a sub IH]; intros Hend s Hpre; [discriminate|].
  destruct s as [|b s]; [discriminate|].
  simpl in Hpre. destruct (ascii_dec a b) as [->|]; [|discriminate].
  destruct sub as [|a' sub].
  - simpl in Hend. simpl.
    destruct (rstrip s); simpl.
    + rewrite (negb_true_iff _) in Hend. rewrite Hend. simpl.
      destruct (ascii_dec b b); congruence.
    + destruct (ascii_dec b b); congruence.
  - assert (Hr : String.prefix (String a' sub) (rstrip s) = true)
      by (apply IH; assumption).
    simpl rstrip. destruct (rstrip s) as [|c r]; [discriminate|].
    change (String.prefix (String b (String a' sub)) (String b (String c r)))
      with (if ascii_dec b b then String.prefix (String a' sub) (String c r) else false).
    destruct (ascii_dec b b); congruence.
Qed.

Lemma contains_rstrip sub s :
  ends_solid sub = true -> contains sub s = true -> contains sub (rstrip s) = true.
Proof.
  intros Hend. induction s as [|c s IH]; intros H; [exact H|].
  simpl in H. apply orb_true_iff in H as [H|H].
  - apply prefix_contains, prefix_rstrip; assumption.
  - specialize (IH H). simpl rstrip.
    destruct (rstrip s) as [|c' r] eqn:E.
    + destruct sub; [discriminate Hend | discriminate IH].
    + change (contains sub (String c (String c' r)))
        with (String.prefix sub (String c (String c' r)) || contains sub (String c' r)).
      rewrite IH. apply orb_true_r.
Qed.

Lemma contains_lstrip sub s :
  starts_solid sub = true -> contains sub s = true -> contains sub (lstrip s) = true.
Proof.
  intros Hst. induction s as [|c s IH]; intros H; [exact H|].
  simpl lstrip. destruct (is_space c) eqn:Hc; [|exact H].
  apply IH. simpl in H. apply orb_true_iff in H as [H|H]; [|exact H].
  destruct sub as [|a sub]; [discriminate|].
  simpl in H, Hst. destruct (ascii_dec a c) as [->|]; [|discriminate].
  rewrite Hc in Hst. discriminate.
Qed.

(** A needle with solid ends survives [strip]. *)
Lemma contains_strip sub s :
  starts_solid sub = true -> ends_solid sub = true ->
  contains sub s = true -> contains sub (strip s) = true.
Proof.
  intros Hs He H. unfold strip. apply contains_lstrip; [assumption|].
  apply contains_rstrip; assumption.
Qed.
End PyStrFacts.

(** ** Rational comparisons as propositions *)

Lemma Qltb_lt a b : Qltb a b = true <-> a < b.
Proof.
  unfold Qltb. rewrite negb_true_iff. split.
  - intros H. apply Qnot_le_lt. intros Hle. apply Qle_bool_iff in Hle. congruence.
  - intros H. destruct (Qle_bool b a) eqn:E; [|reflexivity].
    apply Qle_bool_iff in E. lra.
Qed.

Lemma Qltb_ge a b : Qltb a b = false <-> b <= a.
Proof.
  unfold Qltb. rewrite negb_false_iff. apply Qle_bool_iff.
Qed.

Lemma py_max_spec a b : py_max a b == Qmax a b.
Proof.
  unfold py_max. destruct (Qltb a b) eqn:E.
  - apply Qltb_lt in E. symmetry. apply Q.max_r. lra.
  - apply Qltb_ge in E. symmetry. apply Q.max_l. lra.
Qed.

(** ** The line price *)

Lemma duration_multiplier_no_map p tier :
  no_durations p = true -> duration_multiplier p tier = 1.
Proof.
  unfold no_durations, duration_multiplier. intros H.
  destruct (duration_quarter_map p) as [m|]; simpl.
  - apply bool_decide_eq_true in H. subst m. rewrite lookup_empty. reflexivity.
  - rewrite lookup_empty. reflexivity.
Qed.

(** C8. For a product, a tier label and a base price, the line price is
    [base * max(duration_multiplier(tier), 1)]. The multiplier is what
    [float()] makes of the entry of the duration map under the upper-cased
    label, and it is 1 when the map is absent or empty, when the label has no
    entry and when the entry does not convert. Hence, for a base price that is
    not negative, the line price is at least the base price. *)
Theorem effective_line_price_formula (p : ProductRecord) (tier : string) (base : Q) :
  let durations := default ∅ (duration_quarter_map p) in
  effective_line_price (Some p) tier base
    == base * Qmax (duration_multiplier p tier) 1
  /\ (forall v, durations !! PyStr.upper tier = Some v ->
        duration_multiplier p tier = default 1 (py_float v))
  /\ (durations !! PyStr.upper tier = None -> duration_multiplier p tier = 1)
  /\ (forall v, durations !! PyStr.upper tier = Some v -> py_float v = None ->
        duration_multiplier p tier = 1)
  /\ (duration_quarter_map p = None \/ duration_quarter_map p = Some ∅ ->
        duration_multiplier p tier = 1)
  /\ (0 <= base -> base <= effective_line_price (Some p) tier base).
Proof.
  intros durations.
  assert (Hmain : effective_line_price (Some p) tier base
                  == base * Qmax (duration_multiplier p tier) 1).
  { unfold effective_line_price. destruct (no_durations p) eqn:E.
    - rewrite (duration_multiplier_no_map _ _ E).
      rewrite Q.max_id. ring.
    - rewrite py_max_spec. reflexivity. }
  split; [exact Hmain|].
  split; [intros v Hv; unfold duration_multiplier; fold durations; rewrite Hv; reflexivity|].
  split; [intros Hv; unfold duration_multiplier; fold durations; rewrite Hv; reflexivity|].
  split; [intros v Hv Hf; unfold duration_multiplier; fold durations; rewrite Hv; simpl;
          rewrite Hf; reflexivity|].
  split.
  - intros [H|H]; apply duration_multiplier_no_map; unfold no_durations; rewrite H;
      [reflexivity | apply bool_decide_eq_true; reflexivity].
  - intros Hb. rewrite Hmain.
    assert (1 <= Qmax (duration_multiplier p tier) 1) by apply Q.le_max_r.
    nra.
Qed.

(** The demo product with durations: the tier "4x" is looked up as "4X" and
    lasts four quarters; an unknown tier counts once. *)
Lemma effective_line_price_formula_witness :
  effective_line_price (Some demo_tiered) "4x" 80 == 320
  /\ duration_multiplier demo_tiered "Retail" = 1
  /\ 80 <= effective_line_price (Some demo_tiered) "Retail" 80.
Proof.
  destruct (effective_line_price_formula demo_tiered "4x" 80) as (H1 & _).
  destruct (effective_line_price_formula demo_tiered "Retail" 80)
    as (_ & _ & H3 & _ & _ & H6).
  split; [rewrite H1; reflexivity|].
  split; [apply H3; reflexivity | apply H6; lra].
Defined.

(** ** The seasonal resolver *)

(** The window loop finds nothing exactly when no listed window contains the
    day. *)
Lemma first_window_None windows seasonal_map mmdd :
  first_window windows seasonal_map mmdd = None <->
  Forall (fun w : string * (Z * Z) =>
            is_Some (seasonal_map !! w.1) ->
            ((w.2.1 <=? mmdd) && (mmdd <=? w.2.2))%Z = false) windows.
Proof.
  induction windows as [|[lbl [lo hi]] rest IH]; simpl.
  - split; [constructor | reflexivity].
  - rewrite Forall_cons. simpl. rewrite <- IH.
    destruct (seasonal_map !! lbl) as [prices|] eqn:E.
    + destruct ((lo <=? mmdd)%Z && (mmdd <=? hi)%Z) eqn:Hin.
      * split; [discriminate|]. intros [H _].
        assert (true = false) by (apply H; eexists; reflexivity). discriminate.
      * split; [intros H; split; [reflexivity | exact H] | intros [_ H]; exact H].
    + split; [intros H; split; [intros [? ?]; discriminate | exact H]
             | intros [_ H]; exact H].
Qed.

(** When no listed window, of either family, contains the date, the resolver
    returns None and does not raise. *)
Lemma booth_season_no_window meta option_name d :
  first_window EXACT_WINDOWS (seasonal_price_windows meta) (_mmdd d) = None ->
  first_window NAMED_WINDOWS (seasonal_price_windows meta) (_mmdd d) = None ->
  booth_season_for_date meta option_name d = Some None.
Proof.
  intros He Hn. unfold booth_season_for_date.
  destruct (bool_decide _); [reflexivity|]. rewrite He, Hn. reflexivity.
Qed.

(** When a window matches, the resolver returns the listed price of the
    option, and raises when the window lists none that converts. *)
Lemma booth_season_window meta option_name d prices :
  first_window EXACT_WINDOWS (seasonal_price_windows meta) (_mmdd d) = Some prices
  \/ (first_window EXACT_WINDOWS (seasonal_price_windows meta) (_mmdd d) = None
      /\ first_window NAMED_WINDOWS (seasonal_price_windows meta) (_mmdd d) = Some prices) ->
  booth_season_for_date meta option_name d = Some <$> window_price prices option_name.
Proof.
  intros H. unfold booth_season_for_date.
  destruct (bool_decide (seasonal_price_windows meta = ∅)) eqn:E.
  - apply bool_decide_eq_true in E. rewrite E in H.
    assert (Hnone : forall ws m, first_window ws (∅ : gmap string (gmap string pyval)) m = None).
    { induction ws as [|[l [a b]] ws IH]; intros m; simpl; [reflexivity|].
      rewrite lookup_empty. apply IH. }
    rewrite !Hnone in H. destruct H as [H|[_ H]]; discriminate.
  - destruct H as [H|[H1 H2]].
    + rewrite H. destruct (window_price prices option_name); reflexivity.
    + rewrite H1, H2. destruct (window_price prices option_name); reflexivity.
Qed.

(** C2. The claim is that the seasonal resolver returns None, and never
    raises, also when a window matches and the option has no listed price in
    it. On May 1 the window "4/15-6/14" matches; it lists no price for
    "Premium Booth", the lookup gives None, and [float(None)] raises: the
    resolver, and the price pipeline that calls it, raise where the claim
    says they fall back to the base price. *)
Theorem booth_season_raises_on_unlisted_option :
  first_window EXACT_WINDOWS (seasonal_price_windows one_window_meta)
    (_mmdd (Date 2025 5 1)) = Some {[ "Basic Booth" := PyNum 1000 ]}
  /\ ({[ "Basic Booth" := PyNum 1000 ]} : gmap string pyval) !! "Premium Booth" = None
  /\ booth_season_for_date one_window_meta "Premium Booth" (Date 2025 5 1) = None
  /\ booth_season_for_date one_window_meta "Basic Booth" (Date 2025 5 1)
     = Some (Some 1000)
  /\ get_effective_unit_price "Summit Booth" "Premium Booth" 1500
       one_window_meta (Some (Date 2025 5 1)) false = None.
Proof. repeat split; vm_compute; reflexivity. Qed.

(** ** The discount resolver *)

Lemma strip_literal_hotel : PyStr.strip "Hotel Meetup" = "Hotel Meetup".
Proof. reflexivity. Qed.

Lemma strip_literal_blast : PyStr.strip "Email Blast" = "Email Blast".
Proof. reflexivity. Qed.

(** With a billing date, "Hotel Meetup" and an option naming "Hotel Meetup
    2026", [apply_discounts] is its early-bird branch. *)
Lemma apply_discounts_hotel option_name base tier hop ppy adv d :
  PyStr.contains "Hotel Meetup 2026" option_name = true ->
  apply_discounts "Hotel Meetup" option_name base tier hop ppy adv (Some d)
  = hotel_meetup_branch base tier d.
Proof.
  intros H. unfold apply_discounts. rewrite strip_literal_hotel.
  rewrite (PyStrFacts.contains_strip "Hotel Meetup 2026" _ eq_refl eq_refl H).
  reflexivity.
Qed.

(** The override fires for two product names only. *)
Lemma override_fires_name pn on base tier adv p l :
  advertiser_overrides pn on base tier adv = (Some p, l) ->
  PyStr.strip pn = "Email Blast" \/ PyStr.strip pn = "Ambassador Program".
Proof.
  unfold advertiser_overrides. destruct adv; cbn [negb]; [|discriminate].
  destruct (String.eqb (PyStr.strip pn) "Email Blast") eqn:E1.
  - intros _. left. apply String.eqb_eq. exact E1.
  - cbn [andb].
    destruct (String.eqb (PyStr.strip pn) "Ambassador Program") eqn:E2.
    + intros _. right. apply String.eqb_eq. exact E2.
    + discriminate.
Qed.

(** C5. For product "Hotel Meetup", an option name containing "Hotel Meetup
    2026" and the tier "Early Bird Rate - Ends August 1": a billing date
    before August 1 of its year gives 2395.0 with the early-bird label; a
    billing date on or after August 1 gives the retail price 2595.0 and no
    label, although the early-bird tier was asked for. *)
Theorem hotel_meetup_early_bird (option_name : string) (base : Q)
    (hop ppy adv : bool) (d : date) :
  PyStr.contains "Hotel Meetup 2026" option_name = true ->
  let deadline := Date (year d) 8 1 in
  (date_ltb d deadline = true ->
     apply_discounts "Hotel Meetup" option_name base
       "Early Bird Rate - Ends August 1" hop ppy adv (Some d)
     = (2395.0, Some "Early Bird Rate - Ends August 1"))
  /\ (date_ltb d deadline = false ->
     apply_discounts "Hotel Meetup" option_name base
       "Early Bird Rate - Ends August 1" hop ppy adv (Some d)
     = (2595.0, None)).
Proof.
  intros H deadline.
  rewrite (apply_discounts_hotel _ _ _ _ _ _ _ H).
  unfold hotel_meetup_branch.
  replace (PyStr.contains EARLY_BIRD_TEXT "Early Bird Rate - Ends August 1")
    with true by reflexivity.
  fold deadline.
  split; intros Hd; rewrite Hd; reflexivity.
Qed.

(** Scenario B: billing on July 1 and on September 1, 2026. *)
Lemma hotel_meetup_early_bird_witness :
  apply_discounts "Hotel Meetup" "Hotel Meetup 2026" 2595.0
    "Early Bird Rate - Ends August 1" false false false (Some (Date 2026 7 1))
  = (2395.0, Some "Early Bird Rate - Ends August 1")
  /\ apply_discounts "Hotel Meetup" "Hotel Meetup 2026" 2395.0
       "Early Bird Rate - Ends August 1" false false false (Some (Date 2026 9 1))
     = (2595.0, None).
Proof.
  split.
  - apply (proj1 (hotel_meetup_early_bird "Hotel Meetup 2026" 2595.0
                    false false false (Date 2026 7 1) eq_refl)).
    reflexivity.
  - apply (proj2 (hotel_meetup_early_bird "Hotel Meetup 2026" 2395.0
                    false false false (Date 2026 9 1) eq_refl)).
    reflexivity.
Defined.

(** C6. The advertiser override returns "no override" for every input when
    the advertiser flag is off. With the flag on, product "Email Blast" and an
    option containing "Blast Email - concierge", it returns 450.0 labelled
    "Existing advertiser contract rate", and so does [apply_discounts],
    whatever the bundle and prepay flags and the billing date: the override
    comes before the per-product rules and, whenever it fires, its price and
    label are the result. *)
Theorem advertiser_override_gate :
  (forall pn on base tier,
      advertiser_overrides pn on base tier false = (None, None))
  /\ (forall on base tier,
        PyStr.contains "Blast Email - concierge" on = true ->
        advertiser_overrides "Email Blast" on base tier true
        = (Some 450.0, Some "Existing advertiser contract rate")
        /\ forall hop ppy bd,
            apply_discounts "Email Blast" on base tier hop ppy true bd
            = (450.0, Some "Existing advertiser contract rate"))
  /\ (forall pn on base tier hop ppy adv bd p l,
        advertiser_overrides (PyStr.strip pn) (PyStr.strip on) base tier adv
        = (Some p, l) ->
        apply_discounts pn on base tier hop ppy adv bd = (p, l)).
Proof.
  split; [reflexivity|].
  assert (Hfire : forall on base tier,
             PyStr.contains "Blast Email - concierge" on = true ->
             advertiser_overrides "Email Blast" on base tier true
             = (Some 450.0, Some "Existing advertiser contract rate")).
  { intros on base tier H. unfold advertiser_overrides. cbn [negb].
    rewrite strip_literal_blast.
    rewrite (PyStrFacts.contains_strip "Blast Email - concierge" _ eq_refl eq_refl H).
    reflexivity. }
  assert (Hshort : forall pn on base tier hop ppy adv bd p l,
             advertiser_overrides (PyStr.strip pn) (PyStr.strip on) base tier adv
             = (Some p, l) ->
             apply_discounts pn on base tier hop ppy adv bd = (p, l)).
  { intros pn on base tier hop ppy adv bd p l H.
    assert (Hname : String.eqb (PyStr.strip pn) "Hotel Meetup" = false).
    { apply String.eqb_neq. intros Heq.
      apply override_fires_name in H. rewrite Heq in H.
      destruct H as [H|H]; vm_compute in H; discriminate. }
    unfold apply_discounts. rewrite Hname. cbn [andb].
    unfold override_then_rules. rewrite H.
    destruct bd; reflexivity. }
  split; [|exact Hshort].
  intros on base tier H. split; [apply Hfire; exact H|].
  intros hop ppy bd. apply Hshort.
  rewrite strip_literal_blast. apply Hfire.
  apply PyStrFacts.contains_strip; [reflexivity | reflexivity | exact H].
Qed.

(** Scenario A, where the bundle rule alone would give 750.0 without a
    label. *)
Lemma advertiser_override_gate_witness :
  advertiser_overrides "Email Blast" "Blast Email - concierge" 750.0 "" true
  = (Some 450.0, Some "Existing advertiser contract rate")
  /\ apply_discounts "Email Blast" "Blast Email - concierge" 750.0 "" false false
       true None
     = (450.0, Some "Existing advertiser contract rate")
  /\ product_rules "Email Blast" "Blast Email - concierge" 750.0 750.0 false false
     = (750.0, None).
Proof.
  destruct (proj1 (proj2 advertiser_override_gate)
              "Blast Email - concierge" 750.0 "" eq_refl) as [H1 H2].
  split; [exact H1|]. split; [apply H2 | reflexivity].
Defined.

(** C10. Without a billing date [apply_discounts] never takes the Hotel
    Meetup branch: it is the advertiser override followed by the per-product
    rules, and for "Hotel Meetup", even with the early-bird tier, the base
    price passes through with no label. With a billing date, product "Hotel
    Meetup" and an option containing "Hotel Meetup 2026", the result is that
    of the early-bird branch for every tier, the same for every value of the
    advertiser, bundle and prepay flags; a tier other than the early-bird one
    keeps the base price. *)
Theorem billing_date_gates_early_bird :
  (forall pn on base tier hop ppy adv,
      apply_discounts pn on base tier hop ppy adv None
      = override_then_rules (PyStr.strip pn) (PyStr.strip on) base base tier
          hop ppy adv)
  /\ (forall on base hop ppy adv,
        apply_discounts "Hotel Meetup" on base "Early Bird Rate - Ends August 1"
          hop ppy adv None
        = (base, None))
  /\ (forall on base tier hop ppy adv d,
        PyStr.contains "Hotel Meetup 2026" on = true ->
        apply_discounts "Hotel Meetup" on base tier hop ppy adv (Some d)
        = hotel_meetup_branch base tier d
        /\ apply_discounts "Hotel Meetup" on base tier hop ppy adv (Some d)
           = apply_discounts "Hotel Meetup" on base tier false false false (Some d)
        /\ (PyStr.contains "Early Bird Rate - Ends August 1" tier = false ->
            apply_discounts "Hotel Meetup" on base tier hop ppy adv (Some d)
            = (base, None))).
Proof.
  split; [reflexivity|]. split.
  - intros on base hop ppy adv. unfold apply_discounts.
    rewrite strip_literal_hotel.
    unfold override_then_rules, advertiser_overrides, product_rules.
    rewrite strip_literal_hotel. eval_name_tests.
    destruct adv; reflexivity.
  - intros on base tier hop ppy adv d H.
    rewrite !(apply_discounts_hotel _ _ _ _ _ _ _ H).
    split; [reflexivity|]. split; [reflexivity|].
    intros Ht. unfold hotel_meetup_branch. unfold EARLY_BIRD_TEXT.
    rewrite Ht. reflexivity.
Qed.

(** The early-bird tier with and without a billing date, for an advertiser
    after the deadline. *)
Lemma billing_date_gates_early_bird_witness :
  apply_discounts "Hotel Meetup" "Hotel Meetup 2026" 2395.0
    "Early Bird Rate - Ends August 1" true true true None
  = (2395.0, None)
  /\ apply_discounts "Hotel Meetup" "Hotel Meetup 2026" 2395.0
       "Early Bird Rate - Ends August 1" true true true (Some (Date 2026 9 1))
     = hotel_meetup_branch 2395.0 "Early Bird Rate - Ends August 1" (Date 2026 9 1).
Proof.
  split.
  - apply (proj1 (proj2 billing_date_gates_early_bird)).
  - apply (proj1 (proj2 (proj2 billing_date_gates_early_bird)
                    "Hotel Meetup 2026" 2395.0 "Early Bird Rate - Ends August 1"
                    true true true (Date 2026 9 1) eq_refl)).
Defined.

(** ** The stable sort *)

Section SortedFacts.
Context {A K : Type} (key : A -> K) (ltb : K -> K -> bool).

Hypothesis ltb_asym : forall x y, ltb x y = true -> ltb y x = false.
Hypothesis ge_trans :
  forall x y z, ltb y x = false -> ltb z y = false -> ltb z x = false.

Lemma insert_stable_perm x l : Permutation (x :: l) (insert_stable key ltb x l).
Proof.
  induction l as [|y l IH]; simpl; [reflexivity|].
  destruct (ltb (key y) (key x)); [|reflexivity].
  rewrite perm_swap. apply perm_skip. exact IH.
Qed.

Lemma sorted_perm l : Permutation l (sorted key ltb l).
Proof.
  induction l as [|x l IH]; simpl; [reflexivity|].
  rewrite <- insert_stable_perm. apply perm_skip. exact IH.
Qed.

Lemma insert_stable_sorted x l :
  StronglySorted (ascending key ltb) l ->
  StronglySorted (ascending key ltb) (insert_stable key ltb x l).
Proof.
  induction 1 as [|y l Hs IH Hall]; simpl.
  - constructor; constructor.
  - destruct (ltb (key y) (key x)) eqn:E.
    + constructor; [exact IH|].
      apply (Permutation_Forall (insert_stable_perm x l)).
      constructor; [apply ltb_asym; exact E | exact Hall].
    + constructor; [constructor; assumption|].
      constructor; [exact E|].
      eapply Forall_impl; [exact Hall|].
      intros z Hz. unfold ascending in *. eapply ge_trans; eassumption.
Qed.

Lemma sorted_sorted l : StronglySorted (ascending key ltb) (sorted key ltb l).
Proof.
  induction l as [|x l IH]; simpl; [constructor|].
  apply insert_stable_sorted. exact IH.
Qed.

Lemma sorted_In x l : In x (sorted key ltb l) <-> In x l.
Proof.
  split; apply Permutation_in; [symmetry|]; apply sorted_perm.
Qed.
End SortedFacts.

(** ** The price point extractor *)

(** Turns the boolean comparisons of two sort keys into inequalities and
    closes the goal by linear arithmetic. *)
Ltac key_cases :=
  repeat match goal with
         | H : context [Qeq_bool ?x ?y] |- _ =>
             let E := fresh "E" in
             destruct (Qeq_bool x y) eqn:E;
             [apply Qeq_bool_iff in E | apply Qeq_bool_neq in E]
         | |- context [Qeq_bool ?x ?y] =>
             let E := fresh "E" in
             destruct (Qeq_bool x y) eqn:E;
             [apply Qeq_bool_iff in E | apply Qeq_bool_neq in E]
         end;
  repeat match goal with
         | H : Qltb _ _ = true |- _ => apply Qltb_lt in H
         | H : Qltb _ _ = false |- _ => apply Qltb_ge in H
         end;
  try discriminate;
  try (apply Qltb_ge; lra);
  try (exfalso; lra).

Lemma key_ltb_asym a b : key_ltb a b = true -> key_ltb b a = false.
Proof.
  destruct a as [[x|] p], b as [[y|] q]; unfold key_ltb; simpl; intros H;
    try discriminate; try reflexivity; key_cases.
Qed.

Lemma key_ge_trans a b c :
  key_ltb b a = false -> key_ltb c b = false -> key_ltb c a = false.
Proof.
  destruct a as [[x|] p], b as [[y|] q], c as [[z|] r]; unfold key_ltb; simpl;
    intros H1 H2; try discriminate; try reflexivity; key_cases.
Qed.

Lemma float_items_Some kvs :
  is_Some (float_items kvs) <-> Forall (fun kv : string * pyval => is_Some (py_float kv.2)) kvs.
Proof.
  unfold float_items. split.
  - intros [pts H]. apply mapM_Some_1 in H.
    induction H as [|kv pt kvs pts Hx _ IH]; constructor; [|exact IH].
    destruct (py_float kv.2); [eexists; reflexivity | discriminate].
  - induction 1 as [|kv kvs [x Hx] _ [pts IH]]; [eexists; reflexivity|].
    exists ((kv.1, x) :: pts). simpl. rewrite Hx. simpl. rewrite IH. reflexivity.
Qed.

(** C7, as stated, fails: the points do not always come out in the order of
    the leading numeric token of the label. The tiers "2X (6 months)" and
    "3X" have the leading tokens 2 and 3, yet "3X" comes first. *)
Lemma price_points_not_by_leading_token :
  exists opt pts,
    price_points opt = Some pts
    /\ ~ StronglySorted (ascending (fun t => leading_token_key t.1 t.2) key_ltb) pts.
Proof.
  exists two_tier_option, [("3X", 50); ("2X (6 months)", 100)].
  split; [reflexivity|].
  intros H.
  inversion H as [|a l _ Hall]; subst.
  inversion Hall as [|b l' Hab _]; subst.
  vm_compute in Hab. discriminate.
Qed.

(** C7, amended. [price_points] takes the first pricing shape the option has,
    in the order tier map ([price_usd] a dict), plan map, single number
    labelled "base", generic [pricing] map, and the empty list when it has
    none. It returns the items of that shape, all of them and no other, in
    ascending order of the key: the number written by all the digits and dots
    of the label taken together, +infinity when they do not write a number,
    then the price. It raises only when a price does not convert, whatever
    the labels are. *)
Theorem price_points_sorted (opt : PriceOption) :
  (forall kvs, price_usd opt = PyDict kvs -> price_items opt = float_items kvs)
  /\ (forall kvs, is_dict (price_usd opt) = false ->
        price_usd_by_plan opt = PyDict kvs -> price_items opt = float_items kvs)
  /\ (forall q, price_usd opt = PyNum q -> is_dict (price_usd_by_plan opt) = false ->
        price_points opt = Some [("base", q)])
  /\ (forall kvs, is_dict (price_usd opt) = false ->
        is_dict (price_usd_by_plan opt) = false ->
        is_number (price_usd opt) = false ->
        pricing opt = PyDict kvs -> price_items opt = float_items kvs)
  /\ (is_dict (price_usd opt) = false -> is_dict (price_usd_by_plan opt) = false ->
      is_number (price_usd opt) = false -> is_dict (pricing opt) = false ->
      price_points opt = Some [])
  /\ (forall items, price_items opt = Some items ->
        exists pts,
          price_points opt = Some pts
          /\ Permutation items pts
          /\ StronglySorted (ascending (fun t => _key t.1 t.2) key_ltb) pts)
  /\ (price_points opt = None <-> price_items opt = None)
  /\ (forall kvs,
        is_Some (float_items kvs)
        <-> Forall (fun kv : string * pyval => is_Some (py_float kv.2)) kvs)
  /\ (forall lbl price,
        _key lbl price = (float_of_num (digits_and_dots lbl), price)).
Proof.
  unfold price_points, price_items.
  repeat split.
  - intros kvs H. rewrite H. reflexivity.
  - intros kvs H1 H2. rewrite H2. destruct (price_usd opt); try reflexivity; discriminate.
  - intros q H1 H2. rewrite H1.
    destruct (price_usd_by_plan opt); try reflexivity; discriminate.
  - intros kvs H1 H2 H3 H4. rewrite H4.
    destruct (price_usd opt); try discriminate;
      destruct (price_usd_by_plan opt); try discriminate; reflexivity.
  - intros H1 H2 H3 H4.
    destruct (price_usd opt); try discriminate;
      destruct (price_usd_by_plan opt); try discriminate;
      destruct (pricing opt); try discriminate; reflexivity.
  - intros items H. rewrite H. simpl. eexists. split; [reflexivity|]. split.
    + apply sorted_perm.
    + apply sorted_sorted; [apply key_ltb_asym | apply key_ge_trans].
  - intros H. match goal with |- ?x = None => destruct x end; [discriminate | reflexivity].
  - intros H. rewrite H. reflexivity.
  - apply float_items_Some.
  - apply float_items_Some.
Qed.

(** Tier labels of the catalog and what they sort by. *)
Lemma price_points_sorted_witness :
  price_points two_tier_option = Some [("3X", 50); ("2X (6 months)", 100)]
  /\ _key "2X (6 months)" 100 = (Some (26 # 1), 100)
  /\ _key "Retail" 10 = (None, 10)
  /\ _key "1.5.2" 10 = (None, 10).
Proof.
  split; [|repeat split].
  destruct (proj1 (proj2 (proj2 (proj2 (proj2 (proj2 (price_points_sorted two_tier_option))))))
              [("2X (6 months)", 100); ("3X", 50)] eq_refl) as [pts [Hp _]].
  rewrite Hp. vm_compute in Hp. injection Hp as <-. reflexivity.
Defined.

(** ** Loops and dicts *)

Lemma mapM_In {X Y : Type} (f : X -> option Y) l k :
  mapM f l = Some k -> forall y, List.In y k -> exists x, List.In x l /\ f x = Some y.
Proof.
  intros H. apply mapM_Some_1 in H.
  induction H as [|x y l k Hxy _ IH]; intros y0 Hin; [destruct Hin|].
  destruct Hin as [<-|Hin].
  - exists x. split; [left; reflexivity | exact Hxy].
  - destruct (IH _ Hin) as [x0 [Hx0 Hf]]. exists x0. split; [right|]; assumption.
Qed.

Lemma mapM_is_Some {X Y : Type} (f : X -> option Y) l :
  is_Some (mapM f l) -> forall x, List.In x l -> is_Some (f x).
Proof.
  intros [k H]. apply mapM_Some_1 in H.
  induction H as [|x y l k Hxy _ IH]; intros x0 Hin; [destruct Hin|].
  destruct Hin as [<-|Hin]; [eexists; exact Hxy | apply IH; exact Hin].
Qed.

Section DictFacts.
Context {V : Type}.
Implicit Types d : list (string * V).

Lemma dict_get_In d k v : dict_get d k = Some v -> List.In (k, v) d.
Proof.
  induction d as [|[k' v'] d IH]; simpl; [discriminate|].
  destruct (String.eqb k' k) eqn:E.
  - apply String.eqb_eq in E. intros [= <-]. left. congruence.
  - intros H. right. apply IH. exact H.
Qed.

Lemma dict_get_None d k : dict_get d k = None <-> ~ List.In k (map fst d).
Proof.
  induction d as [|[k' v'] d IH]; simpl; [tauto|].
  destruct (String.eqb k' k) eqn:E.
  - apply String.eqb_eq in E. split; [discriminate | intros H; destruct H; left; exact E].
  - apply String.eqb_neq in E. rewrite IH. tauto.
Qed.

Lemma dict_get_is_Some d k : List.In k (map fst d) -> is_Some (dict_get d k).
Proof.
  intros H. destruct (dict_get d k) eqn:E; [eexists; reflexivity|].
  apply dict_get_None in E. contradiction.
Qed.

(** Assigning to a key that is not there appends the item. *)
Lemma dict_set_fresh d k v : ~ List.In k (map fst d) -> dict_set d k v = d ++ [(k, v)].
Proof.
  induction d as [|[k' v'] d IH]; simpl; intros H; [reflexivity|].
  destruct (String.eqb k' k) eqn:E.
  - apply String.eqb_eq in E. destruct H. left. exact E.
  - rewrite IH; [reflexivity|]. tauto.
Qed.

(** Assigning to the key of an item replaces the value where it stands. *)
Lemma dict_set_middle d1 d2 k v v' :
  ~ List.In k (map fst d1) ->
  dict_set (d1 ++ (k, v) :: d2) k v' = d1 ++ (k, v') :: d2.
Proof.
  induction d1 as [|[k1 v1] d1 IH]; simpl; intros H.
  - rewrite String.eqb_refl. reflexivity.
  - destruct (String.eqb k1 k) eqn:E.
    + apply String.eqb_eq in E. destruct H. left. exact E.
    + rewrite IH; [reflexivity|]. tauto.
Qed.

Lemma count_key_absent k d : ~ List.In k (map fst d) -> count_key k d = 0%nat.
Proof.
  unfold count_key. induction d as [|[k' v'] d IH]; simpl; intros H; [reflexivity|].
  destruct (String.eqb k' k) eqn:E.
  - apply String.eqb_eq in E. destruct H. left. exact E.
  - apply IH. tauto.
Qed.

Lemma count_key_NoDup k d :
  NoDup (map fst d) -> List.In k (map fst d) -> count_key k d = 1%nat.
Proof.
  unfold count_key. induction d as [|[k' v'] d IH]; simpl; intros Hnd Hin; [destruct Hin|].
  apply NoDup_cons in Hnd as [Hk' Hnd].
  destruct (String.eqb k' k) eqn:E.
  - apply String.eqb_eq in E. subst k'. simpl. f_equal.
    apply count_key_absent. intros Hk. apply Hk'. apply list_elem_of_In. exact Hk.
  - apply String.eqb_neq in E. apply IH; [exact Hnd|].
    destruct Hin as [Hin|Hin]; [contradiction | exact Hin].
Qed.
End DictFacts.

Lemma for_each_app {S X : Type} (body : S -> X -> option S) st l1 l2 :
  for_each body st (l1 ++ l2) = st' ← for_each body st l1; for_each body st' l2.
Proof.
  revert st. induction l1 as [|x l1 IH]; intros st; simpl; [reflexivity|].
  destruct (body st x); simpl; [apply IH | reflexivity].
Qed.

(** ** The allocator *)

Section AllocatorFacts.
Variable products : list (string * ProductRecord).
Variable meta : gmap string MetaRecord.
Variable chosen_date : option date.
Variable is_advertiser : bool.

Abbreviation scan := (product_lines meta chosen_date is_advertiser).
Abbreviation lines := (lines_of products meta chosen_date is_advertiser).
Abbreviation cur_line := (cur_line_of products).
Abbreviation room := (headroom products meta chosen_date is_advertiser).
Abbreviation room_sum := (headroom_sum products meta chosen_date is_advertiser).
Abbreviation step := (upgrade_step products meta chosen_date is_advertiser).
Abbreviation base_step := (baseline_step meta chosen_date is_advertiser).

(** Every candidate carries the line price of its own pick. *)
Lemma product_lines_line pname product cands :
  scan pname product = Some cands ->
  forall c, List.In c cands ->
    line c = effective_line_price (Some product) (pick_of c).1.2 (pick_of c).2.
Proof.
  unfold product_lines. intros H c Hc.
  destruct (mapM _ (price_options product)) as [per_option|] eqn:E; [|discriminate].
  simpl in H. injection H as <-.
  apply in_concat in Hc as [cs [Hcs Hc]].
  destruct (mapM_In _ _ _ E _ Hcs) as [opt [_ Hopt]].
  unfold option_lines in Hopt.
  destruct (skipped _ _ _); [injection Hopt as <-; destruct Hc|].
  destruct (price_points opt) as [pts|]; [|discriminate]. simpl in Hopt.
  destruct (mapM_In _ _ _ Hopt _ Hc) as [pt [_ Hpt]].
  destruct (get_effective_unit_price _ _ _ _ _ _); [|discriminate].
  simpl in Hpt. injection Hpt as <-. reflexivity.
Qed.

Lemma lines_line pname cands :
  lines pname = Some cands ->
  forall c, List.In c cands -> line c = cur_line pname (pick_of c).
Proof.
  unfold lines_of, cur_line_of. intros H c Hc.
  destruct (dict_get products pname) as [product|]; [|discriminate].
  simpl in H. eapply product_lines_line; eassumption.
Qed.

(** What one step of a pass does: nothing, or the adoption of a dearer
    candidate that fits the budget. *)
Lemma upgrade_step_cases budget picks s b pname pick cands :
  lines pname = Some cands ->
  step budget (picks, s, b) (pname, pick) = Some (picks, s, b)
  \/ exists u,
      List.In u cands
      /\ cur_line pname pick < line u
      /\ s - cur_line pname pick + line u <= budget
      /\ step budget (picks, s, b) (pname, pick)
         = Some (dict_set picks pname (pick_of u),
                 s - cur_line pname pick + line u, true).
Proof.
  unfold lines_of, cur_line_of, upgrade_step. intros H.
  destruct pick as [[cur_opt cur_lbl] cur_base].
  destruct (dict_get products pname) as [product|]; [|discriminate].
  simpl in H. simpl. rewrite H. simpl.
  match goal with |- context [find ?f ?l] => destruct (find f l) as [u|] eqn:F end.
  - right. apply find_some in F as [Hin Hfit].
    apply sorted_In, filter_In in Hin as [Hin Hgt].
    apply Qltb_lt in Hgt. apply Qle_bool_iff in Hfit.
    exists u. destruct u as [[[o l] e] nl]. auto.
  - left. reflexivity.
Qed.

(** An adopted upgrade leaves its product fewer upgrades. *)
Lemma headroom_adopt pname pick cands u :
  lines pname = Some cands ->
  List.In u cands ->
  cur_line pname pick < line u ->
  (room (pname, pick_of u) < room (pname, pick))%nat.
Proof.
  intros H Hin Hlt. unfold headroom. simpl. rewrite H.
  rewrite <- (lines_line _ _ H _ Hin).
  clear H. induction cands as [|c cands IH]; [destruct Hin|].
  assert (Hle : forall l,
             (length (List.filter (fun c => Qltb (line u) (line c)) l)
              <= length (List.filter (fun c => Qltb (cur_line pname pick) (line c)) l))%nat).
  { induction l as [|x l IHl]; simpl; [lia|].
    destruct (Qltb (line u) (line x)) eqn:E1.
    - apply Qltb_lt in E1.
      assert (E2 : Qltb (cur_line pname pick) (line x) = true) by (apply Qltb_lt; lra).
      rewrite E2. simpl. lia.
    - destruct (Qltb (cur_line pname pick) (line x)); simpl; lia. }
  simpl. destruct Hin as [->|Hin].
  - assert (E1 : Qltb (line u) (line u) = false) by (apply Qltb_ge; lra).
    assert (E2 : Qltb (cur_line pname pick) (line u) = true) by (apply Qltb_lt; exact Hlt).
    rewrite E1, E2. simpl. specialize (Hle cands). lia.
  - specialize (IH Hin).
    destruct (Qltb (line u) (line c)) eqn:E1.
    + apply Qltb_lt in E1.
      assert (E2 : Qltb (cur_line pname pick) (line c) = true) by (apply Qltb_lt; lra).
      rewrite E2. simpl. lia.
    + destruct (Qltb (cur_line pname pick) (line c)); simpl; lia.
Qed.

(** A pick has no more upgrades than its product has candidates. *)
Lemma headroom_le_candidates e :
  (room e <= length (default [] (lines e.1)))%nat.
Proof.
  unfold headroom. destruct (lines e.1) as [cands|]; simpl; [|lia].
  induction cands as [|c cands IH]; simpl; [lia|].
  destruct (Qltb _ _); simpl; lia.
Qed.

Lemma headroom_sum_app l1 l2 : room_sum (l1 ++ l2) = (room_sum l1 + room_sum l2)%nat.
Proof.
  unfold headroom_sum. rewrite map_app, list_sum_app. reflexivity.
Qed.

(** One pass, from any point of it: it does not raise, it rewrites the items
    still to visit where they stand, and it reports a change exactly when it
    adopted an upgrade. *)
Lemma pass_exec budget todo : forall done s b,
  NoDup (map fst (done ++ todo)) ->
  Forall (fun e : string * Pick => is_Some (lines e.1)) todo ->
  exists todo' s' b',
    for_each (step budget) (done ++ todo, s, b) todo = Some (done ++ todo', s', b')
    /\ map fst todo' = map fst todo
    /\ (room_sum todo' <= room_sum todo)%nat
    /\ (b' = true -> b = true \/ (room_sum todo' < room_sum todo)%nat)
    /\ (b = true -> b' = true)
    /\ (b' = false -> todo' = todo /\ s' = s)
    /\ s <= s'
    /\ (s <= budget -> s' <= budget).
Proof.
  induction todo as [|[k pick] rest IH]; intros done s b Hnd Hok.
  - exists [], s, b. simpl. repeat split; auto; lra.
  - apply Forall_cons in Hok as [[cands Hc] Hrest].
    assert (Hk : ~ List.In k (map fst done)).
    { rewrite map_app in Hnd. apply NoDup_app in Hnd as (_ & Hdis & _).
      intros Hin. apply list_elem_of_In in Hin. apply (Hdis _ Hin). left. }
    assert (Hmid : forall v : Pick,
               done ++ (k, v) :: rest = (done ++ [(k, v)]) ++ rest)
      by (intros v; rewrite <- app_assoc; reflexivity).
    assert (Hnd' : forall v : Pick, NoDup (map fst ((done ++ [(k, v)]) ++ rest))).
    { intros v. rewrite <- Hmid. rewrite map_app in Hnd |- *. exact Hnd. }
    destruct (upgrade_step_cases budget (done ++ (k, pick) :: rest) s b k pick cands Hc)
      as [Hstep | (u & Hu & Hlt & Hfit & Hstep)].
    + destruct (IH (done ++ [(k, pick)]) s b (Hnd' pick) Hrest)
        as (todo' & s' & b' & Hrun & Hkeys & Hle & Hb & Hb1 & Hb0 & Hs & Hbud).
      exists ((k, pick) :: todo'), s', b'.
      split; [|split; [|split; [|split; [|split; [|split; [|split]]]]]].
      * cbn [for_each]. rewrite Hstep. cbn [mbind option_bind].
        rewrite (Hmid pick), Hrun, <- app_assoc. reflexivity.
      * simpl. rewrite Hkeys. reflexivity.
      * unfold headroom_sum in *. simpl. lia.
      * intros Hb'. destruct (Hb Hb') as [?|?]; [left; assumption|].
        right. unfold headroom_sum in *. simpl. lia.
      * exact Hb1.
      * intros Hb'. destruct (Hb0 Hb') as [-> ->]. split; reflexivity.
      * exact Hs.
      * exact Hbud.
    + destruct (IH (done ++ [(k, pick_of u)])
                  (s - cur_line k pick + line u) true (Hnd' (pick_of u)) Hrest)
        as (todo' & s' & b' & Hrun & Hkeys & Hle & Hb & Hb1 & Hb0 & Hs & Hbud).
      pose proof (headroom_adopt k pick cands u Hc Hu Hlt) as Hroom.
      exists ((k, pick_of u) :: todo'), s', b'.
      split; [|split; [|split; [|split; [|split; [|split; [|split]]]]]].
      * cbn [for_each]. rewrite Hstep. cbn [mbind option_bind].
        rewrite (dict_set_middle _ _ _ _ _ Hk).
        rewrite (Hmid (pick_of u)), Hrun, <- app_assoc. reflexivity.
      * simpl. rewrite Hkeys. reflexivity.
      * unfold headroom_sum in *. simpl. lia.
      * intros _. right. unfold headroom_sum in *. simpl. lia.
      * intros _. apply Hb1. reflexivity.
      * intros Hb'. rewrite (Hb1 eq_refl) in Hb'. discriminate.
      * lra.
      * intros _. apply Hbud. exact Hfit.
Qed.

(** The upgrade loop comes to its end within the passes that the picks'
    upgrades allow, with the same products picked, a subtotal that did not
    fall, and one within the budget if it started within it. *)
Lemma upgrade_loop_finishes budget n : forall picks s,
  NoDup (map fst picks) ->
  Forall (fun e : string * Pick => is_Some (lines e.1)) picks ->
  (room_sum picks < n)%nat ->
  exists picks' s',
    (forall fuel, (n <= fuel)%nat ->
       upgrade_loop products meta chosen_date is_advertiser budget fuel picks s
       = Finished (picks', s'))
    /\ map fst picks' = map fst picks
    /\ s <= s'
    /\ (s <= budget -> s' <= budget).
Proof.
  induction n as [|n IH]; intros picks s Hnd Hok Hroom; [lia|].
  destruct (pass_exec budget picks [] s false Hnd Hok)
    as (picks1 & s1 & b1 & Hrun & Hkeys & Hle & Hb & _ & Hb0 & Hs & Hbud).
  simpl in Hrun.
  destruct b1.
  - destruct (Hb eq_refl) as [?|Hlt]; [discriminate|].
    destruct (IH picks1 s1) as (picks' & s' & Hloop & Hkeys' & Hs' & Hbud').
    + rewrite Hkeys. exact Hnd.
    + clear - Hok Hkeys. revert picks1 Hkeys.
      induction Hok as [|e l He _ IHl]; intros [|e1 l1] Hkeys; try discriminate;
        constructor.
      * injection Hkeys as H1 _. rewrite H1. exact He.
      * apply IHl. injection Hkeys as _ H2. exact H2.
    + lia.
    + exists picks', s'. split; [|split; [|split]].
      * intros [|fuel] Hfuel; [lia|]. cbn [upgrade_loop]. unfold upgrade_pass.
        rewrite Hrun. apply Hloop. lia.
      * congruence.
      * lra.
      * intros H. apply Hbud', Hbud, H.
  - destruct (Hb0 eq_refl) as [-> ->].
    exists picks, s. split; [|split; [|split]].
    + intros [|fuel] Hfuel; [lia|]. cbn [upgrade_loop]. unfold upgrade_pass.
      rewrite Hrun. reflexivity.
    + reflexivity.
    + lra.
    + auto.
Qed.

Lemma better_fold_Some cands : forall b,
  exists c, fold_left (better) cands (Some b) = Some c.
Proof.
  induction cands as [|x cands IH]; intros b; simpl; [eexists; reflexivity|].
  destruct (Qltb (line x) (line b)); apply IH.
Qed.

(** Phase A leaves a product out exactly when the scan kept no price point
    of it. *)
Lemma baseline_best_None cands : fold_left better cands None = None <-> cands = [].
Proof.
  destruct cands as [|c cands]; simpl; [tauto|].
  destruct (better_fold_Some cands c) as [c' ->]. split; discriminate.
Qed.

Lemma base_step_cases picks s k p picks' s' :
  base_step (picks, s) (k, p) = Some (picks', s') ->
  exists cands,
    scan k p = Some cands
    /\ ((cands = [] /\ picks' = picks /\ s' = s)
        \/ (cands <> [] /\ exists v, picks' = dict_set picks k v)).
Proof.
  unfold baseline_step. destruct (scan k p) as [cands|]; [|discriminate].
  simpl. exists cands. split; [reflexivity|].
  destruct (fold_left better cands None) as [[[[o l] e] nl]|] eqn:E.
  - injection H as <- <-. right. split; [|eexists; reflexivity].
    intros ->. discriminate.
  - injection H as <- <-. left. apply baseline_best_None in E. auto.
Qed.

Lemma dict_set_keys {V : Type} (d : list (string * V)) k v :
  map fst (dict_set d k v)
  = if bool_decide (k ∈ map fst d) then map fst d else map fst d ++ [k].
Proof.
  induction d as [|[k' v'] d IH]; cbn [dict_set map fst].
  - rewrite bool_decide_eq_false_2; [reflexivity | apply not_elem_of_nil].
  - destruct (String.eqb k' k) eqn:E; cbn [map fst].
    + apply String.eqb_eq in E. subst k'.
      rewrite bool_decide_eq_true_2; [reflexivity | left].
    + apply String.eqb_neq in E. rewrite IH.
      destruct (bool_decide (k ∈ map fst d)) eqn:D.
      * apply bool_decide_eq_true in D.
        rewrite bool_decide_eq_true_2; [reflexivity | right; exact D].
      * apply bool_decide_eq_false in D.
        rewrite bool_decide_eq_false_2; [reflexivity|].
        intros H. apply elem_of_cons in H as [H|H]; [congruence | contradiction].
Qed.

(** Phase A over a list of products: no scan raised, and the picks are keyed
    by those products, in their order, of which the scan kept a price
    point. *)
Lemma baseline_run l : forall picks s picks' s',
  for_each base_step (picks, s) l = Some (picks', s') ->
  NoDup (map fst picks) ->
  NoDup (map fst picks')
  /\ Forall (fun e : string * ProductRecord => is_Some (scan e.1 e.2)) l
  /\ (forall k, k ∈ map fst picks' -> k ∈ map fst picks \/ k ∈ map fst l)
  /\ (NoDup (map fst l) ->
      (forall k, k ∈ map fst l -> k ∉ map fst picks) ->
      map fst picks'
      = map fst picks
        ++ map fst (List.filter (has_lines meta chosen_date is_advertiser) l)).
Proof.
  induction l as [|[k p] l IH]; intros picks s picks' s' Hrun Hnd.
  - injection Hrun as <- <-. simpl. rewrite app_nil_r. repeat split; auto.
  - cbn [for_each] in Hrun.
    destruct (base_step (picks, s) (k, p)) as [[picks1 s1]|] eqn:Hstep; [|discriminate].
    cbn [mbind option_bind] in Hrun.
    destruct (base_step_cases _ _ _ _ _ _ Hstep) as (cands & Hscan & Hcase).
    assert (Hkeys1 : map fst picks1
                     = if has_lines meta chosen_date is_advertiser (k, p)
                       then (if bool_decide (k ∈ map fst picks) then map fst picks
                             else map fst picks ++ [k])
                       else map fst picks).
    { unfold has_lines. simpl. rewrite Hscan.
      destruct Hcase as [(-> & -> & _) | (Hne & v & ->)]; [reflexivity|].
      destruct cands; [congruence|]. apply dict_set_keys. }
    assert (Hnd1 : NoDup (map fst picks1)).
    { rewrite Hkeys1. destruct (has_lines _ _ _ _); [|exact Hnd].
      destruct (bool_decide _) eqn:D; [exact Hnd|].
      apply bool_decide_eq_false in D. apply NoDup_app. split; [exact Hnd|].
      split; [|apply NoDup_singleton].
      intros x Hx Hx'. apply list_elem_of_singleton in Hx'. subst x. contradiction. }
    assert (Hsub : forall k', k' ∈ map fst picks1 -> k' ∈ map fst picks \/ k' = k).
    { intros k' H1. rewrite Hkeys1 in H1.
      destruct (has_lines _ _ _ _); [|left; exact H1].
      destruct (bool_decide _); [left; exact H1|].
      apply elem_of_app in H1 as [H1|H1]; [left; exact H1|].
      right. apply list_elem_of_singleton in H1. exact H1. }
    destruct (IH _ _ _ _ Hrun Hnd1) as (Hnd' & Hall & Hin & Heq).
    split; [exact Hnd'|]. split; [|split].
    + constructor; [simpl; rewrite Hscan; eexists; reflexivity | exact Hall].
    + intros k' Hk'. simpl.
      destruct (Hin _ Hk') as [H1|H1]; [|right; right; exact H1].
      destruct (Hsub _ H1) as [H2| ->]; [left; exact H2 | right; left].
    + intros Hndl Hfresh. simpl in Hndl. apply NoDup_cons in Hndl as [Hk Hndl].
      assert (Hkp : k ∉ map fst picks) by (apply Hfresh; left).
      rewrite Heq; [|exact Hndl|].
      * rewrite Hkeys1. simpl.
        destruct (has_lines meta chosen_date is_advertiser (k, p)); [|reflexivity].
        rewrite bool_decide_eq_false_2 by exact Hkp.
        simpl. rewrite <- app_assoc. reflexivity.
      * intros k' Hk' Hin'.
        destruct (Hsub _ Hin') as [H2| ->]; [|contradiction].
        apply (Hfresh k'); [right; exact Hk' | exact H2].
Qed.

(** After Phase A the picks are a dict and every picked product can be
    scanned again. *)
Lemma baseline_ready picks0 s0 :
  baseline_picks products meta chosen_date is_advertiser = Some (picks0, s0) ->
  NoDup (map fst picks0)
  /\ Forall (fun e : string * Pick => is_Some (lines e.1)) picks0.
Proof.
  unfold baseline_picks. intros H.
  destruct (baseline_run _ _ _ _ _ H (NoDup_nil_2)) as (Hnd & Hall & Hin & _).
  split; [exact Hnd|].
  apply Forall_forall. intros [k v] Hkv. simpl.
  assert (Hk : k ∈ map fst products).
  { destruct (Hin k) as [Hk|Hk]; [|by apply elem_of_nil in Hk|exact Hk].
    apply (list_elem_of_fmap_2 fst) in Hkv. exact Hkv. }
  apply list_elem_of_In in Hk.
  destruct (dict_get_is_Some _ _ Hk) as [p Hp].
  unfold lines_of. rewrite Hp. simpl.
  apply dict_get_In in Hp.
  rewrite Forall_forall in Hall. apply (Hall (k, p)).
  apply list_elem_of_In. exact Hp.
Qed.

End AllocatorFacts.

(** A product none of whose options has a price point is scanned without an
    exception and yields no candidate. *)
Lemma product_lines_no_points meta chosen_date is_advertiser pname product :
  Forall (fun opt => price_points opt = Some []) (price_options product) ->
  product_lines meta chosen_date is_advertiser pname product = Some [].
Proof.
  unfold product_lines. intros H.
  assert (E : mapM (option_lines meta chosen_date is_advertiser pname product)
                (price_options product)
              = Some (map (fun _ => []) (price_options product))).
  { apply mapM_Some_2. induction H as [|opt opts Hopt _ IH]; constructor; [|exact IH].
    unfold option_lines. destruct (skipped _ _ _); [reflexivity|].
    rewrite Hopt. reflexivity. }
  rewrite E. simpl. f_equal. clear.
  induction (price_options product) as [|o os IHo]; [reflexivity | exact IHo].
Qed.



(** C1. When Phase A has returned with a subtotal within the sub-budget, the
    upgrade loop returns with a subtotal within the sub-budget; and the
    running subtotal never falls: not across the loop, and not across any
    single step of a pass, which also keeps it within the budget. *)
Theorem budget_respected products meta chosen_date is_advertiser budget picks0 s0 :
  baseline_picks products meta chosen_date is_advertiser = Some (picks0, s0) ->
  (exists picks s,
      (forall fuel,
          (sufficient_fuel products meta chosen_date is_advertiser picks0 <= fuel)%nat ->
          upgrade_loop products meta chosen_date is_advertiser budget fuel picks0 s0
          = Finished (picks, s))
      /\ s0 <= s
      /\ (s0 <= budget -> s <= budget))
  /\ (forall picks s b entry picks' s' b',
        upgrade_step products meta chosen_date is_advertiser budget
          (picks, s, b) entry = Some (picks', s', b') ->
        s <= s' /\ (s <= budget -> s' <= budget)).
Proof.
  intros Hbase. split.
  - destruct (baseline_ready _ _ _ _ _ _ Hbase) as [Hnd Hok].
    destruct (upgrade_loop_finishes products meta chosen_date is_advertiser budget
                (sufficient_fuel products meta chosen_date is_advertiser picks0)
                picks0 s0 Hnd Hok) as (picks & s & Hloop & _ & Hs & Hbud).
    { unfold sufficient_fuel. lia. }
    exists picks, s. auto.
  - intros picks s b [pname pick] picks' s' b' Hstep.
    destruct (lines_of products meta chosen_date is_advertiser pname) as [cands|] eqn:Hc.
    + destruct (upgrade_step_cases products meta chosen_date is_advertiser budget
                  picks s b pname pick cands Hc) as [H | (u & Hu & Hlt & Hfit & H)];
        rewrite H in Hstep; injection Hstep as <- <- <-.
      * split; [lra | auto].
      * split; [lra | intros _; exact Hfit].
    + exfalso. unfold lines_of in Hc. unfold upgrade_step in Hstep.
      destruct pick as [[o l] e].
      destruct (dict_get products pname) as [product|]; [|discriminate].
      simpl in Hc, Hstep. rewrite Hc in Hstep. discriminate.
Qed.

(** The demo catalog: the baseline of 350 is within 1000, and so is the
    subtotal after the upgrades. *)
Lemma budget_respected_witness :
  exists picks s,
    upgrade_loop demo_products ∅ None false 1000 5 demo_baseline 350
    = Finished (picks, s)
    /\ 350 <= s /\ s <= 1000.
Proof.
  destruct (proj1 (budget_respected demo_products ∅ None false 1000
                     demo_baseline 350 eq_refl)) as (picks & s & H & Hs & Hb).
  exists picks, s. split; [apply (H 5%nat); vm_compute; lia|].
  split; [exact Hs | apply Hb; lra].
Defined.

(** The bound is on the running subtotal. The Selection carries it rounded
    to cents, and the rounded figure can pass a budget that is not a whole
    number of cents. *)
Remark rounded_subtotal_can_exceed :
  upgrade_loop [("P", cents_product)] ∅ None false 100.007 3
    [("P", ("P", "a", 100))] 100
  = Finished ([("P", ("P", "b", 100.006))], 100.006)
  /\ greedy_fill_to_cap [("P", cents_product)] ∅ None false 100.007 3
     = Finished (Sel [("P", ("P", "b", 100.006))] (py_round2 100.006))
  /\ 100.006 <= 100.007
  /\ 100.007 < py_round2 100.006.
Proof.
  split; [reflexivity|]. split; [reflexivity|].
  split; [lra | vm_compute; reflexivity].
Qed.

(** The scan of an option yields a candidate exactly when the exclusivity
    rule does not skip the option and the option has a price point. *)
Lemma option_lines_points meta chosen_date is_advertiser pname product opt l :
  option_lines meta chosen_date is_advertiser pname product opt = Some l ->
  (l <> [] <->
   skipped pname (default pname (opt_name opt)) is_advertiser = false
   /\ exists pts, price_points opt = Some pts /\ pts <> []).
Proof.
  unfold option_lines.
  destruct (skipped pname (default pname (opt_name opt)) is_advertiser).
  - intros [= <-]. split; [congruence | intros [? _]; discriminate].
  - destruct (price_points opt) as [pts|]; [|discriminate].
    cbn [mbind option_bind]. intros Hm.
    apply length_mapM in Hm.
    split.
    + intros Hl. split; [reflexivity|]. exists pts. split; [reflexivity|].
      intros ->. destruct l; [congruence | discriminate].
    + intros [_ (pts' & [= <-] & Hp)] ->. destruct pts; [congruence | discriminate].
Qed.

(** The scan of a product yields a candidate exactly when one of its options
    that the exclusivity rule does not skip has a price point. *)
Lemma product_lines_points meta chosen_date is_advertiser pname product cands :
  product_lines meta chosen_date is_advertiser pname product = Some cands ->
  (cands <> [] <->
   exists opt pts,
     List.In opt (price_options product)
     /\ skipped pname (default pname (opt_name opt)) is_advertiser = false
     /\ price_points opt = Some pts /\ pts <> []).
Proof.
  unfold product_lines.
  destruct (mapM _ (price_options product)) as [per|] eqn:Hm; [|discriminate].
  cbn [mbind option_bind]. intros [= <-].
  apply mapM_Some_1 in Hm.
  induction Hm as [|opt l opts per Hopt _ IH]; cbn [concat].
  - split; [congruence | intros (? & ? & [] & _)].
  - pose proof (option_lines_points _ _ _ _ _ _ _ Hopt) as Hl.
    split.
    + intros Hne. destruct l as [|c l].
      * cbn [app] in Hne. destruct (proj1 IH Hne) as (o & pts & Hin & Hrest).
        exists o, pts. split; [right; exact Hin | exact Hrest].
      * destruct (proj1 Hl) as [Hsk (pts & Hp & Hn)]; [discriminate|].
        exists opt, pts. split; [left; reflexivity | auto].
    + intros (o & pts & [<-|Hin] & Hsk & Hp & Hn).
      * assert (l <> []) by (apply Hl; split; [exact Hsk | exists pts; auto]).
        destruct l; [congruence | discriminate].
      * assert (concat per <> []) by (apply IH; exists o, pts; auto).
        destruct l; [assumption | discriminate].
Qed.

(** C3, as the code has it. For a catalog (a dict: no product name twice) on
    which Phase A returns, the allocator returns a Selection in which a
    product has exactly one pick when one of its options that the
    allocator's own Summit Booth rule does not skip has a price point, and
    no pick otherwise; the scan of every product returns, and it is empty
    for a product none of whose options has a price point. The options that
    count are those the allocator keeps, not those the eligibility filter
    left. *)
Theorem one_pick_per_product products meta chosen_date is_advertiser budget
    picks0 s0 :
  NoDup (map fst products) ->
  baseline_picks products meta chosen_date is_advertiser = Some (picks0, s0) ->
  exists sel,
    (forall fuel,
        (sufficient_fuel products meta chosen_date is_advertiser picks0 <= fuel)%nat ->
        greedy_fill_to_cap products meta chosen_date is_advertiser budget fuel
        = Finished sel)
    /\ (forall pname product,
          List.In (pname, product) products ->
          exists cands,
            product_lines meta chosen_date is_advertiser pname product = Some cands
            /\ (cands <> [] <->
                exists opt pts,
                  List.In opt (price_options product)
                  /\ skipped pname (default pname (opt_name opt)) is_advertiser
                     = false
                  /\ price_points opt = Some pts /\ pts <> [])
            /\ (cands <> [] -> count_key pname (picks sel) = 1%nat)
            /\ (cands = [] ->
                count_key pname (picks sel) = 0%nat
                /\ dict_get (picks sel) pname = None))
    /\ (forall pname product,
          Forall (fun opt => price_points opt = Some []) (price_options product) ->
          product_lines meta chosen_date is_advertiser pname product = Some []).
Proof.
  intros Hndp Hbase.
  destruct (baseline_ready _ _ _ _ _ _ Hbase) as [Hnd Hok].
  destruct (upgrade_loop_finishes products meta chosen_date is_advertiser budget
              (sufficient_fuel products meta chosen_date is_advertiser picks0)
              picks0 s0 Hnd Hok) as (picks & s & Hloop & Hkeys & _).
  { unfold sufficient_fuel. lia. }
  exists (Sel picks (py_round2 s)). split; [|split].
  - intros fuel Hfuel. unfold greedy_fill_to_cap.
    rewrite Hbase, (Hloop _ Hfuel). reflexivity.
  - intros pname product Hin. simpl.
    unfold baseline_picks in Hbase.
    destruct (baseline_run meta chosen_date is_advertiser _ _ _ _ _ Hbase NoDup_nil_2)
      as (_ & Hall & _ & Heq).
    specialize (Heq Hndp (fun k _ => not_elem_of_nil k)). simpl in Heq.
    rewrite Forall_forall in Hall.
    destruct (Hall (pname, product)) as [cands Hc]; [apply list_elem_of_In; exact Hin|].
    simpl in Hc. exists cands. split; [exact Hc|].
    split; [apply (product_lines_points _ _ _ _ _ _ Hc)|].
    assert (Hmem : List.In pname (map fst picks) <-> cands <> []).
    { rewrite Hkeys, Heq. rewrite in_map_iff. split.
      - intros [[k p] [Hk Hf]]. simpl in Hk. subst k.
        apply filter_In in Hf as [Hf Hl].
        assert (p = product).
        { clear - Hndp Hf Hin. induction products as [|[k0 p0] l IH]; [destruct Hin|].
          simpl in Hndp. apply NoDup_cons in Hndp as [Hk0 Hndl].
          destruct Hin as [Hin|Hin], Hf as [Hf|Hf].
          - congruence.
          - injection Hin as -> ->. exfalso. apply Hk0.
            apply list_elem_of_In, in_map_iff. exists (pname, p). auto.
          - injection Hf as -> ->. exfalso. apply Hk0.
            apply list_elem_of_In, in_map_iff. exists (pname, product). auto.
          - apply IH; assumption. }
        subst p. unfold has_lines in Hl. simpl in Hl. rewrite Hc in Hl.
        destruct cands; [discriminate | discriminate].
      - intros Hne. exists (pname, product). split; [reflexivity|].
        apply filter_In. split; [exact Hin|].
        unfold has_lines. simpl. rewrite Hc. destruct cands; [congruence | reflexivity]. }
    split.
    + intros Hne. apply count_key_NoDup; [rewrite Hkeys; exact Hnd | apply Hmem; exact Hne].
    + intros Hnil.
      assert (Hno : ~ List.In pname (map fst picks)) by (rewrite Hmem; tauto).
      split; [apply count_key_absent | apply dict_get_None]; exact Hno.
  - intros pname product. apply product_lines_no_points.
Qed.

(** The demo catalog: products A and B get one pick each, product C, which
    has no option, gets none. *)
Lemma one_pick_per_product_witness :
  exists sel,
    greedy_fill_to_cap demo_products ∅ None false 1000 5 = Finished sel
    /\ count_key "A" (picks sel) = 1%nat
    /\ count_key "B" (picks sel) = 1%nat
    /\ count_key "C" (picks sel) = 0%nat.
Proof.
  assert (Hnd : NoDup (map fst demo_products)).
  { apply (bool_decide_unpack _). vm_compute. exact I. }
  destruct (one_pick_per_product demo_products ∅ None false 1000
              demo_baseline 350 Hnd eq_refl) as (sel & Hrun & Hpicks & _).
  exists sel. split; [apply (Hrun 5%nat); vm_compute; lia|].
  destruct (Hpicks "A" demo_tiered) as (ca & Ha & _ & Ha1 & _); [left; reflexivity|].
  destruct (Hpicks "B" demo_plans) as (cb & Hb & _ & Hb1 & _); [right; left; reflexivity|].
  destruct (Hpicks "C" demo_bare) as (cc & Hc & _ & _ & Hc0);
    [right; right; left; reflexivity|].
  vm_compute in Ha, Hb, Hc.
  injection Ha as <-. injection Hb as <-. injection Hc as <-.
  split; [apply Ha1; discriminate|].
  split; [apply Hb1; discriminate|].
  apply Hc0. reflexivity.
Defined.

(** A price point that the eligibility filter left is not enough. The
    catalog lists the Summit Booth with the advertiser rate only; for a
    small business that is no advertiser the filter finds no
    "non-advertiser rate" and falls back to every "basic booth" option, so
    the record keeps its price point of 1500. The allocator, run for the
    same client, skips the option as advertiser-only: the product has a
    price point after the filter and no pick. *)
Lemma filtered_price_point_without_pick :
  exists product opt pts sel,
    apply_summit_rules booth_catalog "small business" false
    = [("Summit Booth", product)]
    /\ List.In opt (price_options product)
    /\ price_points opt = Some pts
    /\ pts <> []
    /\ greedy_fill_to_cap [("Summit Booth", product)] ∅ None false 5000 1
       = Finished sel
    /\ picks sel = []
    /\ ~ count_key "Summit Booth" (picks sel) = 1%nat.
Proof.
  exists booth_advertiser_only,
    (Option_ (Some "Basic Booth — advertiser rate") (PyNum 1500) PyNone PyNone),
    [("base", 1500)], (Sel [] (py_round2 0)).
  split; [vm_compute; reflexivity|].
  split; [left; reflexivity|].
  split; [vm_compute; reflexivity|].
  split; [discriminate|].
  split; [vm_compute; reflexivity|].
  split; [reflexivity | discriminate].
Qed.

(** ** The pool orchestrator *)

Lemma for_each_ext {S X : Type} (f g : S -> X -> option S) l :
  (forall st x, f st x = g st x) -> forall st, for_each f st l = for_each g st l.
Proof.
  intros H. induction l as [|x l IH]; intros st; simpl; [reflexivity|].
  rewrite H. destruct (g st x); simpl; [apply IH | reflexivity].
Qed.

Lemma find_ext_bool {X : Type} (f g : X -> bool) l :
  (forall x, f x = g x) -> find f l = find g l.
Proof.
  intros H. induction l as [|x l IH]; simpl; [reflexivity|].
  rewrite H, IH. reflexivity.
Qed.

(** The allocator reads its budget only through comparisons: equal numbers
    give the same Selection. *)
Lemma greedy_fill_to_cap_budget products meta chosen_date is_advertiser b1 b2 fuel :
  b1 == b2 ->
  greedy_fill_to_cap products meta chosen_date is_advertiser b1 fuel
  = greedy_fill_to_cap products meta chosen_date is_advertiser b2 fuel.
Proof.
  intros Hb.
  assert (Hstep : forall st e,
             upgrade_step products meta chosen_date is_advertiser b1 st e
             = upgrade_step products meta chosen_date is_advertiser b2 st e).
  { intros [[picks s] b] [pname [[o l] e]]. unfold upgrade_step.
    destruct (dict_get products pname) as [product|]; [|reflexivity].
    cbn -[effective_line_price].
    destruct (product_lines _ _ _ _ _) as [cands|]; [|reflexivity].
    cbn -[effective_line_price].
    remember (effective_line_price (Some product) l e) as cur eqn:Hcur.
    erewrite find_ext_bool; [reflexivity|].
    intros u. cbn beta.
    destruct (Qle_bool _ b2) eqn:E.
    - apply Qle_bool_iff. apply Qle_bool_iff in E. lra.
    - destruct (Qle_bool _ b1) eqn:E1; [|reflexivity].
      apply Qle_bool_iff in E1.
      assert (E2 : Qle_bool (s - cur + line u) b2 = true)
        by (apply Qle_bool_iff; lra).
      congruence. }
  assert (Hloop : forall n picks s,
             upgrade_loop products meta chosen_date is_advertiser b1 n picks s
             = upgrade_loop products meta chosen_date is_advertiser b2 n picks s).
  { induction n as [|n IH]; intros picks s; [reflexivity|].
    cbn [upgrade_loop]. unfold upgrade_pass.
    rewrite (for_each_ext _ _ _ Hstep).
    destruct (for_each _ _ _) as [[[p1 s1] [|]]|]; [apply IH | reflexivity | reflexivity]. }
  unfold greedy_fill_to_cap.
  destruct (baseline_picks _ _ _ _) as [[p0 s0]|]; [|reflexivity].
  rewrite Hloop. reflexivity.
Qed.

(** C9. [run_fill_to_cap] hands each pool's allocator the sub-budget
    [total_budget * (pct / 100)], not rounded, runs it once per pool, and
    returns the two Selections with the grand total
    [round(tourist.subtotal + industry.subtotal, 2)]; it returns whenever both
    allocators do. For a total of 45000 split 60/40 the sub-budgets are 27000
    and 18000, also as [compute_pools] rounds them. *)
Theorem run_fill_to_cap_pools fuel total_budget tourist_pct industry_pct
    t_set i_set meta chosen_date is_advertiser :
  (forall t_sel i_sel grand_total,
      run_fill_to_cap fuel total_budget tourist_pct industry_pct t_set i_set meta
        chosen_date is_advertiser = Finished (t_sel, i_sel, grand_total) ->
      greedy_fill_to_cap t_set meta chosen_date is_advertiser
        (total_budget * (tourist_pct / 100)) fuel = Finished t_sel
      /\ greedy_fill_to_cap i_set meta chosen_date is_advertiser
           (total_budget * (industry_pct / 100)) fuel = Finished i_sel
      /\ grand_total = py_round2 (subtotal t_sel + subtotal i_sel))
  /\ (forall t_sel i_sel,
        greedy_fill_to_cap t_set meta chosen_date is_advertiser
          (total_budget * (tourist_pct / 100)) fuel = Finished t_sel ->
        greedy_fill_to_cap i_set meta chosen_date is_advertiser
          (total_budget * (industry_pct / 100)) fuel = Finished i_sel ->
        run_fill_to_cap fuel total_budget tourist_pct industry_pct t_set i_set meta
          chosen_date is_advertiser
        = Finished (t_sel, i_sel, py_round2 (subtotal t_sel + subtotal i_sel)))
  /\ (forall t_sel i_sel grand_total,
        run_fill_to_cap fuel 45000 60 40 t_set i_set meta chosen_date is_advertiser
        = Finished (t_sel, i_sel, grand_total) ->
        greedy_fill_to_cap t_set meta chosen_date is_advertiser 27000 fuel
        = Finished t_sel
        /\ greedy_fill_to_cap i_set meta chosen_date is_advertiser 18000 fuel
           = Finished i_sel)
  /\ 45000 * (60 / 100) == 27000
  /\ 45000 * (40 / 100) == 18000
  /\ budget (compute_pools 45000 60 40).1 == 27000
  /\ budget (compute_pools 45000 60 40).2 == 18000.
Proof.
  assert (Hret : forall tb tp ip t_sel i_sel grand_total,
             run_fill_to_cap fuel tb tp ip t_set i_set meta chosen_date is_advertiser
             = Finished (t_sel, i_sel, grand_total) ->
             greedy_fill_to_cap t_set meta chosen_date is_advertiser (tb * (tp / 100)) fuel
             = Finished t_sel
             /\ greedy_fill_to_cap i_set meta chosen_date is_advertiser (tb * (ip / 100)) fuel
                = Finished i_sel
             /\ grand_total = py_round2 (subtotal t_sel + subtotal i_sel)).
  { intros tb tp ip t_sel i_sel grand_total. unfold run_fill_to_cap.
    destruct (greedy_fill_to_cap t_set _ _ _ _ _) as [t| |]; try discriminate.
    destruct (greedy_fill_to_cap i_set _ _ _ _ _) as [i| |]; try discriminate.
    intros [= <- <- <-]. auto. }
  split; [apply Hret|]. split; [|split].
  - intros t_sel i_sel Ht Hi. unfold run_fill_to_cap. rewrite Ht, Hi. reflexivity.
  - intros t_sel i_sel grand_total H. destruct (Hret _ _ _ _ _ _ H) as (Ht & Hi & _).
    split.
    + rewrite <- Ht. apply greedy_fill_to_cap_budget. reflexivity.
    + rewrite <- Hi. apply greedy_fill_to_cap_budget. reflexivity.
  - repeat split; reflexivity.
Qed.

(** Scenario C on the demo catalog: both pools are allocated, each within its
    own sub-budget. *)
Lemma run_fill_to_cap_pools_witness :
  exists t_sel i_sel grand_total,
    run_fill_to_cap 5 45000 60 40 demo_products demo_industry ∅ None false
    = Finished (t_sel, i_sel, grand_total)
    /\ greedy_fill_to_cap demo_products ∅ None false 27000 5 = Finished t_sel
    /\ greedy_fill_to_cap demo_industry ∅ None false 18000 5 = Finished i_sel
    /\ grand_total == 2520.
Proof.
  eexists _, _, _. split; [vm_compute; reflexivity|].
  match goal with
  | |- ?A /\ ?B /\ _ =>
      assert (H : A /\ B);
      [|destruct H as [H1 H2]; split; [exact H1|]; split; [exact H2 | reflexivity]]
  end.
  apply (proj1 (proj2 (proj2
           (run_fill_to_cap_pools 5 45000 60 40 demo_products demo_industry ∅ None false)))
           _ _ (2520.00)).
  vm_compute. reflexivity.
Defined.

(** * Further properties of the code *)

(** ** Text *)

Module PyStrMore.
Import PyStr.

Lemma rstrip_solid s : ends_solid s = true -> rstrip s = s.
Proof.
  induction s as [|c s IH]; intros H; [reflexivity|].
  destruct s as [|c' s'].
  - simpl in *. apply negb_true_iff in H. rewrite H. reflexivity.
  - change (ends_solid (String c (String c' s'))) with (ends_solid (String c' s')) in H.
    specialize (IH H). cbn [rstrip]. cbn [rstrip] in IH. rewrite IH. reflexivity.
Qed.

Lemma rstrip_ends s : rstrip s = EmptyString \/ ends_solid (rstrip s) = true.
Proof.
  induction s as [|c s IH]; [left; reflexivity|].
  cbn [rstrip]. destruct (rstrip s) as [|c' r] eqn:E.
  - destruct (is_space c) eqn:Hc; [left; reflexivity|].
    right. simpl. rewrite Hc. reflexivity.
  - right. destruct IH as [IH|IH]; [discriminate|]. exact IH.
Qed.

Lemma lstrip_solid s : starts_solid s = true -> lstrip s = s.
Proof.
  destruct s as [|c s]; intros H; [reflexivity|].
  simpl in *. apply negb_true_iff in H. rewrite H. reflexivity.
Qed.

Lemma lstrip_starts s : lstrip s = EmptyString \/ starts_solid (lstrip s) = true.
Proof.
  induction s as [|c s IH]; [left; reflexivity|].
  simpl. destruct (is_space c) eqn:Hc; [exact IH|].
  right. simpl. rewrite Hc. reflexivity.
Qed.

Lemma lstrip_ends s : ends_solid s = true -> ends_solid (lstrip s) = true.
Proof.
  induction s as [|c s IH]; intros H; [discriminate|].
  simpl lstrip. destruct (is_space c) eqn:Hc; [|exact H].
  destruct s as [|c' s'].
  - simpl in H. rewrite Hc in H. discriminate.
  - apply IH. exact H.
Qed.

(** Stripping twice is stripping once. *)
Lemma strip_idem s : strip (strip s) = strip s.
Proof.
  unfold strip at 2 3.
  destruct (rstrip_ends s) as [E|E].
  - rewrite E. reflexivity.
  - pose proof (lstrip_ends _ E) as He.
    destruct (lstrip_starts (rstrip s)) as [E'|Hs].
    + rewrite E' in He. discriminate.
    + unfold strip. rewrite (rstrip_solid _ He). apply lstrip_solid. exact Hs.
Qed.

Lemma upper_char_idem c : upper_char (upper_char c) = upper_char c.
Proof. destruct c as [[] [] [] [] [] [] [] []]; reflexivity. Qed.

Lemma upper_idem s : upper (upper s) = upper s.
Proof.
  induction s as [|c s IH]; [reflexivity|].
  unfold upper in *. simpl. rewrite upper_char_idem, IH. reflexivity.
Qed.

End PyStrMore.

(** ** Rounding to cents *)

(** [round(x, 2)] is within half a cent of [x]. *)
Lemma py_round2_near x :
  x - (1 # 200) <= py_round2 x /\ py_round2 x <= x + (1 # 200).
Proof.
  unfold py_round2.
  pose proof (Qfloor_le (x * 100)) as H1.
  pose proof (Qlt_floor (x * 100)) as H2.
  rewrite inject_Z_plus in H2.
  set (f := Qfloor (x * 100)) in *.
  change (inject_Z 1) with 1 in H2.
  assert (Hd : forall z, z / 100 == z * (1 # 100)) by (intros z; reflexivity).
  destruct (Qltb (x * 100 - inject_Z f) (1 # 2)) eqn:E1.
  - apply Qltb_lt in E1. rewrite Hd. split; lra.
  - apply Qltb_ge in E1.
    destruct (Qltb (1 # 2) (x * 100 - inject_Z f)) eqn:E2.
    + rewrite Hd, inject_Z_plus. change (inject_Z 1) with 1. split; lra.
    + apply Qltb_ge in E2. destruct (Z.even f).
      * rewrite Hd. split; lra.
      * rewrite Hd, inject_Z_plus. change (inject_Z 1) with 1. split; lra.
Qed.

(** ** More on the discount resolver *)

(** The override reads neither the base price nor the tier. *)
Lemma advertiser_overrides_flat pn on base tier base' tier' adv :
  advertiser_overrides pn on base tier adv = advertiser_overrides pn on base' tier' adv.
Proof. reflexivity. Qed.

Lemma advertiser_overrides_strip pn on base tier adv :
  advertiser_overrides (PyStr.strip pn) (PyStr.strip on) base tier adv
  = advertiser_overrides pn on base tier adv.
Proof.
  unfold advertiser_overrides. rewrite !PyStrMore.strip_idem. reflexivity.
Qed.

(** Blanks around the product and option names do not matter to
    [apply_discounts]: it gives the same price and label for the names as
    typed and for the names stripped. *)
Theorem apply_discounts_ignores_outer_blanks pn on base tier hop ppy adv bd :
  apply_discounts (PyStr.strip pn) (PyStr.strip on) base tier hop ppy adv bd
  = apply_discounts pn on base tier hop ppy adv bd.
Proof.
  unfold apply_discounts. rewrite !PyStrMore.strip_idem. reflexivity.
Qed.

(** The table of [apply_discounts] is closed: for a product whose stripped
    name is none of the five names the rules test, the base price comes back
    with no label, whatever the option, tier, flags and billing date. *)
Theorem apply_discounts_outside_table pn on base tier hop ppy adv bd :
  ~ List.In (PyStr.strip pn) rule_products ->
  apply_discounts pn on base tier hop ppy adv bd = (base, None).
Proof.
  intros H.
  assert (Hne : forall n, List.In n rule_products ->
                  String.eqb (PyStr.strip pn) n = false).
  { intros n Hn. apply String.eqb_neq. intros Heq. apply H. rewrite Heq. exact Hn. }
  assert (Hne' : forall n, List.In n rule_products ->
                   String.eqb (PyStr.strip (PyStr.strip pn)) n = false).
  { intros n Hn. rewrite PyStrMore.strip_idem. apply Hne. exact Hn. }
  unfold apply_discounts, override_then_rules, advertiser_overrides, product_rules.
  rewrite (Hne "Hotel Meetup"), (Hne "Email Blast"), (Hne "Chicago Does Reels"),
    (Hne "Ambassador Program"), (Hne "Chicago Does Interactive Map"),
    (Hne' "Email Blast"), (Hne' "Ambassador Program")
    by (unfold rule_products; simpl; tauto).
  cbn [andb]. destruct bd, adv; reflexivity.
Qed.

Lemma apply_discounts_outside_table_witness :
  apply_discounts " Visitor Guide " "Full page" 1200 "4X" true true true
    (Some (Date 2026 7 1))
  = (1200, None).
Proof.
  apply (apply_discounts_outside_table " Visitor Guide " "Full page" 1200 "4X"
           true true true (Some (Date 2026 7 1))).
  vm_compute. intros H. repeat (destruct H as [H|H]; [discriminate|]). exact H.
Defined.

(** Prepaying the year of "Chicago Does Interactive Map" gives the prepay
    label and a price within half a cent of nine tenths of the base price,
    for every option, tier, advertiser and bundle flag and billing date;
    without prepay the base price comes back unlabelled. Which of two
    neighbouring cents the rounding takes at a tie is left open: that
    depends on the float product. *)
Theorem interactive_map_prepay on base tier hop adv bd :
  (exists p,
      apply_discounts "Chicago Does Interactive Map" on base tier hop true adv bd
      = (p, Some "Prepay entire year – 10% off")
      /\ base * 0.9 - (1 # 200) <= p
      /\ p <= base * 0.9 + (1 # 200))
  /\ apply_discounts "Chicago Does Interactive Map" on base tier hop false adv bd
     = (base, None).
Proof.
  assert (Hs : PyStr.strip "Chicago Does Interactive Map" = "Chicago Does Interactive Map")
    by reflexivity.
  assert (H : forall ppy,
             apply_discounts "Chicago Does Interactive Map" on base tier hop ppy adv bd
             = if ppy then (py_round2 (base * 0.9), Some "Prepay entire year – 10% off")
               else (base, None)).
  { intros ppy. unfold apply_discounts, override_then_rules, advertiser_overrides,
      product_rules. rewrite !Hs. eval_name_tests. destruct bd, adv; reflexivity. }
  rewrite !H. split; [|reflexivity].
  exists (py_round2 (base * 0.9)). split; [reflexivity|].
  apply py_round2_near.
Qed.

(** When the override fires, [apply_discounts] returns it. *)
Lemma apply_discounts_override pn on base tier hop ppy adv bd p l :
  advertiser_overrides pn on base tier adv = (Some p, l) ->
  apply_discounts pn on base tier hop ppy adv bd = (p, l).
Proof.
  intros H.
  assert (Hname : String.eqb (PyStr.strip pn) "Hotel Meetup" = false).
  { apply String.eqb_neq. intros Heq.
    apply override_fires_name in H. rewrite Heq in H.
    destruct H as [H|H]; discriminate. }
  unfold apply_discounts. rewrite Hname. cbn [andb].
  unfold override_then_rules. rewrite advertiser_overrides_strip, H.
  destruct bd; reflexivity.
Qed.

(** ** The effective price pipeline *)

(** When the advertiser override fires for a product and option, the
    allocator's unit price is the override price, whatever the base price
    and whatever seasonal price the date has; the call raises only when the
    seasonal lookup does. The discount resolver returns the same price, for
    every base price, tier, flag and billing date: what is allocated is what
    is displayed. *)
Theorem override_wins_in_pipeline pn on base meta adv p l :
  advertiser_overrides pn on base "" adv = (Some p, l) ->
  get_effective_unit_price pn on base meta None adv = Some p
  /\ (forall d, booth_season_for_date meta on d <> None ->
        get_effective_unit_price pn on base meta (Some d) adv = Some p)
  /\ (forall d, booth_season_for_date meta on d = None ->
        get_effective_unit_price pn on base meta (Some d) adv = None)
  /\ (forall base' tier hop ppy bd,
        apply_discounts pn on base' tier hop ppy adv bd = (p, l)).
Proof.
  intros H. unfold get_effective_unit_price.
  split; [|split; [|split]].
  - simpl. rewrite H. reflexivity.
  - intros d Hd. destruct (booth_season_for_date meta on d) as [seasonal|]; [|congruence].
    simpl. rewrite (advertiser_overrides_flat _ _ _ _ base ""), H. reflexivity.
  - intros d Hd. rewrite Hd. reflexivity.
  - intros base' tier hop ppy bd. apply apply_discounts_override.
    rewrite (advertiser_overrides_flat _ _ _ _ base ""). exact H.
Qed.

(** An advertiser's concierge e-mail blast in the summer window. *)
Lemma override_wins_in_pipeline_witness :
  get_effective_unit_price "Email Blast" "Blast Email - concierge" 750
    one_window_meta None true = Some 450.0
  /\ apply_discounts "Email Blast" "Blast Email - concierge" 900 "1X" false true true
       (Some (Date 2026 5 1))
     = (450.0, Some "Existing advertiser contract rate").
Proof.
  destruct (override_wins_in_pipeline "Email Blast" "Blast Email - concierge" 750
              one_window_meta true 450.0 (Some "Existing advertiser contract rate")
              eq_refl) as (H1 & _ & _ & H4).
  split; [exact H1 | apply H4].
Defined.

(** ** More on the seasonal resolver *)

Lemma first_window_Some windows seasonal_map mmdd prices :
  first_window windows seasonal_map mmdd = Some prices ->
  exists label lo hi,
    List.In (label, (lo, hi)) windows
    /\ seasonal_map !! label = Some prices
    /\ (lo <= mmdd <= hi)%Z.
Proof.
  induction windows as [|[label [lo hi]] rest IH]; simpl; [discriminate|].
  destruct (seasonal_map !! label) as [pr|] eqn:E.
  - destruct ((lo <=? mmdd)%Z && (mmdd <=? hi)%Z) eqn:Hin.
    + intros [= <-]. exists label, lo, hi. split; [left; reflexivity|].
      split; [exact E | lia].
    + intros H. destruct (IH H) as (l' & lo' & hi' & Hl & Hm & Hr).
      exists l', lo', hi'. split; [right; exact Hl | split; assumption].
  - intros H. destruct (IH H) as (l' & lo' & hi' & Hl & Hm & Hr).
    exists l', lo', hi'. split; [right; exact Hl | split; assumption].
Qed.

(** A seasonal price is always one the table lists: when the resolver
    returns a price, the date lies in one of the seven known windows, the
    table has that window, and the price is what [float()] makes of the
    window's entry for the option. *)
Theorem seasonal_price_is_listed meta option_name d q :
  booth_season_for_date meta option_name d = Some (Some q) ->
  exists label lo hi prices v,
    List.In (label, (lo, hi)) (EXACT_WINDOWS ++ NAMED_WINDOWS)
    /\ (lo <= _mmdd d <= hi)%Z
    /\ seasonal_price_windows meta !! label = Some prices
    /\ prices !! option_name = Some v
    /\ py_float v = Some q.
Proof.
  unfold booth_season_for_date.
  destruct (bool_decide _); [discriminate|].
  assert (Hprice : forall prices,
             (q' ← window_price prices option_name; Some (Some q')) = Some (Some q) ->
             exists v, prices !! option_name = Some v /\ py_float v = Some q).
  { intros prices. unfold window_price.
    destruct (prices !! option_name) as [v|]; simpl; [|discriminate].
    destruct (py_float v) as [q'|] eqn:E; simpl; [|discriminate].
    intros [= <-]. exists v. auto. }
  destruct (first_window EXACT_WINDOWS _ _) as [prices|] eqn:E1.
  - intros H. destruct (Hprice _ H) as (v & Hv & Hq).
    destruct (first_window_Some _ _ _ _ E1) as (label & lo & hi & Hl & Hm & Hr).
    exists label, lo, hi, prices, v.
    split; [apply in_or_app; left; exact Hl | auto].
  - destruct (first_window NAMED_WINDOWS _ _) as [prices|] eqn:E2; [|discriminate].
    intros H. destruct (Hprice _ H) as (v & Hv & Hq).
    destruct (first_window_Some _ _ _ _ E2) as (label & lo & hi & Hl & Hm & Hr).
    exists label, lo, hi, prices, v.
    split; [apply in_or_app; right; exact Hl | auto].
Qed.

Lemma seasonal_price_is_listed_witness :
  exists label lo hi prices v,
    List.In (label, (lo, hi)) (EXACT_WINDOWS ++ NAMED_WINDOWS)
    /\ (lo <= _mmdd (Date 2025 5 1) <= hi)%Z
    /\ seasonal_price_windows one_window_meta !! label = Some prices
    /\ prices !! "Basic Booth" = Some v
    /\ py_float v = Some 1000.
Proof.
  apply (seasonal_price_is_listed one_window_meta "Basic Booth" (Date 2025 5 1) 1000).
  vm_compute. reflexivity.
Defined.

(** Decides the tests of a day number against the bounds of the windows. *)
Ltac window_tests :=
  repeat match goal with
         | |- context [(?a <=? ?b)%Z] =>
             let E := fresh "E" in
             destruct (a <=? b)%Z eqn:E;
             [apply Z.leb_le in E | apply Z.leb_gt in E]; try lia
         end;
  cbn [andb].

(** The windows do not overlap, so the one window that contains the date
    decides alone: if the table has it, the result is its entry for the
    option (an exception when it has none that converts), and if the table
    lacks it, the result is None, whatever other windows the table has. *)
Theorem seasonal_window_decides meta option_name d label lo hi :
  List.In (label, (lo, hi)) (EXACT_WINDOWS ++ NAMED_WINDOWS) ->
  (lo <= _mmdd d <= hi)%Z ->
  booth_season_for_date meta option_name d
  = match seasonal_price_windows meta !! label with
    | Some prices => q ← window_price prices option_name; Some (Some q)
    | None => Some None
    end.
Proof.
  intros Hin Hr. unfold booth_season_for_date.
  destruct (bool_decide (seasonal_price_windows meta = ∅)) eqn:D.
  - apply bool_decide_eq_true in D. rewrite D, lookup_empty. reflexivity.
  - clear D. generalize dependent (_mmdd d). intros mmdd Hr.
    generalize (seasonal_price_windows meta). intros m.
    unfold EXACT_WINDOWS, NAMED_WINDOWS in *. cbn [app] in Hin.
    repeat (destruct Hin as [Hin|Hin];
            [injection Hin as <- <- <-; cbn [first_window];
             repeat match goal with
                    | |- context [m !! ?k] =>
                        let E := fresh "L" in destruct (m !! k) eqn:E
                    end;
             window_tests; reflexivity|]).
    destruct Hin.
Qed.

Lemma seasonal_window_decides_witness :
  booth_season_for_date one_window_meta "Basic Booth" (Date 2025 9 15) = Some None.
Proof.
  apply (seasonal_window_decides one_window_meta "Basic Booth" (Date 2025 9 15)
           "9/1-9/30" 901 930).
  - right. right. left. reflexivity.
  - vm_compute. split; discriminate.
Defined.

(** From December 25 to December 31 no window applies: the resolver returns
    None for every table and option, and raises nothing. *)
Theorem no_season_after_christmas_eve meta option_name d :
  (1225 <= _mmdd d)%Z ->
  booth_season_for_date meta option_name d = Some None.
Proof.
  intros H. apply booth_season_no_window; apply first_window_None;
    repeat constructor; simpl; intros _; window_tests; reflexivity.
Qed.

Lemma no_season_after_christmas_eve_witness :
  booth_season_for_date one_window_meta "Basic Booth" (Date 2025 12 26) = Some None.
Proof.
  apply (no_season_after_christmas_eve one_window_meta "Basic Booth" (Date 2025 12 26)).
  vm_compute. discriminate.
Defined.

(** ** The exclusivity rule of the allocator *)

(** No option is closed to both kinds of client: an option that the scan
    skips for an advertiser is kept for a non-advertiser and conversely. The
    rule touches Summit Booth products only, and only options whose name
    mentions "advertiser". *)
Theorem skipped_never_both pname opt_name :
  (skipped pname opt_name true && skipped pname opt_name false = false)
  /\ (is_summit_booth pname = false ->
      forall adv, skipped pname opt_name adv = false)
  /\ (PyStr.contains "advertiser" (PyStr.lower opt_name) = false ->
      skipped pname opt_name false = false).
Proof.
  unfold skipped. split; [|split].
  - destruct (is_summit_booth pname); [|reflexivity].
    destruct (PyStr.contains "non-advertiser" _ || PyStr.contains "non advertiser" _);
      [rewrite andb_false_r | ]; reflexivity.
  - intros ->. reflexivity.
  - intros ->. destruct (is_summit_booth pname); reflexivity.
Qed.

(** ** More on the price point extractor *)

(** Tiers that the catalog already lists in ascending order of the key come
    back in the order listed. *)
Lemma sorted_ascending_id {A K : Type} (key : A -> K) (ltb : K -> K -> bool) l :
  StronglySorted (ascending key ltb) l -> sorted key ltb l = l.
Proof.
  induction 1 as [|x l Hs IH Hall]; [reflexivity|].
  cbn [sorted foldr]. fold (sorted key ltb l). rewrite IH.
  destruct l as [|y l']; [reflexivity|].
  simpl. apply Forall_cons in Hall as [Hxy _]. unfold ascending in Hxy.
  rewrite Hxy. reflexivity.
Qed.

(** Sorting is stable under repetition, and an option whose tiers are listed
    in ascending order of the key keeps them as listed. *)
Theorem price_points_keeps_ascending opt items :
  price_items opt = Some items ->
  (StronglySorted (ascending (fun t => _key t.1 t.2) key_ltb) items ->
     price_points opt = Some items)
  /\ (forall pts, price_points opt = Some pts ->
        sorted (fun t => _key t.1 t.2) key_ltb pts = pts).
Proof.
  intros H. unfold price_points. rewrite H. simpl. split.
  - intros Hs. rewrite (sorted_ascending_id _ _ _ Hs). reflexivity.
  - intros pts [= <-]. apply sorted_ascending_id.
    apply sorted_sorted; [apply key_ltb_asym | apply key_ge_trans].
Qed.

Lemma price_points_keeps_ascending_witness :
  price_points (Option_ (Some "A std")
                  (PyDict [("1X", PyNum 100); ("4X", PyNum 80); ("12X", PyNum 60)])
                  PyNone PyNone)
  = Some [("1X", 100); ("4X", 80); ("12X", 60)].
Proof.
  apply (proj1 (price_points_keeps_ascending
                  (Option_ (Some "A std")
                     (PyDict [("1X", PyNum 100); ("4X", PyNum 80); ("12X", PyNum 60)])
                     PyNone PyNone)
                  [("1X", 100); ("4X", 80); ("12X", 60)] eq_refl)).
  repeat constructor.
Defined.

Lemma max_from_spec kvs : forall best m,
  max_from best kvs = Some m ->
  best <= m
  /\ (m = best \/ exists k v, List.In (k, v) kvs /\ py_float v = Some m)
  /\ (forall k v x, List.In (k, v) kvs -> py_float v = Some x -> x <= m)
  /\ Forall (fun kv : string * pyval => is_Some (py_float kv.2)) kvs.
Proof.
  induction kvs as [|[k v] kvs IH]; intros best m H.
  - injection H as <-. repeat split; [lra | left; reflexivity | intros ? ? ? [] | constructor].
  - simpl in H. destruct (py_float v) as [x|] eqn:E; [|discriminate]. simpl in H.
    destruct (IH _ _ H) as (Hle & Hin & Hmax & Hall).
    assert (Hbx : best <= m /\ x <= m).
    { destruct (Qltb best x) eqn:Q; [apply Qltb_lt in Q | apply Qltb_ge in Q]; split; lra. }
    split; [tauto|]. split; [|split].
    + destruct Hin as [->|(k' & v' & Hin & Hf)].
      * destruct (Qltb best x); [right; exists k, v; split; [left; reflexivity | exact E]
                                | left; reflexivity].
      * right. exists k', v'. split; [right; exact Hin | exact Hf].
    + intros k' v' x' [[= <- <-]|Hin'] Hf.
      * rewrite E in Hf. injection Hf as <-. tauto.
      * eapply Hmax; eassumption.
    + constructor; [simpl; rewrite E; eexists; reflexivity | exact Hall].
Qed.

(** [first_known_price] and [price_points] read the same pricing shape.
    When the first returns a price, the second returns a non-empty list, the
    price is that of one of its points, and no point is dearer. When the
    first returns None the option has no shape and the second returns the
    empty list. On an empty price map the first raises (the maximum of
    nothing) where the second returns the empty list. *)
Theorem first_known_price_is_top opt :
  (forall m, first_known_price opt = Some (Some m) ->
     exists pts,
       price_points opt = Some pts
       /\ (exists lbl, List.In (lbl, m) pts)
       /\ (forall lbl q, List.In (lbl, q) pts -> q <= m))
  /\ (first_known_price opt = Some None -> price_points opt = Some [])
  /\ (price_usd opt = PyDict [] ->
      first_known_price opt = None /\ price_points opt = Some []).
Proof.
  assert (Hdict : forall kvs m,
             max_of_values kvs = Some m ->
             exists items,
               float_items kvs = Some items
               /\ (exists lbl, List.In (lbl, m) items)
               /\ (forall lbl q, List.In (lbl, q) items -> q <= m)).
  { intros [|[k v] kvs] m H; [discriminate|]. simpl in H.
    destruct (py_float v) as [x|] eqn:E; [|discriminate]. simpl in H.
    destruct (max_from_spec _ _ _ H) as (Hle & Hin & Hmax & Hall).
    assert (Hall' : Forall (fun kv : string * pyval => is_Some (py_float kv.2))
                      ((k, v) :: kvs))
      by (constructor; [simpl; rewrite E; eexists; reflexivity | exact Hall]).
    apply float_items_Some in Hall' as [items Hitems].
    exists items. split; [exact Hitems|].
    unfold float_items in Hitems.
    assert (Hback : forall lbl q, List.In (lbl, q) items ->
                      exists v', List.In (lbl, v') ((k, v) :: kvs) /\ py_float v' = Some q).
    { intros lbl q Hq. destruct (mapM_In _ _ _ Hitems _ Hq) as ([k' v'] & Hkv & Hf).
      simpl in Hf. destruct (py_float v') as [x'|] eqn:E'; [|discriminate].
      injection Hf as <- <-. exists v'. auto. }
    assert (Hfwd : forall k' v' x', List.In (k', v') ((k, v) :: kvs) ->
                     py_float v' = Some x' -> List.In (k', x') items).
    { apply mapM_Some_1 in Hitems. clear - Hitems.
      induction Hitems as [|[k0 v0] y l l' Hxy _ IH]; intros k' v' x' Hin Hf; [destruct Hin|].
      simpl in Hxy. destruct Hin as [[= -> ->]|Hin].
      - rewrite Hf in Hxy. injection Hxy as <-. left. reflexivity.
      - right. eapply IH; eassumption. }
    split.
    - destruct Hin as [->|(k' & v' & Hin & Hf)].
      + exists k. apply (Hfwd k v x); [left; reflexivity | exact E].
      + exists k'. apply (Hfwd k' v' m); [right; exact Hin | exact Hf].
    - intros lbl q Hq. destruct (Hback _ _ Hq) as (v' & [[= <- <-]|Hin'] & Hf).
      + rewrite E in Hf. injection Hf as <-. exact Hle.
      + eapply Hmax; eassumption. }
  assert (Hpts : forall items m,
             price_items opt = Some items ->
             (exists lbl, List.In (lbl, m) items) ->
             (forall lbl q, List.In (lbl, q) items -> q <= m) ->
             exists pts,
               price_points opt = Some pts
               /\ (exists lbl, List.In (lbl, m) pts)
               /\ (forall lbl q, List.In (lbl, q) pts -> q <= m)).
  { intros items m Hi [lbl Hl] Hmax. unfold price_points. rewrite Hi. simpl.
    eexists. split; [reflexivity|]. split.
    - exists lbl. apply sorted_In. exact Hl.
    - intros lbl' q Hq. apply sorted_In in Hq. eapply Hmax. exact Hq. }
  split; [|split].
  - intros m. unfold first_known_price.
    destruct (price_usd opt) as [|q|f|kvs] eqn:E1;
      try (destruct (price_usd_by_plan opt) as [|q2|f2|kvs2] eqn:E2;
           try (destruct (pricing opt) as [|q3|f3|kvs3] eqn:E3));
      try discriminate;
      try (match goal with
           | |- (m' ← max_of_values ?k; _) = _ -> _ =>
               destruct (max_of_values k) as [m0|] eqn:M; [|discriminate];
               intros [= <-]; destruct (Hdict _ _ M) as (items & Hi & Hl & Hmax);
               apply (Hpts items); [unfold price_items; rewrite ?E1, ?E2, ?E3; exact Hi
                                   | exact Hl | exact Hmax]
           end);
      try (intros [= <-];
           apply (Hpts [("base", q)]);
           [unfold price_items; rewrite ?E1, ?E2, ?E3; reflexivity
           | exists "base"; left; reflexivity
           | intros lbl q' [[= <- <-]|[]]; lra]).
  - unfold first_known_price, price_points, price_items.
    destruct (price_usd opt) as [|q|f|kvs];
      try (destruct (price_usd_by_plan opt) as [|q2|f2|kvs2];
           try (destruct (pricing opt) as [|q3|f3|kvs3]));
      try discriminate; try reflexivity;
      try (destruct (max_of_values _); discriminate).
  - intros E. unfold first_known_price, price_points, price_items. rewrite E.
    split; reflexivity.
Qed.

(** The demo plan map: the priciest plan, and an empty tier map. *)
Lemma first_known_price_is_top_witness :
  (exists pts,
      price_points (Option_ (Some "B two") PyNone
                      (PyDict [("gold", PyNum 900); ("silver", PyNum 400)]) PyNone)
      = Some pts
      /\ (exists lbl, List.In (lbl, 900) pts)
      /\ (forall lbl q, List.In (lbl, q) pts -> q <= 900))
  /\ first_known_price (Option_ None (PyDict []) PyNone PyNone) = None.
Proof.
  split.
  - apply (proj1 (first_known_price_is_top _) 900). reflexivity.
  - apply (proj2 (proj2 (first_known_price_is_top
                           (Option_ None (PyDict []) PyNone PyNone)))).
    reflexivity.
Defined.

(** ** The cheapest candidate *)

(** The running minimum ends on the first candidate of least line price. *)
Lemma better_fold_first cands : forall b,
  exists c l1 l2,
    fold_left better cands (Some b) = Some c
    /\ b :: cands = l1 ++ c :: l2
    /\ (forall y, List.In y l1 -> line c < line y)
    /\ (forall y, List.In y l2 -> line c <= line y).
Proof.
  induction cands as [|x rest IH]; intros b.
  - exists b, [], []. repeat split; [intros y [] | intros y []].
  - cbn [fold_left better]. destruct (Qltb (line x) (line b)) eqn:E.
    + apply Qltb_lt in E.
      destruct (IH x) as (c & l1 & l2 & Hf & Hsplit & H1 & H2).
      exists c, (b :: l1), l2. split; [exact Hf|].
      split; [simpl; rewrite Hsplit; reflexivity|]. split; [|exact H2].
      intros y [<-|Hy]; [|apply H1; exact Hy].
      assert (line c <= line x); [|lra].
      destruct l1 as [|z l1].
      * injection Hsplit as -> _. lra.
      * injection Hsplit as <- _. apply Qlt_le_weak, H1. left. reflexivity.
    + apply Qltb_ge in E.
      destruct (IH b) as (c & l1 & l2 & Hf & Hsplit & H1 & H2).
      destruct l1 as [|z l1].
      * injection Hsplit as <- <-. exists b, [], (x :: rest).
        split; [exact Hf|]. split; [reflexivity|]. split; [intros y []|].
        intros y [<-|Hy]; [exact E | apply H2; exact Hy].
      * injection Hsplit as <- ->. exists c, (b :: x :: l1), l2.
        split; [exact Hf|]. split; [reflexivity|]. split; [|exact H2].
        intros y [<-|[<-|Hy]].
        -- apply H1. left. reflexivity.
        -- assert (line c < line b) by (apply H1; left; reflexivity). lra.
        -- apply H1. right. exact Hy.
Qed.

Lemma best_first cands c :
  fold_left better cands None = Some c ->
  exists l1 l2,
    cands = l1 ++ c :: l2
    /\ (forall y, List.In y l1 -> line c < line y)
    /\ (forall y, List.In y l2 -> line c <= line y).
Proof.
  destruct cands as [|b cands]; [discriminate|]. cbn [fold_left better].
  destruct (better_fold_first cands b) as (c' & l1 & l2 & Hf & Hsplit & H1 & H2).
  rewrite Hf. intros [= <-]. exists l1, l2. auto.
Qed.

Lemma best_least cands c :
  fold_left better cands None = Some c ->
  List.In c cands /\ forall y, List.In y cands -> line c <= line y.
Proof.
  intros H. destruct (best_first _ _ H) as (l1 & l2 & -> & H1 & H2). split.
  - apply in_or_app. right. left. reflexivity.
  - intros y Hy. apply in_app_or in Hy as [Hy|[<-|Hy]];
      [apply Qlt_le_weak, H1; exact Hy | lra | apply H2; exact Hy].
Qed.

Lemma mapM_pure {X Y : Type} (f : X -> Y) l :
  mapM (fun x => Some (f x)) l = Some (map f l).
Proof.
  induction l as [|x l IH]; [reflexivity|].
  simpl. rewrite IH. reflexivity.
Qed.

Lemma mapM_ext_in {X Y : Type} (f g : X -> option Y) l :
  (forall x, List.In x l -> f x = g x) -> mapM f l = mapM g l.
Proof.
  induction l as [|x l IH]; intros H; [reflexivity|].
  simpl. rewrite (H x) by (left; reflexivity).
  rewrite IH by (intros y Hy; apply H; right; exact Hy). reflexivity.
Qed.

(** Without a date and for a non-advertiser, the scan of a product that is
    no Summit Booth is the plain scan of [baseline_pick]. *)
Lemma product_lines_plain meta product :
  is_summit_booth (name product) = false ->
  product_lines meta None false (name product) product = plain_lines product.
Proof.
  intros Hs. unfold product_lines, plain_lines.
  erewrite mapM_ext_in; [reflexivity|].
  intros opt _. unfold option_lines, skipped. rewrite Hs.
  destruct (price_points opt) as [pts|]; [|reflexivity]. simpl.
  apply mapM_pure.
Qed.

(** [baseline_pick] returns None exactly for a product without price points;
    otherwise it returns the candidate of least line price, the first of them
    in catalog order. For a product that is no Summit Booth, Phase A of the
    allocator, run without a date for a non-advertiser, makes the same pick
    and adds its line price to the subtotal. *)
Theorem baseline_pick_is_cheapest product cands :
  plain_lines product = Some cands ->
  (baseline_pick product = Some None <-> cands = [])
  /\ (forall pick, baseline_pick product = Some (Some pick) ->
        exists c l1 l2,
          pick = pick_of c
          /\ cands = l1 ++ c :: l2
          /\ (forall y, List.In y l1 -> line c < line y)
          /\ (forall y, List.In y l2 -> line c <= line y))
  /\ (is_summit_booth (name product) = false ->
      forall meta picks s,
        baseline_step meta None false (picks, s) (name product, product)
        = Some (match baseline_pick product with
                | Some (Some pick) =>
                    (dict_set picks (name product) pick,
                     s + effective_line_price (Some product) pick.1.2 pick.2)
                | _ => (picks, s)
                end)).
Proof.
  intros H. unfold baseline_pick. rewrite H. simpl. split; [|split].
  - destruct (fold_left better cands None) as [c|] eqn:E; simpl.
    + split; [discriminate|]. intros ->. discriminate.
    + split; [intros _; apply baseline_best_None; exact E | reflexivity].
  - intros pick. destruct (fold_left better cands None) as [c|] eqn:E; [|discriminate].
    simpl. intros [= <-]. destruct (best_first _ _ E) as (l1 & l2 & H0 & H1 & H2).
    exists c, l1, l2. auto.
  - intros Hs meta picks s. unfold baseline_step.
    rewrite (product_lines_plain _ _ Hs), H. simpl.
    destruct (fold_left better cands None) as [[[[o l] e] nl]|]; reflexivity.
Qed.

(** The demo product with durations: "1X" at 100 is cheaper per line than
    "4X" at 4 x 80 and "12X" at 12 x 60. *)
Lemma baseline_pick_is_cheapest_witness :
  baseline_pick demo_tiered = Some (Some ("A std", "1X", 100))
  /\ exists c l1 l2,
      ("A std", "1X", 100) = pick_of c
      /\ [("A std", "1X", 100, 100); ("A std", "4X", 80, 320); ("A std", "12X", 60, 720)]
         = l1 ++ c :: l2
      /\ (forall y, List.In y l1 -> line c < line y)
      /\ (forall y, List.In y l2 -> line c <= line y).
Proof.
  split; [reflexivity|].
  apply (proj1 (proj2 (baseline_pick_is_cheapest demo_tiered
           [("A std", "1X", 100, 100); ("A std", "4X", 80, 320); ("A std", "12X", 60, 720)]
           eq_refl))).
  reflexivity.
Defined.

(** ** The category partition *)

Lemma normalize_tourist raw :
  normalize_category raw = Some "tourist" <->
  exists s, raw = Some s /\ s <> ""
            /\ PyStr.contains "tourist" (PyStr.lower (PyStr.strip s)) = true.
Proof.
  split.
  - destruct raw as [[|c s]|]; simpl; try discriminate.
    set (r := PyStr.lower (PyStr.strip (String c s))).
    destruct (PyStr.contains "tourist" r) eqn:E1.
    + intros _. exists (String c s). repeat split; [discriminate | exact E1].
    + destruct (PyStr.contains "industry" r); [discriminate|].
      intros [= Hr]. rewrite Hr in E1. discriminate.
  - intros (s & -> & Hs & Hc). destruct s as [|c s]; [congruence|].
    unfold normalize_category. rewrite Hc. reflexivity.
Qed.

Lemma normalize_industry raw :
  normalize_category raw = Some "industry" <->
  exists s, raw = Some s /\ s <> ""
            /\ PyStr.contains "tourist" (PyStr.lower (PyStr.strip s)) = false
            /\ PyStr.contains "industry" (PyStr.lower (PyStr.strip s)) = true.
Proof.
  split.
  - destruct raw as [[|c s]|]; simpl; try discriminate.
    set (r := PyStr.lower (PyStr.strip (String c s))).
    destruct (PyStr.contains "tourist" r) eqn:E1; [discriminate|].
    destruct (PyStr.contains "industry" r) eqn:E2.
    + intros _. exists (String c s). repeat split; [discriminate | exact E1 | exact E2].
    + intros [= Hr]. rewrite Hr in E2. discriminate.
  - intros (s & -> & Hs & Hc1 & Hc2). destruct s as [|c s]; [congruence|].
    unfold normalize_category. rewrite Hc1, Hc2. reflexivity.
Qed.

Lemma partition_run categories l : forall t i,
  NoDup (map fst l) ->
  (forall k, k ∈ map fst l -> (k ∉ map fst t) /\ (k ∉ map fst i)) ->
  fold_left (partition_step categories) l (t, i)
  = (t ++ List.filter
            (fun e => bool_decide
                        (normalize_category (categories !! e.1) = Some "tourist")) l,
     i ++ List.filter
            (fun e => bool_decide
                        (normalize_category (categories !! e.1) = Some "industry")) l).
Proof.
  induction l as [|[k p] l IH]; intros t i Hnd Hfresh.
  - simpl. rewrite !app_nil_r. reflexivity.
  - simpl in Hnd. apply NoDup_cons in Hnd as [Hk Hnd].
    destruct (Hfresh k) as [Hkt Hki]; [left|].
    assert (Ht : ~ List.In k (map fst t)) by (rewrite <- list_elem_of_In; exact Hkt).
    assert (Hi : ~ List.In k (map fst i)) by (rewrite <- list_elem_of_In; exact Hki).
    cbn [fold_left List.filter]. unfold partition_step at 2. cbn [fst snd].
    destruct (bool_decide (normalize_category (categories !! k) = Some "tourist")) eqn:D1.
    + apply bool_decide_eq_true in D1.
      rewrite bool_decide_eq_false_2 by (rewrite D1; discriminate).
      rewrite (dict_set_fresh _ _ _ Ht), IH; [rewrite <- app_assoc; reflexivity | exact Hnd |].
      intros k' Hk'. destruct (Hfresh k') as [H1 H2]; [right; exact Hk'|].
      split; [|exact H2]. rewrite map_app. intros H.
      apply elem_of_app in H as [H|H]; [contradiction|].
      apply list_elem_of_singleton in H. simpl in H. subst k'. contradiction.
    + destruct (bool_decide (normalize_category (categories !! k) = Some "industry")).
      * rewrite (dict_set_fresh _ _ _ Hi), IH; [rewrite <- app_assoc; reflexivity | exact Hnd |].
        intros k' Hk'. destruct (Hfresh k') as [H1 H2]; [right; exact Hk'|].
        split; [exact H1|]. rewrite map_app. intros H.
        apply elem_of_app in H as [H|H]; [contradiction|].
        apply list_elem_of_singleton in H. simpl in H. subst k'. contradiction.
      * apply IH; [exact Hnd|]. intros k' Hk'. apply Hfresh. right. exact Hk'.
Qed.

(** The partition of a catalog (a dict: no name twice) keeps the catalog's
    order and records. A product goes to the tourist pool exactly when its
    category text, stripped and lower-cased, contains "tourist"; to the
    industry pool exactly when it contains "industry" and not "tourist"; a
    product without category, or with any other text, goes to neither. No
    product is in both pools. *)
Theorem partition_by_category_pools catalog categories :
  NoDup (map fst catalog) ->
  let pools := partition_by_category catalog categories in
  (forall k p,
      List.In (k, p) pools.1 <->
      List.In (k, p) catalog
      /\ exists s, categories !! k = Some s /\ s <> ""
           /\ PyStr.contains "tourist" (PyStr.lower (PyStr.strip s)) = true)
  /\ (forall k p,
        List.In (k, p) pools.2 <->
        List.In (k, p) catalog
        /\ exists s, categories !! k = Some s /\ s <> ""
             /\ PyStr.contains "tourist" (PyStr.lower (PyStr.strip s)) = false
             /\ PyStr.contains "industry" (PyStr.lower (PyStr.strip s)) = true)
  /\ (forall k, ~ (List.In k (map fst pools.1) /\ List.In k (map fst pools.2)))
  /\ sublist pools.1 catalog
  /\ sublist pools.2 catalog.
Proof.
  intros Hnd pools. unfold pools, partition_by_category.
  rewrite partition_run; [|exact Hnd | intros k _; split; apply not_elem_of_nil].
  cbn [fst snd app].
  assert (Hsub : forall (f : string * ProductRecord -> bool) l,
             sublist (List.filter f l) l).
  { intros f l. induction l as [|x l IH]; simpl; [constructor|].
    destruct (f x); [apply sublist_skip | apply sublist_cons]; exact IH. }
  assert (Ht : forall k p,
             List.In (k, p) (List.filter
               (fun e => bool_decide
                  (normalize_category (categories !! e.1) = Some "tourist")) catalog) <->
             List.In (k, p) catalog
             /\ exists s, categories !! k = Some s /\ s <> ""
                  /\ PyStr.contains "tourist" (PyStr.lower (PyStr.strip s)) = true).
  { intros k p. rewrite filter_In. cbn [fst].
    rewrite bool_decide_eq_true, normalize_tourist. reflexivity. }
  assert (Hi : forall k p,
             List.In (k, p) (List.filter
               (fun e => bool_decide
                  (normalize_category (categories !! e.1) = Some "industry")) catalog) <->
             List.In (k, p) catalog
             /\ exists s, categories !! k = Some s /\ s <> ""
                  /\ PyStr.contains "tourist" (PyStr.lower (PyStr.strip s)) = false
                  /\ PyStr.contains "industry" (PyStr.lower (PyStr.strip s)) = true).
  { intros k p. rewrite filter_In. cbn [fst].
    rewrite bool_decide_eq_true, normalize_industry. reflexivity. }
  split; [exact Ht|]. split; [exact Hi|]. split; [|split; apply Hsub].
  intros k [H1 H2].
  apply in_map_iff in H1 as ([k1 p1] & Hk1 & H1).
  apply in_map_iff in H2 as ([k2 p2] & Hk2 & H2).
  simpl in Hk1, Hk2. subst k1 k2.
  apply Ht in H1 as (_ & s1 & Hs1 & _ & Hc1).
  apply Hi in H2 as (_ & s2 & Hs2 & _ & Hc2 & _).
  congruence.
Qed.

(** The demo catalog: A is for tourists, B names both audiences and goes to
    the tourist pool, C has no category. *)
Lemma partition_by_category_pools_witness :
  partition_by_category demo_products
    (<["A" := " Tourist "]> (<["B" := "Industry and tourist"]> ∅))
  = ([("A", demo_tiered); ("B", demo_plans)], [])
  /\ sublist
       (partition_by_category demo_products
          (<["A" := " Tourist "]> (<["B" := "Industry and tourist"]> ∅))).1
       demo_products.
Proof.
  split; [vm_compute; reflexivity|].
  apply (partition_by_category_pools demo_products
           (<["A" := " Tourist "]> (<["B" := "Industry and tourist"]> ∅))).
  apply (bool_decide_unpack _). vm_compute. exact I.
Defined.

(** ** The eligibility filter *)

Lemma filter_sublist {X : Type} (f : X -> bool) l : sublist (List.filter f l) l.
Proof.
  induction l as [|x l IH]; simpl; [constructor|].
  destruct (f x); [apply sublist_skip | apply sublist_cons]; exact IH.
Qed.

Lemma filter_summit_booth_sub rec profile_text adv :
  sublist (price_options (filter_summit_booth rec profile_text adv))
    (price_options rec).
Proof.
  unfold filter_summit_booth.
  destruct (negb _ || negb _); [reflexivity|].
  destruct (_contains_all _ _); [apply filter_sublist|].
  destruct (_contains_any _ _); [apply filter_sublist|].
  match goal with
  | |- context [match ?l with [] => _ | _ :: _ => _ end] => destruct l eqn:E
  end.
  - apply filter_sublist.
  - cbn [with_options price_options]. rewrite <- E. apply filter_sublist.
Qed.

Lemma filter_summit_booth_fields rec profile_text adv :
  name (filter_summit_booth rec profile_text adv) = name rec
  /\ category (filter_summit_booth rec profile_text adv) = category rec
  /\ duration_quarter_map (filter_summit_booth rec profile_text adv)
     = duration_quarter_map rec.
Proof.
  unfold filter_summit_booth.
  destruct (negb _ || negb _); [auto|].
  destruct (_contains_all _ _); [auto|].
  destruct (_contains_any _ _); [auto|].
  match goal with
  | |- context [match ?l with [] => _ | _ :: _ => _ end] => destruct l
  end; auto.
Qed.

(** [filter_summit_booth] only narrows: the result has the name, category
    and durations of the record, and its options are options of the record,
    unaltered and in the same order. A record whose own name is no Summit
    Booth comes back as it is. For a Summit Booth, a profile that mentions
    both "cvb" and "illinois" keeps exactly the "Illinois CVB" options,
    whatever else the profile says and whatever the advertiser flag is. The
    basic-rate option that the filter keys on for a flag is never skipped by
    the allocator run with the same flag, and the advertiser one is skipped
    by the allocator run for a non-advertiser. *)
Theorem filter_summit_booth_narrows rec profile_text adv :
  let out := filter_summit_booth rec profile_text adv in
  name out = name rec
  /\ category out = category rec
  /\ duration_quarter_map out = duration_quarter_map rec
  /\ sublist (price_options out) (price_options rec)
  /\ (is_summit_booth (name rec) = false -> out = rec)
  /\ (is_summit_booth (name rec) = true ->
      _contains_all profile_text ["cvb"; "illinois"] = true ->
      price_options out
      = List.filter (fun o => is_label (name_or_empty o) "Illinois CVB")
          (price_options rec))
  /\ (forall pname,
        skipped pname "Basic Booth — advertiser rate" true = false
        /\ skipped pname "Basic Booth — non-advertiser rate" false = false
        /\ (is_summit_booth pname = true ->
            skipped pname "Basic Booth — advertiser rate" false = true)).
Proof.
  intros out. unfold out.
  destruct (filter_summit_booth_fields rec profile_text adv) as (H1 & H2 & H3).
  split; [exact H1|]. split; [exact H2|]. split; [exact H3|].
  split; [apply filter_summit_booth_sub|].
  split; [|split].
  - unfold filter_summit_booth, is_summit_booth.
    destruct (PyStr.contains "summit" _), (PyStr.contains "booth" _);
      try discriminate; reflexivity.
  - unfold filter_summit_booth, is_summit_booth.
    destruct (PyStr.contains "summit" _), (PyStr.contains "booth" _);
      try discriminate.
    intros _ ->. reflexivity.
  - intros pname. unfold skipped. destruct (is_summit_booth pname).
    + repeat split; reflexivity.
    + repeat split; try reflexivity. discriminate.
Qed.

Lemma filter_summit_booth_narrows_witness :
  price_options
    (filter_summit_booth demo_booth "An Illinois CVB, also a DMO" (Some true))
  = [Option_ (Some "Illinois CVB rate") (PyNum 1200) PyNone PyNone].
Proof.
  rewrite (proj1 (proj2 (proj2 (proj2 (proj2 (proj2
             (filter_summit_booth_narrows demo_booth "An Illinois CVB, also a DMO"
                (Some true)))))))
             eq_refl eq_refl).
  reflexivity.
Defined.

Lemma summit_rules_run profile_text adv l : forall new,
  NoDup (map fst l) ->
  (forall k, k ∈ map fst l -> k ∉ map fst new) ->
  fold_left
    (fun new (entry : string * ProductRecord) =>
       if is_summit_booth entry.1
       then dict_set new entry.1
              (filter_summit_booth entry.2 profile_text (Some adv))
       else dict_set new entry.1 entry.2)
    l new
  = new ++ map (fun e : string * ProductRecord =>
                  (e.1, if is_summit_booth e.1
                        then filter_summit_booth e.2 profile_text (Some adv)
                        else e.2)) l.
Proof.
  induction l as [|[k p] l IH]; intros new Hnd Hfresh.
  - simpl. rewrite app_nil_r. reflexivity.
  - simpl in Hnd. apply NoDup_cons in Hnd as [Hk Hnd].
    assert (Hn : ~ List.In k (map fst new)).
    { rewrite <- list_elem_of_In. apply Hfresh. left. }
    assert (Hnext : forall v : ProductRecord,
               forall k', k' ∈ map fst l -> k' ∉ map fst (new ++ [(k, v)])).
    { intros v k' Hk'. rewrite map_app. intros H.
      apply elem_of_app in H as [H|H]; [apply (Hfresh k'); [right; exact Hk' | exact H]|].
      apply list_elem_of_singleton in H. simpl in H. subst k'. contradiction. }
    cbn [fold_left map fst snd].
    destruct (is_summit_booth k);
      rewrite (dict_set_fresh _ _ _ Hn), IH by (try exact Hnd; apply Hnext);
      rewrite <- app_assoc; reflexivity.
Qed.

(** [apply_summit_rules] keeps the catalog's product names and their order.
    Every product that is no Summit Booth passes through as it is, and a
    Summit Booth keeps a sub-list of its options. *)
Theorem apply_summit_rules_keeps_catalog catalog profile_text adv :
  NoDup (map fst catalog) ->
  let new := apply_summit_rules catalog profile_text adv in
  map fst new = map fst catalog
  /\ Forall2 (fun e e' : string * ProductRecord =>
                e'.1 = e.1
                /\ sublist (price_options e'.2) (price_options e.2)
                /\ (is_summit_booth e.1 = false -> e'.2 = e.2))
       catalog new.
Proof.
  intros Hnd new. unfold new, apply_summit_rules.
  rewrite summit_rules_run; [|exact Hnd | intros k _; apply not_elem_of_nil].
  cbn [app]. split.
  - rewrite map_map. reflexivity.
  - clear. induction catalog as [|[k p] l IH]; simpl; constructor; [|exact IH].
    cbn [fst snd]. split; [reflexivity|]. split.
    + destruct (is_summit_booth k); [|reflexivity].
      apply (filter_summit_booth_sub p profile_text (Some adv)).
    + intros ->. reflexivity.
Qed.

Lemma apply_summit_rules_keeps_catalog_witness :
  map fst (apply_summit_rules [("Summit — Booth", demo_booth); ("A", demo_tiered)]
             "small business" true)
  = ["Summit — Booth"; "A"].
Proof.
  apply (apply_summit_rules_keeps_catalog
           [("Summit — Booth", demo_booth); ("A", demo_tiered)] "small business" true).
  apply (bool_decide_unpack _). vm_compute. exact I.
Defined.

(** ** Duration keys *)

Lemma norm_keys_run items : forall (m : gmap string pyval) K,
  fold_left (fun out (kv : string * pyval) => <[PyStr.upper kv.1 := kv.2]> out)
    items m !! K
  = match find (fun kv : string * pyval => String.eqb (PyStr.upper kv.1) K)
            (rev items) with
    | Some kv => Some kv.2
    | None => m !! K
    end.
Proof.
  induction items as [|[k v] items IH]; intros m K; [reflexivity|].
  cbn [fold_left rev fst snd]. rewrite IH.
  assert (Hfind : forall (f : string * pyval -> bool) l x,
             find f (l ++ [x])
             = match find f l with
               | Some y => Some y
               | None => if f x then Some x else None
               end).
  { intros f l x. induction l as [|y l IHl]; simpl; [reflexivity|].
    destruct (f y); [reflexivity | exact IHl]. }
  rewrite Hfind. destruct (find _ (rev items)); [reflexivity|].
  cbn [fst]. destruct (String.eqb (PyStr.upper k) K) eqn:E.
  - apply String.eqb_eq in E. subst K. rewrite lookup_insert_eq. reflexivity.
  - apply String.eqb_neq in E. rewrite lookup_insert_ne by exact E. reflexivity.
Qed.

(** After the loader's [_norm_duration_keys] the duration lookup does not
    depend on the case of the key or of the tier label: an entry of the raw
    map is found by every label that upper-cases to the same text, provided
    no other entry with that upper-cased key carries another value. Every key
    of the normalised map is upper-case, and a label that matches no raw key
    counts one quarter. *)
Theorem norm_duration_keys_lookup items product :
  duration_quarter_map product = Some (_norm_duration_keys (Some items)) ->
  (forall k v tier,
      List.In (k, v) items ->
      (forall k' v', List.In (k', v') items ->
                     PyStr.upper k' = PyStr.upper k -> v' = v) ->
      PyStr.upper tier = PyStr.upper k ->
      duration_multiplier product tier = default 1 (py_float v))
  /\ (forall tier,
        (forall k v, List.In (k, v) items -> PyStr.upper k <> PyStr.upper tier) ->
        duration_multiplier product tier = 1)
  /\ (forall K v,
        _norm_duration_keys (Some items) !! K = Some v ->
        PyStr.upper K = K /\ exists k, List.In (k, v) items /\ PyStr.upper k = K).
Proof.
  intros Hmap.
  assert (Hlook : forall K,
             _norm_duration_keys (Some items) !! K
             = match find (fun kv : string * pyval => String.eqb (PyStr.upper kv.1) K)
                       (rev items) with
               | Some kv => Some kv.2
               | None => None
               end).
  { intros K. unfold _norm_duration_keys. cbn [default].
    rewrite norm_keys_run, lookup_empty. reflexivity. }
  split; [|split].
  - intros k v tier Hin Huniq Hup. unfold duration_multiplier.
    rewrite Hmap. cbn [default]. rewrite Hlook, Hup.
    destruct (find _ (rev items)) as [[k' v']|] eqn:F.
    + apply find_some in F as [Hin' Heq]. apply in_rev in Hin'.
      apply String.eqb_eq in Heq. cbn [fst] in Heq.
      rewrite (Huniq k' v' Hin' Heq). reflexivity.
    + apply in_rev in Hin. pose proof (find_none _ _ F (k, v) Hin) as Hc.
      cbn [fst] in Hc. rewrite String.eqb_refl in Hc. discriminate.
  - intros tier Hnone. unfold duration_multiplier.
    rewrite Hmap. cbn [default]. rewrite Hlook.
    destruct (find _ (rev items)) as [[k' v']|] eqn:F; [|reflexivity].
    apply find_some in F as [Hin' Heq]. apply in_rev in Hin'.
    apply String.eqb_eq in Heq. cbn [fst] in Heq.
    exfalso. apply (Hnone k' v' Hin' Heq).
  - intros K v. rewrite Hlook.
    destruct (find _ (rev items)) as [[k' v']|] eqn:F; [|discriminate].
    intros [= <-]. apply find_some in F as [Hin' Heq]. apply in_rev in Hin'.
    apply String.eqb_eq in Heq. cbn [fst] in Heq. subst K.
    split; [apply PyStrMore.upper_idem | exists k'; auto].
Qed.

(** A raw map with lower-case keys, as the catalog JSON may have them. *)
Lemma norm_duration_keys_lookup_witness :
  duration_multiplier
    (Product "A" [] None
       (Some (_norm_duration_keys (Some [("4x", PyNum 4); ("12x", PyNum 12)]))))
    "4X"
  = 4.
Proof.
  apply (proj1 (norm_duration_keys_lookup [("4x", PyNum 4); ("12x", PyNum 12)]
                  (Product "A" [] None
                     (Some (_norm_duration_keys
                              (Some [("4x", PyNum 4); ("12x", PyNum 12)]))))
                  eq_refl) "4x" (PyNum 4) "4X").
  - left. reflexivity.
  - intros k' v' [Heq|[Heq|[]]] Hup; injection Heq as <- <-;
      [reflexivity | vm_compute in Hup; discriminate Hup].
  - reflexivity.
Defined.

(** [effective_line_price] looks the tier up under its upper-cased label
    only. An entry of the duration map whose key is not upper-case is never
    read: if no key of the map is upper-case, every tier counts one quarter
    and the line price is the base price. *)
Theorem lower_case_duration_keys_are_dead product m :
  duration_quarter_map product = Some m ->
  (forall K, is_Some (m !! K) -> PyStr.upper K <> K) ->
  forall tier base,
    duration_multiplier product tier = 1
    /\ effective_line_price (Some product) tier base == base.
Proof.
  intros Hm Hdead tier base.
  assert (H1 : duration_multiplier product tier = 1).
  { unfold duration_multiplier. rewrite Hm. simpl.
    destruct (m !! PyStr.upper tier) as [v|] eqn:E; [|reflexivity].
    exfalso. apply (Hdead (PyStr.upper tier)); [rewrite E; eexists; reflexivity|].
    apply PyStrMore.upper_idem. }
  split; [exact H1|].
  unfold effective_line_price. destruct (no_durations product); [reflexivity|].
  rewrite H1. unfold py_max. simpl. ring.
Qed.

Lemma lower_case_duration_keys_are_dead_witness :
  effective_line_price
    (Some (Product "A" [] None (Some {[ "4x" := PyNum 4 ]}))) "4x" 80
  == 80.
Proof.
  apply (lower_case_duration_keys_are_dead
           (Product "A" [] None (Some {[ "4x" := PyNum 4 ]}))
           {[ "4x" := PyNum 4 ]} eq_refl).
  intros K [v HK]. apply lookup_singleton_Some in HK as [<- _].
  vm_compute. discriminate.
Defined.

(** ** Pool budgets *)

(** The pool budgets of [compute_pools], which the audit prints, are those
    that [run_fill_to_cap] allocates against, rounded to cents: each is
    within half a cent of [total_budget * (pct / 100)]. *)
Theorem compute_pools_near_budgets total_budget tourist_pct industry_pct :
  let pools := compute_pools total_budget tourist_pct industry_pct in
  label pools.1 = "tourist"
  /\ label pools.2 = "industry"
  /\ total_budget * (tourist_pct / 100) - (1 # 200) <= budget pools.1
     <= total_budget * (tourist_pct / 100) + (1 # 200)
  /\ total_budget * (industry_pct / 100) - (1 # 200) <= budget pools.2
     <= total_budget * (industry_pct / 100) + (1 # 200).
Proof.
  simpl. split; [reflexivity|]. split; [reflexivity|].
  split; apply py_round2_near.
Qed.

(** ** More on the allocator *)

Section AllocatorMore.
Variable products : list (string * ProductRecord).
Variable meta : gmap string MetaRecord.
Variable chosen_date : option date.
Variable is_advertiser : bool.

Abbreviation scan' := (product_lines meta chosen_date is_advertiser).
Abbreviation lines' := (lines_of products meta chosen_date is_advertiser).
Abbreviation cur' := (cur_line_of products).
Abbreviation step' := (upgrade_step products meta chosen_date is_advertiser).
Abbreviation base_step' := (baseline_step meta chosen_date is_advertiser).
Abbreviation stuck' := (stuck products meta chosen_date is_advertiser).
Abbreviation upgraded' := (upgraded products meta chosen_date is_advertiser).
Abbreviation total' := (line_sum products).
Abbreviation loop' := (upgrade_loop products meta chosen_date is_advertiser).

(** A step either finds no dearer candidate that fits and changes nothing,
    or adopts one. *)
Lemma upgrade_step_split budget picks s b pname pick cands :
  lines' pname = Some cands ->
  (step' budget (picks, s, b) (pname, pick) = Some (picks, s, b)
   /\ stuck' budget s (pname, pick))
  \/ exists u,
      List.In u cands
      /\ cur' pname pick < line u
      /\ s - cur' pname pick + line u <= budget
      /\ step' budget (picks, s, b) (pname, pick)
         = Some (dict_set picks pname (pick_of u),
                 s - cur' pname pick + line u, true).
Proof.
  intros H. unfold stuck. cbn [fst snd]. rewrite H.
  unfold lines_of, cur_line_of, upgrade_step in *.
  destruct pick as [[cur_opt cur_lbl] cur_base].
  destruct (dict_get products pname) as [product|]; [|discriminate].
  cbn -[effective_line_price] in *. rewrite H. cbn -[effective_line_price].
  match goal with |- context [find ?f ?l] => destruct (find f l) as [u|] eqn:F end.
  - right. apply find_some in F as [Hin Hfit].
    apply sorted_In, filter_In in Hin as [Hin Hgt].
    apply Qltb_lt in Hgt. apply Qle_bool_iff in Hfit.
    exists u. destruct u as [[[o l] e] nl]. auto.
  - left. split; [reflexivity|]. intros cands' u [= <-] Hu Hlt.
    assert (Hin : List.In u
                    (sorted line Qltb
                       (List.filter
                          (fun c => Qltb (effective_line_price (Some product) cur_lbl cur_base)
                                      (line c)) cands))).
    { apply sorted_In, filter_In. split; [exact Hu | apply Qltb_lt; exact Hlt]. }
    pose proof (find_none _ _ F u Hin) as Hno. cbn beta in Hno.
    apply Qnot_le_lt. intros Hle. apply Qle_bool_iff in Hle. congruence.
Qed.

Lemma upgraded_refl e : upgraded' e e.
Proof. unfold upgraded. split; [reflexivity|]. split; [lra | left; reflexivity]. Qed.

Lemma upgraded_trans e1 e2 e3 : upgraded' e1 e2 -> upgraded' e2 e3 -> upgraded' e1 e3.
Proof.
  unfold upgraded. intros (K1 & L1 & C1) (K2 & L2 & C2). rewrite K1 in *.
  split; [congruence|]. split; [lra|].
  destruct C2 as [C2|C2]; [rewrite C2; exact C1 | right; exact C2].
Qed.

Lemma Forall2_upgraded_trans l1 : forall l2 l3,
  Forall2 upgraded' l1 l2 -> Forall2 upgraded' l2 l3 -> Forall2 upgraded' l1 l3.
Proof.
  induction l1 as [|e1 l1 IH]; intros l2 l3 H12 H23.
  - inversion H12; subst. inversion H23; subst. constructor.
  - inversion H12 as [|? e2 ? l2' He12 Hl12]; subst.
    inversion H23 as [|? e3 ? l3' He23 Hl23]; subst.
    constructor; [eapply upgraded_trans; eassumption | eapply IH; eassumption].
Qed.

Lemma Forall2_upgraded_keys l1 l2 :
  Forall2 upgraded' l1 l2 -> map fst l2 = map fst l1.
Proof.
  induction 1 as [|e e' l l' (K & _) _ IH]; [reflexivity|].
  simpl. rewrite K, IH. reflexivity.
Qed.

(** Once a pass has adopted an upgrade its flag stays set. *)
Lemma pass_keeps_flag budget l : forall st st',
  for_each (step' budget) st l = Some st' -> st.2 = true -> st'.2 = true.
Proof.
  induction l as [|[k p] l IH]; intros st st' Hrun Hflag.
  - injection Hrun as <-. exact Hflag.
  - cbn [for_each] in Hrun.
    destruct (step' budget st (k, p)) as [st1|] eqn:Es; [|discriminate].
    cbn [mbind option_bind] in Hrun. apply (IH _ _ Hrun).
    destruct st as [[picks s] b]. cbn [snd] in Hflag. subst b.
    unfold upgrade_step in Es. destruct p as [[o lb] e].
    destruct (dict_get products k); [|discriminate]. simpl in Es.
    destruct (scan' k _); [|discriminate]. simpl in Es.
    destruct (find _ _) as [[[[? ?] ?] ?]|]; injection Es as <-; reflexivity.
Qed.

(** One pass, in full: what it does to every pick, to the subtotal, and what
    a pass without change means. *)
Lemma pass_trace budget todo : forall done s b,
  NoDup (map fst (done ++ todo)) ->
  Forall (fun e : string * Pick => is_Some (lines' e.1)) todo ->
  exists todo' s' b',
    for_each (step' budget) (done ++ todo, s, b) todo = Some (done ++ todo', s', b')
    /\ Forall2 upgraded' todo todo'
    /\ s' - s == total' todo' - total' todo
    /\ (b' = false -> todo' = todo /\ s' = s /\ Forall (stuck' budget s) todo).
Proof.
  induction todo as [|[k pick] rest IH]; intros done s b Hnd Hok.
  - exists [], s, b. simpl. repeat split; [constructor | lra | constructor].
  - apply Forall_cons in Hok as [[cands Hc] Hrest].
    assert (Hk : ~ List.In k (map fst done)).
    { rewrite map_app in Hnd. apply NoDup_app in Hnd as (_ & Hdis & _).
      intros Hin. apply list_elem_of_In in Hin. apply (Hdis _ Hin). left. }
    assert (Hmid : forall v : Pick,
               done ++ (k, v) :: rest = (done ++ [(k, v)]) ++ rest)
      by (intros v; rewrite <- app_assoc; reflexivity).
    assert (Hnd' : forall v : Pick, NoDup (map fst ((done ++ [(k, v)]) ++ rest))).
    { intros v. rewrite <- Hmid. rewrite map_app in Hnd |- *. exact Hnd. }
    destruct (upgrade_step_split budget (done ++ (k, pick) :: rest) s b k pick cands Hc)
      as [[Hstep Hstuck] | (u & Hu & Hlt & Hfit & Hstep)].
    + destruct (IH (done ++ [(k, pick)]) s b (Hnd' pick) Hrest)
        as (todo' & s' & b' & Hrun & Hup & Hsum & Hb0).
      exists ((k, pick) :: todo'), s', b'.
      split; [|split; [|split]].
      * cbn [for_each]. rewrite Hstep. cbn [mbind option_bind].
        rewrite (Hmid pick), Hrun, <- app_assoc. reflexivity.
      * constructor; [apply upgraded_refl | exact Hup].
      * unfold line_sum in *. cbn [fold_right fst snd]. lra.
      * intros Hb'. destruct (Hb0 Hb') as (-> & -> & Hall).
        split; [reflexivity|]. split; [reflexivity|].
        constructor; assumption.
    + destruct (IH (done ++ [(k, pick_of u)])
                  (s - cur' k pick + line u) true (Hnd' (pick_of u)) Hrest)
        as (todo' & s' & b' & Hrun & Hup & Hsum & Hb0).
      pose proof (lines_line products meta chosen_date is_advertiser k cands Hc u Hu)
        as Hline.
      exists ((k, pick_of u) :: todo'), s', b'.
      split; [|split; [|split]].
      * cbn [for_each]. rewrite Hstep. cbn [mbind option_bind].
        rewrite (dict_set_middle _ _ _ _ _ Hk).
        rewrite (Hmid (pick_of u)), Hrun, <- app_assoc. reflexivity.
      * constructor; [|exact Hup]. unfold upgraded. cbn [fst snd].
        split; [reflexivity|]. split; [rewrite <- Hline; lra|].
        right. exists cands, u. auto.
      * unfold line_sum in *. cbn [fold_right fst snd]. rewrite <- Hline. lra.
      * intros Hb'.
        pose proof (pass_keeps_flag budget _ _ _ Hrun eq_refl) as Htrue.
        cbn [snd] in Htrue. congruence.
Qed.

(** The loop, in full: every final pick came from the pick it started as,
    the subtotal moved by what the line prices moved, and at the end no pick
    has a dearer candidate that fits. *)
Lemma loop_trace budget fuel : forall picks s picks' s',
  loop' budget fuel picks s = Finished (picks', s') ->
  NoDup (map fst picks) ->
  Forall (fun e : string * Pick => is_Some (lines' e.1)) picks ->
  Forall2 upgraded' picks picks'
  /\ s' - s == total' picks' - total' picks
  /\ Forall (stuck' budget s') picks'.
Proof.
  induction fuel as [|fuel IH]; intros picks s picks' s' Hloop Hnd Hok; [discriminate|].
  cbn [upgrade_loop] in Hloop. unfold upgrade_pass in Hloop.
  destruct (pass_trace budget picks [] s false Hnd Hok)
    as (picks1 & s1 & b1 & Hrun & Hup & Hsum & Hb0).
  cbn [app] in Hrun. rewrite Hrun in Hloop. destruct b1.
  - pose proof (Forall2_upgraded_keys _ _ Hup) as Hkeys.
    destruct (IH _ _ _ _ Hloop) as (Hup' & Hsum' & Hst).
    + rewrite Hkeys. exact Hnd.
    + clear - Hok Hkeys. revert picks1 Hkeys.
      induction Hok as [|e l He _ IHl]; intros [|e1 l1] Hkeys; try discriminate;
        constructor.
      * injection Hkeys as H1 _. rewrite H1. exact He.
      * apply IHl. injection Hkeys as _ H2. exact H2.
    + split; [eapply Forall2_upgraded_trans; eassumption|].
      split; [lra | exact Hst].
  - injection Hloop as <- <-. destruct (Hb0 eq_refl) as (-> & -> & Hall).
    split; [exact Hup|]. split; [lra | exact Hall].
Qed.

(** The subtotal of Phase A is the sum of the line prices of its picks, and
    each pick is the first cheapest candidate of its product. *)
Lemma baseline_trace l : forall picks s picks' s',
  for_each base_step' (picks, s) l = Some (picks', s') ->
  NoDup (map fst l) ->
  (forall k, k ∈ map fst l -> k ∉ map fst picks) ->
  (forall k p, List.In (k, p) l -> dict_get products k = Some p) ->
  exists added,
    picks' = picks ++ added
    /\ s' == s + total' added
    /\ Forall (fun e : string * Pick =>
                 exists cands c,
                   lines' e.1 = Some cands
                   /\ fold_left better cands None = Some c
                   /\ e.2 = pick_of c) added.
Proof.
  induction l as [|[k p] l IH]; intros picks s picks' s' Hrun Hnd Hfresh Hget.
  - injection Hrun as <- <-. exists []. rewrite app_nil_r.
    split; [reflexivity|]. split; [simpl; lra | constructor].
  - cbn [for_each] in Hrun.
    destruct (base_step' (picks, s) (k, p)) as [[picks1 s1]|] eqn:Hstep; [|discriminate].
    cbn [mbind option_bind] in Hrun.
    simpl in Hnd. apply NoDup_cons in Hnd as [Hk Hnd].
    assert (Hkp : ~ List.In k (map fst picks)).
    { rewrite <- list_elem_of_In. apply Hfresh. left. }
    assert (Hgk : dict_get products k = Some p) by (apply Hget; left; reflexivity).
    unfold baseline_step in Hstep.
    destruct (scan' k p) as [cands|] eqn:Hscan; [|discriminate].
    cbn [mbind option_bind] in Hstep.
    destruct (fold_left better cands None) as [c|] eqn:Hbest.
    + destruct c as [[[o lb] e] nl]. injection Hstep as <- <-.
      rewrite (dict_set_fresh _ _ _ Hkp) in Hrun.
      destruct (IH _ _ _ _ Hrun Hnd) as (added & -> & Hs & Hall).
      * intros k' Hk'. rewrite map_app. intros H.
        apply elem_of_app in H as [H|H]; [apply (Hfresh k'); [right; exact Hk' | exact H]|].
        apply list_elem_of_singleton in H. simpl in H. subst k'. contradiction.
      * intros k' p' Hin. apply Hget. right. exact Hin.
      * exists ((k, (o, lb, e)) :: added). rewrite <- app_assoc.
        split; [reflexivity|]. split.
        -- unfold line_sum in *. cbn [fold_right fst snd].
           unfold cur_line_of at 1. rewrite Hgk. cbn [fst snd].
           unfold effective_line_price.
           set (x := if no_durations p then e
                     else e * py_max (duration_multiplier p lb) 1) in *.
           clearbody x. lra.
        -- constructor; [|exact Hall]. cbn [fst snd].
           exists cands, (o, lb, e, nl). unfold lines_of. rewrite Hgk. simpl.
           rewrite Hscan. auto.
    + injection Hstep as <- <-.
      destruct (IH _ _ _ _ Hrun Hnd) as (added & -> & Hs & Hall).
      * intros k' Hk'. apply Hfresh. right. exact Hk'.
      * intros k' p' Hin. apply Hget. right. exact Hin.
      * exists added. auto.
Qed.

Lemma dict_get_NoDup {V : Type} (d : list (string * V)) k v :
  NoDup (map fst d) -> List.In (k, v) d -> dict_get d k = Some v.
Proof.
  induction d as [|[k' v'] d IH]; intros Hnd Hin; [destruct Hin|].
  simpl in Hnd. apply NoDup_cons in Hnd as [Hk' Hnd]. simpl.
  destruct Hin as [[= -> ->]|Hin].
  - rewrite String.eqb_refl. reflexivity.
  - destruct (String.eqb k' k) eqn:E; [|apply IH; assumption].
    apply String.eqb_eq in E. subst k'. exfalso. apply Hk'.
    apply list_elem_of_In, in_map_iff. exists (k, v). auto.
Qed.

(** Phase A on a catalog without a name twice. *)
Lemma baseline_facts picks0 s0 :
  NoDup (map fst products) ->
  baseline_picks products meta chosen_date is_advertiser = Some (picks0, s0) ->
  s0 == total' picks0
  /\ Forall (fun e : string * Pick =>
               exists cands c,
                 lines' e.1 = Some cands
                 /\ fold_left better cands None = Some c
                 /\ e.2 = pick_of c) picks0.
Proof.
  intros Hnd H. unfold baseline_picks in H.
  destruct (baseline_trace _ _ _ _ _ H Hnd) as (added & -> & Hs & Hall).
  - intros k _. apply not_elem_of_nil.
  - intros k p Hin. apply dict_get_NoDup; assumption.
  - cbn [app]. split; [lra | exact Hall].
Qed.

(** With the subtotal above the budget no step adopts anything. *)
Lemma pass_over_budget budget l : forall picks s b,
  budget < s ->
  Forall (fun e : string * Pick => is_Some (lines' e.1)) l ->
  for_each (step' budget) (picks, s, b) l = Some (picks, s, b).
Proof.
  induction l as [|[k pick] l IH]; intros picks s b Hover Hok; [reflexivity|].
  apply Forall_cons in Hok as [[cands Hc] Hok].
  cbn [for_each].
  destruct (upgrade_step_split budget picks s b k pick cands Hc)
    as [[Hstep _] | (u & _ & Hlt & Hfit & _)]; [|lra].
  rewrite Hstep. cbn [mbind option_bind]. apply IH; assumption.
Qed.

(** Phase B raises nothing once Phase A has returned. *)
Lemma loop_not_raised budget fuel : forall picks s,
  NoDup (map fst picks) ->
  Forall (fun e : string * Pick => is_Some (lines' e.1)) picks ->
  loop' budget fuel picks s <> Raised.
Proof.
  induction fuel as [|fuel IH]; intros picks s Hnd Hok; [discriminate|].
  cbn [upgrade_loop]. unfold upgrade_pass.
  destruct (pass_trace budget picks [] s false Hnd Hok)
    as (picks1 & s1 & b1 & Hrun & Hup & _).
  cbn [app] in Hrun. rewrite Hrun. destruct b1; [|discriminate].
  pose proof (Forall2_upgraded_keys _ _ Hup) as Hkeys.
  apply IH; [rewrite Hkeys; exact Hnd|].
  clear - Hok Hkeys. revert picks1 Hkeys.
  induction Hok as [|e l He _ IHl]; intros [|e1 l1] Hkeys; try discriminate;
    constructor.
  - injection Hkeys as H1 _. rewrite H1. exact He.
  - apply IHl. injection Hkeys as _ H2. exact H2.
Qed.

(** Phase A raises exactly when the scan of some product does. *)
Lemma baseline_raises l : forall st,
  for_each base_step' st l = None <->
  exists k p, List.In (k, p) l /\ scan' k p = None.
Proof.
  induction l as [|[k p] l IH]; intros [picks s].
  - simpl. split; [discriminate | intros (? & ? & [] & _)].
  - cbn [for_each].
    destruct (base_step' (picks, s) (k, p)) as [st1|] eqn:Es; cbn [mbind option_bind].
    + assert (E : scan' k p <> None).
      { unfold baseline_step in Es. destruct (scan' k p); [discriminate | discriminate Es]. }
      rewrite IH. split.
      * intros (k' & p' & Hin & Hs). exists k', p'. split; [right|]; assumption.
      * intros (k' & p' & [[= <- <-]|Hin] & Hs); [congruence|].
        exists k', p'. auto.
    + split; [|reflexivity]. intros _. exists k, p. split; [left; reflexivity|].
      unfold baseline_step in Es. destruct (scan' k p) as [cands|]; [|reflexivity].
      cbn [mbind option_bind] in Es.
      destruct (fold_left better cands None) as [[[[? ?] ?] ?]|]; discriminate.
Qed.

End AllocatorMore.

Lemma mapM_None {X Y : Type} (f : X -> option Y) l :
  mapM f l = None <-> exists x, List.In x l /\ f x = None.
Proof.
  induction l as [|x l IH]; simpl.
  - split; [discriminate | intros (? & [] & _)].
  - destruct (f x) as [y|] eqn:E; simpl.
    + destruct (mapM f l) as [k|]; simpl.
      * split; [discriminate|]. intros (x' & [<-|Hin] & Hx); [congruence|].
        assert (@None (list Y) = None) as _ by reflexivity.
        destruct IH as [_ IH]. discriminate IH. exists x'. auto.
      * split; [|reflexivity]. intros _. destruct IH as [IH _].
        destruct (IH eq_refl) as (x' & Hin & Hx). exists x'. auto.
    + split; [|reflexivity]. intros _. exists x. auto.
Qed.

Lemma demo_products_NoDup : NoDup (map fst demo_products).
Proof. apply (bool_decide_unpack _). vm_compute. exact I. Qed.

(** Fill to cap: when the allocator has finished, no pick has a dearer
    candidate of its product that would leave half a cent of the sub-budget
    unused, that is, swapping any pick for any dearer candidate would take
    the subtotal to the sub-budget or beyond it. The half cent keeps the
    statement clear of the rounding of the float comparison
    [subtotal - cur_line + new_line <= budget] when a swap lands on the
    budget itself. *)
Theorem no_upgrade_with_headroom_left products meta chosen_date is_advertiser
    budget fuel picks0 s0 picks s :
  baseline_picks products meta chosen_date is_advertiser = Some (picks0, s0) ->
  upgrade_loop products meta chosen_date is_advertiser budget fuel picks0 s0
  = Finished (picks, s) ->
  forall pname pick cands u,
    List.In (pname, pick) picks ->
    lines_of products meta chosen_date is_advertiser pname = Some cands ->
    List.In u cands ->
    cur_line_of products pname pick < line u ->
    budget - (1 # 200) < s - cur_line_of products pname pick + line u.
Proof.
  intros Hbase Hloop pname pick cands u Hin Hc Hu Hlt.
  destruct (baseline_ready _ _ _ _ _ _ Hbase) as [Hnd Hok].
  destruct (loop_trace _ _ _ _ _ _ _ _ _ _ Hloop Hnd Hok) as (_ & _ & Hst).
  rewrite Forall_forall in Hst.
  pose proof (Hst (pname, pick) (proj2 (list_elem_of_In _ _) Hin) cands u Hc Hu Hlt)
    as Hover.
  cbn [fst snd] in Hover. lra.
Qed.

(** The demo catalog with 1000: product A stays at "4X" because "12X" would
    bring the subtotal to 1120. *)
Lemma no_upgrade_with_headroom_left_witness :
  1000 - (1 # 200)
  < 720 - cur_line_of demo_products "A" ("A std", "4X", 80)
    + line ("A std", "12X", 60, 720).
Proof.
  apply (no_upgrade_with_headroom_left demo_products ∅ None false 1000 5
           demo_baseline 350 demo_final 720 eq_refl eq_refl
           "A" ("A std", "4X", 80)
           [("A std", "1X", 100, 100); ("A std", "4X", 80, 320);
            ("A std", "12X", 60, 720)]
           ("A std", "12X", 60, 720)).
  - left. reflexivity.
  - reflexivity.
  - right. right. left. reflexivity.
  - vm_compute. reflexivity.
Defined.

(** The subtotal that the Selection reports agrees with its picks: for a
    catalog without a name twice it is within half a cent of the sum of the
    line prices of the picks returned. The updates
    [subtotal - cur_line + new_line] of Phase B keep the subtotal in step
    with the picks they replace. *)
Theorem selection_subtotal_matches_picks products meta chosen_date is_advertiser
    budget fuel sel :
  NoDup (map fst products) ->
  greedy_fill_to_cap products meta chosen_date is_advertiser budget fuel
  = Finished sel ->
  line_sum products (picks sel) - (1 # 200) <= subtotal sel
  /\ subtotal sel <= line_sum products (picks sel) + (1 # 200).
Proof.
  intros Hndp. unfold greedy_fill_to_cap.
  destruct (baseline_picks products meta chosen_date is_advertiser)
    as [[picks0 s0]|] eqn:Hbase; [|discriminate].
  destruct (upgrade_loop _ _ _ _ _ _ _ _) as [[picks1 s]| |] eqn:Hloop;
    try discriminate.
  intros [= <-]. cbn [subtotal picks].
  destruct (baseline_ready _ _ _ _ _ _ Hbase) as [Hnd Hok].
  destruct (baseline_facts _ _ _ _ _ _ Hndp Hbase) as [Hs0 _].
  destruct (loop_trace _ _ _ _ _ _ _ _ _ _ Hloop Hnd Hok) as (_ & Hsum & _).
  pose proof (py_round2_near s) as [Hlo Hhi].
  split; lra.
Qed.

(** The demo catalog with 1000: the picks "4X" (4 x 80) and "silver" (400)
    against the subtotal 720.00. *)
Lemma selection_subtotal_matches_picks_witness :
  line_sum demo_products demo_final - (1 # 200) <= subtotal (Sel demo_final 720.00)
  /\ subtotal (Sel demo_final 720.00) <= line_sum demo_products demo_final + (1 # 200).
Proof.
  apply (selection_subtotal_matches_picks demo_products ∅ None false 1000 5
           (Sel demo_final 720.00)).
  - apply (bool_decide_unpack _). vm_compute. exact I.
  - vm_compute. reflexivity.
Defined.

(** Phase A picks, for every product, the first of its cheapest candidates:
    every candidate before it in catalog order has a strictly higher line
    price and none after it has a lower one. *)
Theorem baseline_is_first_cheapest products meta chosen_date is_advertiser
    picks0 s0 :
  NoDup (map fst products) ->
  baseline_picks products meta chosen_date is_advertiser = Some (picks0, s0) ->
  forall pname pick,
    List.In (pname, pick) picks0 ->
    exists cands c l1 l2,
      lines_of products meta chosen_date is_advertiser pname = Some cands
      /\ cands = l1 ++ c :: l2
      /\ pick = pick_of c
      /\ (forall y, List.In y l1 -> line c < line y)
      /\ (forall y, List.In y l2 -> line c <= line y).
Proof.
  intros Hndp Hbase pname pick Hin.
  destruct (baseline_facts _ _ _ _ _ _ Hndp Hbase) as [_ Hall].
  rewrite Forall_forall in Hall.
  destruct (Hall (pname, pick) (proj2 (list_elem_of_In _ _) Hin))
    as (cands & c & Hc & Hbest & Hp).
  destruct (best_first _ _ Hbest) as (l1 & l2 & Hsplit & H1 & H2).
  exists cands, c, l1, l2. auto.
Qed.

Lemma baseline_is_first_cheapest_witness :
  exists cands c l1 l2,
    lines_of demo_products ∅ None false "B" = Some cands
    /\ cands = l1 ++ c :: l2
    /\ ("B one", "base", 250) = pick_of c
    /\ (forall y, List.In y l1 -> line c < line y)
    /\ (forall y, List.In y l2 -> line c <= line y).
Proof.
  apply (baseline_is_first_cheapest demo_products ∅ None false demo_baseline 350).
  - apply (bool_decide_unpack _). vm_compute. exact I.
  - reflexivity.
  - right. left. reflexivity.
Defined.

(** Upgrades keep the products and never lower a line: the final picks are
    keyed like the baseline picks, in the same order, each with a line price
    at least that of the baseline pick, and each is a candidate that the scan
    of its product gives. *)
Theorem picks_stay_in_catalog products meta chosen_date is_advertiser
    budget fuel picks0 s0 picks s :
  NoDup (map fst products) ->
  baseline_picks products meta chosen_date is_advertiser = Some (picks0, s0) ->
  upgrade_loop products meta chosen_date is_advertiser budget fuel picks0 s0
  = Finished (picks, s) ->
  Forall2 (fun e0 e : string * Pick =>
             e.1 = e0.1
             /\ cur_line_of products e0.1 e0.2 <= cur_line_of products e.1 e.2)
    picks0 picks
  /\ (forall pname pick,
        List.In (pname, pick) picks ->
        exists cands c,
          lines_of products meta chosen_date is_advertiser pname = Some cands
          /\ List.In c cands
          /\ pick = pick_of c).
Proof.
  intros Hndp Hbase Hloop.
  destruct (baseline_ready _ _ _ _ _ _ Hbase) as [Hnd Hok].
  destruct (baseline_facts _ _ _ _ _ _ Hndp Hbase) as [_ Hall].
  destruct (loop_trace _ _ _ _ _ _ _ _ _ _ Hloop Hnd Hok) as (Hup & _ & _).
  clear - Hup Hall. induction Hup as [|e0 e l0 l (K & L & C) _ IH].
  - split; [constructor | intros ? ? []].
  - apply Forall_cons in Hall as [(cands0 & c0 & Hc0 & Hbest & Hp0) Hall].
    destruct (IH Hall) as [IH1 IH2]. split.
    + constructor; [|exact IH1]. split; [exact K | rewrite K; exact L].
    + intros pname pick [Heq|Hin]; [|apply IH2; exact Hin].
      destruct e as [k v]. injection Heq as -> ->. cbn [fst snd] in *. subst pname.
      destruct C as [C|(cands & u & Hc & Hu & C)].
      * exists cands0, c0. split; [exact Hc0|].
        split; [apply (best_least _ _ Hbest) | congruence].
      * exists cands, u. auto.
Qed.

Lemma picks_stay_in_catalog_witness :
  exists cands c,
    lines_of demo_products ∅ None false "B" = Some cands
    /\ List.In c cands
    /\ ("B two", "silver", 400) = pick_of c.
Proof.
  apply (proj2 (picks_stay_in_catalog demo_products ∅ None false 1000 5
                  demo_baseline 350 demo_final 720
                  demo_products_NoDup eq_refl eq_refl)).
  right. left. reflexivity.
Defined.

(** The Selection lists the picked products in catalog order: its keys are
    the names of the products of which the scan kept a price point, as the
    catalog orders them. *)
Theorem picks_follow_catalog_order products meta chosen_date is_advertiser
    budget fuel picks0 s0 picks s :
  NoDup (map fst products) ->
  baseline_picks products meta chosen_date is_advertiser = Some (picks0, s0) ->
  upgrade_loop products meta chosen_date is_advertiser budget fuel picks0 s0
  = Finished (picks, s) ->
  map fst picks
  = map fst (List.filter (has_lines meta chosen_date is_advertiser) products).
Proof.
  intros Hndp Hbase Hloop.
  destruct (baseline_ready _ _ _ _ _ _ Hbase) as [Hnd Hok].
  destruct (loop_trace _ _ _ _ _ _ _ _ _ _ Hloop Hnd Hok) as (Hup & _ & _).
  rewrite (Forall2_upgraded_keys _ _ _ _ _ _ Hup).
  unfold baseline_picks in Hbase.
  destruct (baseline_run meta chosen_date is_advertiser _ _ _ _ _ Hbase NoDup_nil_2)
    as (_ & _ & _ & Heq).
  apply (Heq Hndp). intros k _. apply not_elem_of_nil.
Qed.

Lemma picks_follow_catalog_order_witness :
  map fst demo_final = ["A"; "B"].
Proof.
  rewrite (picks_follow_catalog_order demo_products ∅ None false 1000 5
             demo_baseline 350 demo_final 720
             demo_products_NoDup eq_refl eq_refl).
  reflexivity.
Defined.

(** A baseline above the sub-budget is left as it is: when the subtotal of
    Phase A exceeds the budget, Phase B adopts nothing and ends after one
    pass with the baseline picks and subtotal. There is no downgrade. *)
Theorem baseline_over_budget_stays products meta chosen_date is_advertiser
    budget picks0 s0 fuel :
  baseline_picks products meta chosen_date is_advertiser = Some (picks0, s0) ->
  budget < s0 ->
  upgrade_loop products meta chosen_date is_advertiser budget (S fuel) picks0 s0
  = Finished (picks0, s0)
  /\ greedy_fill_to_cap products meta chosen_date is_advertiser budget (S fuel)
     = Finished (Sel picks0 (py_round2 s0)).
Proof.
  intros Hbase Hover.
  destruct (baseline_ready _ _ _ _ _ _ Hbase) as [Hnd Hok].
  assert (Hloop : upgrade_loop products meta chosen_date is_advertiser budget
                    (S fuel) picks0 s0 = Finished (picks0, s0)).
  { cbn [upgrade_loop]. unfold upgrade_pass.
    rewrite (pass_over_budget products meta chosen_date is_advertiser budget
               picks0 picks0 s0 false Hover Hok). reflexivity. }
  split; [exact Hloop|].
  unfold greedy_fill_to_cap. rewrite Hbase, Hloop. reflexivity.
Qed.

(** The demo catalog with a zero budget. *)
Lemma baseline_over_budget_stays_witness :
  greedy_fill_to_cap demo_products ∅ None false 0 1
  = Finished (Sel demo_baseline (py_round2 350)).
Proof.
  apply (baseline_over_budget_stays demo_products ∅ None false 0
           demo_baseline 350 0 eq_refl).
  reflexivity.
Defined.

(** The allocator raises exactly when the scan of one of the pool's products
    does, whatever the budget and the passes allowed; and a scan raises
    exactly when an option that is not skipped has a price that does not
    convert, or a price point whose effective unit price raises (the seasonal
    lookup). *)
Theorem allocator_raises_iff_scan_raises products meta chosen_date is_advertiser
    budget fuel :
  (greedy_fill_to_cap products meta chosen_date is_advertiser budget fuel = Raised
   <-> exists k p, List.In (k, p) products
                   /\ product_lines meta chosen_date is_advertiser k p = None)
  /\ (forall k p,
        product_lines meta chosen_date is_advertiser k p = None <->
        exists opt,
          List.In opt (price_options p)
          /\ skipped k (default k (opt_name opt)) is_advertiser = false
          /\ (price_points opt = None
              \/ exists pts lbl base,
                  price_points opt = Some pts
                  /\ List.In (lbl, base) pts
                  /\ get_effective_unit_price k (default k (opt_name opt)) base
                       (default empty_meta (meta !! k)) chosen_date is_advertiser
                     = None)).
Proof.
  split.
  - unfold greedy_fill_to_cap.
    destruct (baseline_picks products meta chosen_date is_advertiser)
      as [[picks0 s0]|] eqn:Hbase.
    + destruct (baseline_ready _ _ _ _ _ _ Hbase) as [Hnd Hok].
      pose proof (loop_not_raised products meta chosen_date is_advertiser budget fuel
                    picks0 s0 Hnd Hok) as Hnr.
      split.
      * destruct (upgrade_loop _ _ _ _ _ _ _ _) as [[? ?]| |]; try discriminate.
        congruence.
      * intros Hbad. exfalso. unfold baseline_picks in Hbase.
        apply (baseline_raises meta chosen_date is_advertiser products ([], 0)) in Hbad.
        congruence.
    + split; [|reflexivity]. intros _. unfold baseline_picks in Hbase.
      apply (baseline_raises meta chosen_date is_advertiser products ([], 0)). exact Hbase.
  - intros k p. unfold product_lines.
    destruct (mapM _ (price_options p)) as [per|] eqn:E; cbn [mbind option_bind].
    + split; [discriminate|]. intros (opt & Hin & Hskip & Hbad). exfalso.
      assert (Hopt : is_Some (option_lines meta chosen_date is_advertiser k p opt)).
      { apply (mapM_is_Some _ (price_options p)); [rewrite E; eexists; reflexivity | exact Hin]. }
      destruct Hopt as [cs Hcs]. unfold option_lines in Hcs. rewrite Hskip in Hcs.
      destruct Hbad as [Hpp|(pts & lbl & base & Hpp & Hpt & Hg)]; rewrite Hpp in Hcs;
        [discriminate|].
      cbn [mbind option_bind] in Hcs.
      pose proof (mapM_is_Some _ pts (ex_intro _ cs Hcs) (lbl, base) Hpt) as Hs.
      cbn [fst snd] in Hs.
      rewrite Hg in Hs. destruct Hs as [? Hs]. discriminate Hs.
    + split; [|reflexivity]. intros _.
      apply mapM_None in E as (opt & Hin & Hopt). exists opt. split; [exact Hin|].
      unfold option_lines in Hopt.
      destruct (skipped k (default k (opt_name opt)) is_advertiser); [discriminate|].
      split; [reflexivity|].
      destruct (price_points opt) as [pts|]; [|left; reflexivity].
      cbn [mbind option_bind] in Hopt.
      apply mapM_None in Hopt as ([lbl base] & Hpt & Hbad). right.
      exists pts, lbl, base. split; [reflexivity|]. split; [exact Hpt|].
      cbn [fst snd] in Hbad.
      destruct (get_effective_unit_price _ _ _ _ _ _); [discriminate | reflexivity].
Qed.

(** A step of a pass keeps a subtotal that is within the budget within it. *)
Lemma upgrade_step_within products meta chosen_date is_advertiser budget st e st' :
  upgrade_step products meta chosen_date is_advertiser budget st e = Some st' ->
  st.1.2 <= budget -> st'.1.2 <= budget.
Proof.
  destruct st as [[picks s] b], e as [k [[o l] e0]]. unfold upgrade_step.
  destruct (dict_get products k) as [product|]; [|discriminate].
  cbn -[effective_line_price].
  destruct (product_lines _ _ _ _ _) as [cands|]; [|discriminate].
  cbn -[effective_line_price].
  remember (effective_line_price (Some product) l e0) as cur.
  match goal with |- context [find ?f ?l] => destruct (find f l) as [u|] eqn:F end.
  - apply find_some in F as [_ Hfit]. apply Qle_bool_iff in Hfit.
    destruct u as [[[o' l'] e'] nl]. intros [= <-] _. exact Hfit.
  - intros [= <-] H. exact H.
Qed.

Lemma upgrade_loop_within products meta chosen_date is_advertiser budget fuel :
  forall picks s picks' s',
    upgrade_loop products meta chosen_date is_advertiser budget fuel picks s
    = Finished (picks', s') ->
    s <= budget -> s' <= budget.
Proof.
  assert (Hpass : forall l st st',
             for_each (upgrade_step products meta chosen_date is_advertiser budget) st l
             = Some st' ->
             st.1.2 <= budget -> st'.1.2 <= budget).
  { induction l as [|e l IH]; intros st st' Hrun Hs.
    - injection Hrun as <-. exact Hs.
    - cbn [for_each] in Hrun.
      destruct (upgrade_step _ _ _ _ _ st e) as [st1|] eqn:Es; [|discriminate].
      cbn [mbind option_bind] in Hrun. apply (IH _ _ Hrun).
      eapply upgrade_step_within; eassumption. }
  induction fuel as [|fuel IH]; intros picks s picks' s' Hloop Hs; [discriminate|].
  cbn [upgrade_loop] in Hloop. unfold upgrade_pass in Hloop.
  destruct (for_each _ _ _) as [[[p1 s1] b1]|] eqn:Hrun; [|discriminate].
  pose proof (Hpass _ _ _ Hrun Hs) as Hs1. cbn [fst snd] in Hs1.
  destruct b1; [eapply IH; eassumption | injection Hloop as <- <-; exact Hs1].
Qed.

(** The Selection's subtotal, which is rounded to cents, stays within half a
    cent of the sub-budget whenever the baseline was within the sub-budget,
    for any number of passes after which the allocator has finished. *)
Theorem selection_subtotal_near_budget products meta chosen_date is_advertiser
    budget fuel picks0 s0 sel :
  baseline_picks products meta chosen_date is_advertiser = Some (picks0, s0) ->
  s0 <= budget ->
  greedy_fill_to_cap products meta chosen_date is_advertiser budget fuel
  = Finished sel ->
  subtotal sel <= budget + (1 # 200).
Proof.
  intros Hbase Hs0. unfold greedy_fill_to_cap. rewrite Hbase.
  destruct (upgrade_loop _ _ _ _ _ _ _ _) as [[picks s]| |] eqn:Hloop; try discriminate.
  intros [= <-]. cbn [subtotal].
  pose proof (upgrade_loop_within _ _ _ _ _ _ _ _ _ _ Hloop Hs0) as Hs.
  pose proof (py_round2_near s) as [_ Hr]. lra.
Qed.

(** The two-tier product whose upper tier fits a budget of 100.007 by a
    tenth of a cent. *)
Lemma selection_subtotal_near_budget_witness :
  subtotal (Sel [("P", ("P", "b", 100.006))] (py_round2 100.006))
  <= 100.007 + (1 # 200).
Proof.
  apply (selection_subtotal_near_budget [("P", cents_product)] ∅ None false
           100.007 3 [("P", ("P", "a", 100))] 100
           (Sel [("P", ("P", "b", 100.006))] (py_round2 100.006)) eq_refl).
  - lra.
  - reflexivity.
Defined.

(** ** More on the pool orchestrator *)

Lemma Qltb_comp a b c d : a == c -> b == d -> Qltb a b = Qltb c d.
Proof.
  intros H1 H2. destruct (Qltb c d) eqn:E.
  - apply Qltb_lt in E. apply Qltb_lt. lra.
  - apply Qltb_ge in E. apply Qltb_ge. lra.
Qed.

(** Rounding a whole number of cents changes nothing. *)
Lemma py_round2_cents x n : x * 100 == inject_Z n -> py_round2 x = inject_Z n / 100.
Proof.
  intros H. unfold py_round2.
  assert (Hf : Qfloor (x * 100) = n).
  { rewrite (Qfloor_comp _ _ H). apply Qfloor_Z. }
  rewrite Hf.
  rewrite (Qltb_comp (x * 100 - inject_Z n) (1 # 2) 0 (1 # 2)) by lra.
  reflexivity.
Qed.

(** The grand total stays with the budget. Whenever the orchestrator
    returns, the grand total is within half a cent of the sum of the two
    Selections' subtotals; and when the percentages add up to at most 100,
    the total budget is not negative and the baseline of each pool is within
    its sub-budget, the grand total is at most the total budget plus a cent
    and a half: each of the three roundings adds at most half a cent. *)
Theorem grand_total_near_budget fuel total_budget tourist_pct industry_pct
    t_set i_set meta chosen_date is_advertiser t_sel i_sel grand_total
    t_picks0 t_s0 i_picks0 i_s0 :
  run_fill_to_cap fuel total_budget tourist_pct industry_pct t_set i_set meta
    chosen_date is_advertiser = Finished (t_sel, i_sel, grand_total) ->
  baseline_picks t_set meta chosen_date is_advertiser = Some (t_picks0, t_s0) ->
  baseline_picks i_set meta chosen_date is_advertiser = Some (i_picks0, i_s0) ->
  (subtotal t_sel + subtotal i_sel - (1 # 200) <= grand_total
   /\ grand_total <= subtotal t_sel + subtotal i_sel + (1 # 200))
  /\ (0 <= total_budget ->
      tourist_pct + industry_pct <= 100 ->
      t_s0 <= total_budget * (tourist_pct / 100) ->
      i_s0 <= total_budget * (industry_pct / 100) ->
      grand_total <= total_budget + (3 # 200)).
Proof.
  unfold run_fill_to_cap. intros Hrun Ht Hi.
  destruct (greedy_fill_to_cap t_set _ _ _ _ _) as [ts| |] eqn:Hts; try discriminate.
  destruct (greedy_fill_to_cap i_set _ _ _ _ _) as [is1| |] eqn:His; try discriminate.
  injection Hrun as <- <- <-.
  pose proof (py_round2_near (subtotal ts + subtotal is1)) as [Hlo Hhi].
  split; [split; assumption|].
  intros Hb Hpct Ht0 Hi0.
  assert (Hwithin : forall products budget picks0 s0 sel,
             baseline_picks products meta chosen_date is_advertiser = Some (picks0, s0) ->
             s0 <= budget ->
             greedy_fill_to_cap products meta chosen_date is_advertiser budget fuel
             = Finished sel ->
             subtotal sel <= budget + (1 # 200)).
  { intros products budget picks0 s0 sel Hbase Hs0. unfold greedy_fill_to_cap.
    rewrite Hbase.
    destruct (upgrade_loop _ _ _ _ _ _ _ _) as [[picks s]| |] eqn:Hloop;
      try discriminate.
    intros [= <-]. cbn [subtotal].
    pose proof (upgrade_loop_within _ _ _ _ _ _ _ _ _ _ Hloop Hs0) as Hs.
    pose proof (py_round2_near s) as [_ Hr]. lra. }
  pose proof (Hwithin _ _ _ _ _ Ht Ht0 Hts) as H1.
  pose proof (Hwithin _ _ _ _ _ Hi Hi0 His) as H2.
  assert (Hm : (tourist_pct + industry_pct) * (1 # 100) * total_budget
               <= 1 * total_budget)
    by (apply Qmult_le_compat_r; lra).
  assert (E : total_budget * (tourist_pct / 100)
              + total_budget * (industry_pct / 100)
              == (tourist_pct + industry_pct) * (1 # 100) * total_budget)
    by (unfold Qdiv; change (/ 100) with (1 # 100); ring).
  set (a := total_budget * (tourist_pct / 100)) in *.
  set (b := total_budget * (industry_pct / 100)) in *.
  set (c := (tourist_pct + industry_pct) * (1 # 100) * total_budget) in *.
  clearbody a b c. lra.
Qed.

(** The demo catalog as the tourist pool and its product B as the industry
    pool, with 45000 split 60/40: both baselines (350 and 250) are within
    their sub-budgets and the grand total is 2520.00. *)
Lemma grand_total_near_budget_witness :
  2520.00 <= 45000 + (3 # 200).
Proof.
  refine (proj2 (grand_total_near_budget 5 45000 60 40 demo_products demo_industry
                   ∅ None false
                   (Sel [("A", ("A std", "12X", 60)); ("B", ("B two", "gold", 900))]
                        1620.00)
                   (Sel [("B", ("B two", "gold", 900))] 900.00)
                   2520.00 demo_baseline 350 [("B", ("B one", "base", 250))] 250
                   _ _ _) _ _ _ _).
  - vm_compute. reflexivity.
  - reflexivity.
  - reflexivity.
  - lra.
  - lra.
  - vm_compute. discriminate.
  - vm_compute. discriminate.
Defined.

(** ** More on the discount rules *)

(** An advertiser pays what anyone pays who buys with other products:
    whenever the advertiser override fires, its price is the price that
    [apply_discounts] gives a non-advertiser with other products in the
    order, for every base price, tier, prepay flag and billing date. *)
Theorem advertiser_rate_is_bundle_rate pn on base tier ppy bd p l :
  advertiser_overrides pn on base tier true = (Some p, l) ->
  (apply_discounts pn on base tier true ppy true bd).1 == p
  /\ (apply_discounts pn on base tier true ppy false bd).1 == p.
Proof.
  intros H. split.
  - rewrite (apply_discounts_override _ _ _ _ _ _ _ _ _ _ H). reflexivity.
  - pose proof (override_fires_name _ _ _ _ _ _ _ H) as Hname.
    assert (Hhm : String.eqb (PyStr.strip pn) "Hotel Meetup" = false).
    { apply String.eqb_neq. intros Heq. rewrite Heq in Hname.
      destruct Hname as [Hn|Hn]; discriminate. }
    unfold apply_discounts. rewrite Hhm. cbn [andb].
    unfold override_then_rules, advertiser_overrides at 1. cbn [negb].
    unfold advertiser_overrides in H. cbn [negb] in H.
    unfold product_rules.
    destruct Hname as [Hn|Hn]; rewrite Hn in *.
    + change (String.eqb "Email Blast" "Email Blast") with true in *. cbn [andb] in *.
      destruct (PyStr.contains "Blast Email - concierge" (PyStr.strip on)).
      * injection H as <- _. destruct bd; reflexivity.
      * change (String.eqb "Email Blast" "Ambassador Program") with false in H.
        discriminate.
    + change (String.eqb "Ambassador Program" "Email Blast") with false in *.
      change (String.eqb "Ambassador Program" "Ambassador Program") with true in *.
      change (String.eqb "Ambassador Program" "Chicago Does Reels") with false.
      cbn [andb] in *.
      destruct (PyStr.startswith (PyStr.strip on) "Standard Ambassador Program").
      * injection H as <- _. destruct bd; reflexivity.
      * destruct (PyStr.startswith (PyStr.strip on) "Ambassador - Concierge Intro");
          [|discriminate].
        injection H as <- _. destruct bd; reflexivity.
Qed.

Lemma advertiser_rate_is_bundle_rate_witness :
  (apply_discounts "Ambassador Program" "Standard Ambassador Program (annual)"
     3200 "Retail" true false false None).1
  == 2950.
Proof.
  apply (proj2 (advertiser_rate_is_bundle_rate "Ambassador Program"
                  "Standard Ambassador Program (annual)" 3200 "Retail" false None
                  2950 (Some "Existing advertiser – with any campaign rate") eq_refl)).
Defined.

(** ** How many passes *)

Lemma list_sum_filter_le {X : Type} (f : X -> nat) (P : X -> bool) l :
  (list_sum (map f (List.filter P l)) <= list_sum (map f l))%nat.
Proof.
  induction l as [|x l IH]; simpl; [lia|].
  destruct (P x); simpl; lia.
Qed.

Lemma list_sum_map_le {X : Type} (f g : X -> nat) l :
  (forall x, List.In x l -> (f x <= g x)%nat) ->
  (list_sum (map f l) <= list_sum (map g l))%nat.
Proof.
  induction l as [|x l IH]; intros H; simpl; [lia|].
  assert (f x <= g x)%nat by (apply H; left; reflexivity).
  assert (list_sum (map f l) <= list_sum (map g l))%nat
    by (apply IH; intros y Hy; apply H; right; exact Hy).
  lia.
Qed.

(** The passes of Phase B are bounded by the catalog alone: for a catalog
    without a name twice on which Phase A returns, the allocator finishes
    within one pass more than the scans of the products give candidates,
    whatever the budget. *)
Theorem passes_bounded_by_candidates products meta chosen_date is_advertiser
    budget picks0 s0 fuel :
  NoDup (map fst products) ->
  baseline_picks products meta chosen_date is_advertiser = Some (picks0, s0) ->
  (candidate_count products meta chosen_date is_advertiser < fuel)%nat ->
  (sufficient_fuel products meta chosen_date is_advertiser picks0
   <= S (candidate_count products meta chosen_date is_advertiser))%nat
  /\ exists sel,
      greedy_fill_to_cap products meta chosen_date is_advertiser budget fuel
      = Finished sel.
Proof.
  intros Hndp Hbase Hfuel.
  destruct (baseline_ready _ _ _ _ _ _ Hbase) as [Hnd Hok].
  assert (Hroom : (headroom_sum products meta chosen_date is_advertiser picks0
                   <= candidate_count products meta chosen_date is_advertiser)%nat).
  { pose (g := fun k : string =>
                 length (default [] (lines_of products meta chosen_date is_advertiser k))).
    assert (H1 : (headroom_sum products meta chosen_date is_advertiser picks0
                  <= list_sum (map g (map fst picks0)))%nat).
    { unfold headroom_sum. rewrite map_map. apply list_sum_map_le.
      intros e _. apply headroom_le_candidates. }
    unfold baseline_picks in Hbase.
    destruct (baseline_run meta chosen_date is_advertiser _ _ _ _ _ Hbase NoDup_nil_2)
      as (_ & _ & _ & Heq).
    rewrite (Heq Hndp (fun k _ => not_elem_of_nil k)) in H1. cbn [app map] in H1.
    rewrite map_map in H1.
    etransitivity; [exact H1|].
    etransitivity; [apply list_sum_filter_le|].
    unfold candidate_count. apply list_sum_map_le.
    intros [k p] Hin. unfold g, lines_of. cbn [fst snd].
    rewrite (dict_get_NoDup _ _ _ Hndp Hin). reflexivity. }
  split; [unfold sufficient_fuel; lia|].
  destruct (upgrade_loop_finishes products meta chosen_date is_advertiser budget
              (S (candidate_count products meta chosen_date is_advertiser))
              picks0 s0 Hnd Hok) as (picks & s & Hloop & _); [lia|].
  exists (Sel picks (py_round2 s)). unfold greedy_fill_to_cap.
  rewrite Hbase, (Hloop fuel) by lia. reflexivity.
Qed.

(** The demo catalog gives six candidates: seven passes always suffice. *)
Lemma passes_bounded_by_candidates_witness :
  exists sel, greedy_fill_to_cap demo_products ∅ None false 45000 7 = Finished sel.
Proof.
  apply (passes_bounded_by_candidates demo_products ∅ None false 45000
           demo_baseline 350 7 demo_products_NoDup eq_refl).
  vm_compute. lia.
Defined.

(** ** More on the line price *)

(** A dearer base price never gives a cheaper line, and the line price is
    the base price times a factor of at least one that depends on the product
    and the tier only. *)
Theorem effective_line_price_monotone product tier base1 base2 :
  base1 <= base2 ->
  effective_line_price product tier base1 <= effective_line_price product tier base2.
Proof.
  intros H. unfold effective_line_price.
  destruct product as [p|]; [|exact H].
  destruct (no_durations p); [exact H|].
  assert (1 <= py_max (duration_multiplier p tier) 1).
  { rewrite py_max_spec. apply Q.le_max_r. }
  apply Qmult_le_compat_r; lra.
Qed.

Lemma effective_line_price_monotone_witness :
  effective_line_price (Some demo_tiered) "4X" 60
  <= effective_line_price (Some demo_tiered) "4X" 80.
Proof.
  apply (effective_line_price_monotone (Some demo_tiered) "4X" 60 80). lra.
Defined.
